(** * Toponym reconciliation and geocoding-resolution engine

    A shallow embedding of the Python sources

      - [processor/utils.py]       (the normalizer),
      - [server.py]                (override state, resolved model, worker),
      - [processor/exclusions.py]  (override store, filtered CSV),
      - [processor/geocode.py]     (ranking, resolver, cache, batch driver),

    together with the properties the design document states about them.

    Python [str] values are sequences of Unicode code points; they are
    modelled as lists of code points ([N]).  Dictionaries that are used as
    maps are [gmap]s, sets are [gset]s, and dictionaries whose insertion
    order is observable are association lists. *)

From Stdlib Require Import ZArith NArith QArith Ascii String List Lia.
From stdpp Require Import base decidable option list sorting countable gmap.

Local Open Scope N_scope.

(** ** Strings *)

Abbreviation codepoint := N (only parsing).
Abbreviation ustring := (list N) (only parsing).

(** A Python string literal written in the Basic Latin block. *)
Definition ustr (s : string) : ustring :=
  List.map N_of_ascii (list_ascii_of_string s).

(** Truth value of a string ([if s:]): the empty string is falsy. *)
Definition truthy_str (s : ustring) : bool :=
  match s with [] => false | _ :: _ => true end.

(** ** The Unicode character database

    [unicodedata], [re] and [str] consult tables that are not part of the
    repository.  They are taken as a parameter of the development. *)

Class UnicodeData := {
(** full compatibility decomposition of one code point, as the stack loop
    of [unicodedata.normalize("NFKD", _)] produces it; [[c]] when [c] has
    no decomposition *)
decomposition : N -> list N;
(** [unicodedata.combining]: the canonical combining class *)
combining : N -> N;
(** [Py_UNICODE_ISSPACE]: shared by [\s] in [re] and by [str.strip] *)
isspace : N -> bool;
(** [_PyUnicode_ToLowerFull]: the full lower-case mapping of a code point *)
lower_full : N -> list N;
(** [_PyUnicode_IsCased] and [_PyUnicode_IsCaseIgnorable] *)
cased : N -> bool;
case_ignorable : N -> bool;
}.

Definition SPACE : N := 32.
Definition CAPITAL_SIGMA : N := 931.      (* U+03A3 *)
Definition SMALL_SIGMA : N := 963.        (* U+03C3 *)
Definition SMALL_FINAL_SIGMA : N := 962.  (* U+03C2 *)

Module PyStr.
Section WithUnicode.
Context {U : UnicodeData}.

(** *** [unicodedata.normalize("NFKD", s)] *)

(** One step of the canonical ordering pass: the character [c] has just
    been appended to the output, whose earlier part is [out] in reverse
    order; [c] is swapped leftwards while its predecessor has a greater
    combining class and [c] itself is not a starter. *)
Fixpoint bubble (c : N) (out : list N) : list N :=
  match out with
  | [] => [c]
  | p :: rest =>
      if (0 <? combining c) && (combining c <? combining p)
      then p :: bubble c rest
      else c :: out
  end.

Definition canonical_order (s : ustring) : ustring :=
  rev (fold_left (fun out c => bubble c out) s []).

Definition nfkd (s : ustring) : ustring :=
  canonical_order (flat_map decomposition s).

(** *** [re.sub(r"\s+", " ", s)] : every maximal run of white space is
    replaced by one U+0020.  [in_run] tells that the previous character
    belonged to a run that has been replaced already. *)
Fixpoint re_sub_go (in_run : bool) (s : ustring) : ustring :=
  match s with
  | [] => []
  | c :: rest =>
      if isspace c
      then (if in_run then re_sub_go true rest
            else SPACE :: re_sub_go true rest)
      else c :: re_sub_go false rest
  end.

Definition re_sub_spaces (s : ustring) : ustring := re_sub_go false s.

(** *** [str.strip()] *)
Fixpoint lstrip (s : ustring) : ustring :=
  match s with
  | [] => []
  | c :: rest => if isspace c then lstrip rest else s
  end.

Fixpoint rstrip (s : ustring) : ustring :=
  match s with
  | [] => []
  | c :: rest =>
      match rstrip rest with
      | [] => if isspace c then [] else [c]
      | r => c :: r
      end
  end.

Definition strip (s : ustring) : ustring := rstrip (lstrip s).

(** *** [str.lower()] *)

(** The first character of [s] that is not case-ignorable. *)
Fixpoint skip_ignorable (s : ustring) : option N :=
  match s with
  | [] => None
  | c :: rest => if case_ignorable c then skip_ignorable rest else Some c
  end.

(** [handle_capital_sigma]: [before] holds the characters that precede
    the sigma, nearest first; [after] the ones that follow it. *)
Definition handle_capital_sigma (before after : ustring) : N :=
  let final_sigma :=
    match skip_ignorable before with
    | Some c =>
        cased c &&
        match skip_ignorable after with
        | None => true
        | Some d => negb (cased d)
        end
    | None => false
    end in
  if final_sigma then SMALL_FINAL_SIGMA else SMALL_SIGMA.

(** [lower_ucs4] for the character [c] at its position. *)
Definition lower_ucs4 (before : ustring) (c : N) (after : ustring) : list N :=
  if c =? CAPITAL_SIGMA then [handle_capital_sigma before after]
  else lower_full c.

Fixpoint lower_go (before : ustring) (s : ustring) : ustring :=
  match s with
  | [] => []
  | c :: rest => lower_ucs4 before c rest ++ lower_go (c :: before) rest
  end.

Definition lower (s : ustring) : ustring := lower_go [] s.

End WithUnicode.
End PyStr.

(** ** The normalizer: [processor/utils.py] *)

Module Utils.
Section WithUnicode.
Context {U : UnicodeData}.

(** [normalize_name(s)].  The argument may be [None] ([s or ""]). *)
Definition normalize_name (s : option ustring) : ustring :=
  let s := PyStr.nfkd (default [] s) in
  let s := filter (fun ch => combining ch = 0) s in
  let s := PyStr.re_sub_spaces s in
  PyStr.lower (PyStr.strip s).

(** [_norm(s)] *)
Definition _norm (s : option ustring) : ustring := normalize_name s.

(** [ordered_unique(seq)]: first occurrences, in order. *)
Fixpoint ordered_unique_go {A} `{EqDecision A} (seen : list A) (l : list A)
  : list A :=
  match l with
  | [] => []
  | x :: rest =>
      if decide (x ∈ seen) then ordered_unique_go seen rest
      else x :: ordered_unique_go (x :: seen) rest
  end.
Definition ordered_unique {A} `{EqDecision A} (l : list A) : list A :=
  ordered_unique_go [] l.

End WithUnicode.
End Utils.

(** ** Shape of normalized strings

    Properties of the Unicode tables on which the idempotence of the
    normalizer rests, and the shape of the strings it returns. *)

Module NormalForm.
Section WithUnicode.
Context {U : UnicodeData}.

(** A character that no step of the normalizer changes. *)
Definition settled (d : N) : Prop :=
  combining d = 0 /\ decomposition d = [d] /\ isspace d = false
  /\ lower_full d = [d] /\ d <> CAPITAL_SIGMA.

(** White space occurs only as single U+0020 characters, each preceded
    by a character that is not white space ([after_char] tells whether
    the string follows such a character). *)
Fixpoint spaced_ok (after_char : bool) (s : ustring) : bool :=
  match s with
  | [] => true
  | c :: rest =>
      if isspace c then after_char && (c =? SPACE) && spaced_ok false rest
      else spaced_ok true rest
  end.

(** The last character, if any, is not white space. *)
Fixpoint ends_ok (s : ustring) : bool :=
  match s with
  | [] => true
  | c :: rest =>
      match rest with
      | [] => negb (isspace c)
      | _ :: _ => ends_ok rest
      end
  end.

Definition tidy (s : ustring) : Prop :=
  spaced_ok false s = true /\ ends_ok s = true.

End WithUnicode.

(** What the development assumes about the tables. *)
Class UnicodeLaws (U : UnicodeData) : Prop := {
(** a full decomposition consists of characters without decomposition *)
decomposition_full :
  forall c d, d ∈ decomposition c -> decomposition d = [d];
(** U+0020 is white space, a starter, and is mapped to itself *)
space_isspace : isspace SPACE = true;
space_starter : combining SPACE = 0;
space_decomposition : decomposition SPACE = [SPACE];
space_lower : lower_full SPACE = [SPACE];
(** the lower-case mapping of a decomposed starter that is not white
    space consists of settled characters, and of at least one (the
    mapping is never consulted for the capital sigma) *)
lower_closed :
  forall c, c <> CAPITAL_SIGMA ->
    combining c = 0 -> decomposition c = [c] -> isspace c = false ->
    lower_full c <> [] /\ forall d, d ∈ lower_full c -> settled d;
(** the two small sigmas are settled *)
sigma_settled : settled SMALL_SIGMA;
final_sigma_settled : settled SMALL_FINAL_SIGMA;
}.

End NormalForm.

(** ** Floating-point numbers

    A Python [float]: a number, an infinity, or the value NaN, which
    [float("nan")] and the JSON constant [NaN] yield without raising and
    of which no comparison holds. *)
Inductive pyfloat :=
| Finite (q : Q)
| PosInf
| NegInf
| NaN.

Module PyFloat.

(** [-x] *)
Definition neg (x : pyfloat) : pyfloat :=
  match x with
  | Finite q => Finite (- q)
  | PosInf => NegInf
  | NegInf => PosInf
  | NaN => NaN
  end.

(** [x < y] *)
Definition ltb (x y : pyfloat) : bool :=
  match x, y with
  | NaN, _ | _, NaN => false
  | Finite p, Finite q => negb (Qle_bool q p)
  | NegInf, NegInf => false
  | NegInf, _ => true
  | Finite _, PosInf => true
  | _, _ => false
  end.

(** [x != 0.0] *)
Definition nonzero (x : pyfloat) : bool :=
  match x with
  | Finite q => negb (Qeq_bool q 0)
  | _ => true
  end.

(** [int(x)], [None] when it raises: an infinity and NaN have no
    integer part. *)
Definition trunc (x : pyfloat) : option Z :=
  match x with
  | Finite q => Some (Z.quot (Qnum q) (Zpos (Qden q)))
  | _ => None
  end.

Definition is_nan (x : pyfloat) : bool :=
  match x with NaN => true | _ => false end.

End PyFloat.

(** ** Python values

    The values [json.load] can produce; they are what the persisted
    override state and the geocode cache hold. A [dict] keeps its
    insertion order and binds every key once. *)

Inductive pyval :=
| VNone
| VBool (b : bool)
| VInt (z : Z)
| VFloat (x : pyfloat)
| VStr (s : list N)
| VList (l : list pyval)
| VDict (d : list (list N * pyval)).

(** Exceptions that the modelled code can let escape. *)
Inductive exn := TypeError | AttributeError | KeyError | FileNotFoundError.

Inductive result (A : Type) :=
| Ok (a : A)
| Raise (e : exn).
Arguments Ok {A} a.
Arguments Raise {A} e.

Definition rbind {A B} (r : result A) (k : A -> result B) : result B :=
  match r with Ok a => k a | Raise e => Raise e end.

(** [int(str)] and [float(str)] follow the Unicode notion of a digit and
    are taken as parameters, [None] standing for [ValueError]; so is
    [float(n)] of an integer, which rounds to the nearest float and
    raises [OverflowError], here [None], beyond the largest one. *)
Class Builtins := {
  int_of_str : list N -> option Z;
  float_of_str : list N -> option pyfloat;
  float_of_int : Z -> option pyfloat;
}.

Module Py.

(** [d.get(k)] on an association list: the binding of [k], if any. *)
Fixpoint assoc {V} (k : list N) (d : list (list N * V)) : option V :=
  match d with
  | [] => None
  | (k', v) :: rest => if decide (k' = k) then Some v else assoc k rest
  end.

(** [d[k] = v] on an insertion-ordered dictionary with keys in [K]: an
    existing key keeps its position. *)
Fixpoint dict_set {K V} `{EqDecision K} (k : K) (v : V) (d : list (K * V))
  : list (K * V) :=
  match d with
  | [] => [(k, v)]
  | (k', v') :: rest =>
      if decide (k' = k) then (k, v) :: rest
      else (k', v') :: dict_set k v rest
  end.

(** Truth value of a Python object. *)
Definition truthy (v : pyval) : bool :=
  match v with
  | VNone => false
  | VBool b => b
  | VInt z => negb (z =? 0)%Z
  | VFloat x => PyFloat.nonzero x
  | VStr s => truthy_str s
  | VList l => match l with [] => false | _ => true end
  | VDict d => match d with [] => false | _ => true end
  end.

(** [x or y] *)
Definition por (x y : pyval) : pyval := if truthy x then x else y.

(** [s.split(sep)] for a one-character separator. *)
Fixpoint split_on (sep : N) (s : list N) : list (list N) :=
  match s with
  | [] => [[]]
  | c :: rest =>
      if c =? sep then [] :: split_on sep rest
      else match split_on sep rest with
           | w :: ws => (c :: w) :: ws
           | [] => [[c]]
           end
  end.

(** [min(l, key=len)] on a non-empty list: the first shortest element. *)
Fixpoint min_by_len (x : list N) (l : list (list N)) : list N :=
  match l with
  | [] => x
  | y :: rest =>
      if (length y <? length x)%nat then min_by_len y rest
      else min_by_len x rest
  end.

(** Comparison of strings, code point by code point ([s <= t]). *)
Fixpoint str_leb (s t : list N) : bool :=
  match s, t with
  | [], _ => true
  | _ :: _, [] => false
  | a :: s', b :: t' => (a <? b) || ((a =? b) && str_leb s' t')
  end.

(** [needle in hay] for two strings: [needle] occurs as a substring. *)
Fixpoint is_prefix (p s : list N) : bool :=
  match p, s with
  | [], _ => true
  | _ :: _, [] => false
  | a :: p', b :: s' => (a =? b) && is_prefix p' s'
  end.

Fixpoint str_contains (needle hay : list N) : bool :=
  is_prefix needle hay ||
  match hay with
  | [] => false
  | _ :: rest => str_contains needle rest
  end.

(** [isinstance(v, str) and v == s] *)
Definition is_str (s : list N) (v : pyval) : bool :=
  match v with VStr t => bool_decide (t = s) | _ => false end.

(** [key in data] for a string [key]: dictionaries look among their
    keys, lists among their elements, strings among their substrings;
    the other values are not containers. *)
Definition contains (key : list N) (data : pyval) : result bool :=
  match data with
  | VDict d => Ok (bool_decide (is_Some (assoc key d)))
  | VList l => Ok (existsb (is_str key) l)
  | VStr s => Ok (str_contains key s)
  | _ => Raise TypeError
  end.

(** [for x in v]: the elements of a list, the characters of a string,
    the keys of a dictionary. *)
Definition iter (v : pyval) : result (list pyval) :=
  match v with
  | VList l => Ok l
  | VStr s => Ok (List.map (fun c => VStr [c]) s)
  | VDict d => Ok (List.map (fun kv => VStr (fst kv)) d)
  | _ => Raise TypeError
  end.

(** [int(v)], [None] when it raises: numbers are truncated towards
    zero, strings are parsed. *)
Definition to_int {B : Builtins} (v : pyval) : option Z :=
  match v with
  | VInt z => Some z
  | VBool b => Some (if b then 1 else 0)%Z
  | VFloat x => PyFloat.trunc x
  | VStr s => int_of_str s
  | _ => None
  end.

End Py.


(** What is found at the path of a persisted JSON file: nothing, a
    content that [json.load] rejects, or a parsed value. *)
Inductive json_file :=
| Missing
| Unparseable
| Parsed (v : pyval).

(** ** Pages

    A page label is an [int] when the label parses as one and the raw
    [str] otherwise ([page_i if page_i is not None else page_raw]). *)

Inductive page :=
| PInt (n : Z)
| PStr (s : list N).

#[global] Instance page_eq_dec : EqDecision page.
Proof. solve_decision. Defined.

#[global] Instance page_countable : Countable page.
Proof.
  refine (inj_countable'
            (fun p => match p with PInt n => inl n | PStr s => inr s end)
            (fun x => match x with inl n => PInt n | inr s => PStr s end) _).
  intros []; reflexivity.
Defined.

(** The order of the sort key [(not isinstance(x, int), x)]. *)
Definition page_leb (p q : page) : bool :=
  match p, q with
  | PInt a, PInt b => (a <=? b)%Z
  | PInt _, PStr _ => true
  | PStr _, PInt _ => false
  | PStr s, PStr t => Py.str_leb s t
  end.

Definition page_le (p q : page) : Prop := page_leb p q = true.

#[global] Instance page_le_dec : RelDecision page_le.
Proof. intros p q. unfold page_le. apply _. Defined.

(** [sorted(pages, key=lambda x: (not isinstance(x, int), x))] *)
Definition sorted_pages (s : gset page) : list page :=
  merge_sort page_le (elements s).

(** ** The resolved model: [server.py] *)

Module Server.
Section WithRuntime.
Context {U : UnicodeData} {B : Builtins}.

(** [_norm(s)] *)
Definition _norm (s : option ustring) : ustring :=
  let s := PyStr.nfkd (default [] s) in
  let s := filter (fun ch => combining ch = 0) s in
  PyStr.lower (PyStr.strip (PyStr.re_sub_spaces s)).

(** [_safe_int(x)] on a string. *)
Definition _safe_int (x : ustring) : option Z :=
  int_of_str (PyStr.strip x).

(** [_best_display(a, b)] *)
Definition _best_display (a b : ustring) : ustring :=
  if negb (truthy_str a) then b
  else if negb (truthy_str b) then a
  else if (length a <=? length b)%nat then a else b.

(** One row of [annale_toponimi.csv] / [annale_toponimi_esclusi.csv] as
    [csv.DictReader] yields it. *)
Record base_row := {
  row_pagina : ustring;
  row_anno : ustring;
  row_id : ustring;
  row_luogo : ustring;
}.

Record excl_row := {
  erow_pagina : ustring;
  erow_anno : ustring;
  erow_id : ustring;
  erow_termine : ustring;
  erow_stadio : ustring;
}.

(** [{"display": ..., "pages": set()}] *)
Record term_info := {
  ti_display : ustring;
  ti_pages : gset page;
}.

Record page_meta_rec := { pm_anno : ustring; pm_id : ustring }.

Definition page_key_of (page_raw : ustring) : page :=
  match _safe_int page_raw with
  | Some i => PInt i
  | None => PStr page_raw
  end.

(** The body shared by the two readers: record the term [t] on [page_key]. *)
Definition add_occurrence (page_key : page) (t : ustring)
    (out : gmap (list N) term_info) : gmap (list N) term_info :=
  let nm := _norm (Some t) in
  match out !! nm with
  | None =>
      <[nm := {| ti_display := t; ti_pages := {[page_key]} |}]> out
  | Some info =>
      <[nm := {| ti_display := _best_display (ti_display info) t;
                 ti_pages := ti_pages info ∪ {[page_key]} |}]> out
  end.

Definition keep_first_meta (page_key : page) (ano pid : ustring)
    (page_meta : gmap page page_meta_rec) : gmap page page_meta_rec :=
  match page_meta !! page_key with
  | Some _ => page_meta
  | None => <[page_key := {| pm_anno := ano; pm_id := pid |}]> page_meta
  end.

(** The terms of a [luogo] field:
    [[x.strip() for x in luoghi.split(";") if x.strip()]] *)
Definition split_terms (luoghi : ustring) : list ustring :=
  List.filter truthy_str (List.map PyStr.strip (Py.split_on 59 luoghi)).

(** [_read_base_csv]: [None] stands for a missing file. *)
Definition _read_base_csv (file : option (list base_row))
  : gmap (list N) term_info * gmap page page_meta_rec :=
  match file with
  | None => (∅, ∅)
  | Some rows =>
      fold_left
        (fun '(out, page_meta) row =>
           let page_raw := PyStr.strip (row_pagina row) in
           let ano := PyStr.strip (row_anno row) in
           let pid := PyStr.strip (row_id row) in
           let luoghi := PyStr.strip (row_luogo row) in
           if negb (truthy_str page_raw) then (out, page_meta)
           else
             let page_key := page_key_of page_raw in
             let page_meta := keep_first_meta page_key ano pid page_meta in
             if negb (truthy_str luoghi) then (out, page_meta)
             else
               (fold_left (fun out t => add_occurrence page_key t out)
                          (split_terms luoghi) out,
                page_meta))
        rows (∅, ∅)
  end.

(** [_read_fallback_excluded] *)
Definition _read_fallback_excluded (file : option (list excl_row))
  : gmap (list N) term_info * gmap page page_meta_rec :=
  match file with
  | None => (∅, ∅)
  | Some rows =>
      fold_left
        (fun '(out, page_meta_fb) row =>
           let page_raw := PyStr.strip (erow_pagina row) in
           let ano := PyStr.strip (erow_anno row) in
           let pid := PyStr.strip (erow_id row) in
           let term := PyStr.strip (erow_termine row) in
           if negb (truthy_str page_raw) || negb (truthy_str term)
           then (out, page_meta_fb)
           else
             let page_key := page_key_of page_raw in
             (add_occurrence page_key term out,
              keep_first_meta page_key ano pid page_meta_fb))
        rows (∅, ∅)
  end.

(** The three collections as [_load_user_state] returns them. *)
Record loaded_state := {
  ls_exclude_global : pyval;
  ls_exclude_pages : pyval;
  ls_include_pages : pyval;
}.

(** [data.get(key, []) or []] *)
Definition get_list (data : pyval) (key : ustring) : result pyval :=
  match data with
  | VDict d => Ok (Py.por (default (VList []) (Py.assoc key d)) (VList []))
  | _ => Raise AttributeError
  end.

(** [_load_user_state(job_dir)] *)
Definition _load_user_state (file : json_file) : result loaded_state :=
  match file with
  | Missing =>
      Ok {| ls_exclude_global := VList []; ls_exclude_pages := VList [];
            ls_include_pages := VList [] |}
  | _ =>
      let data :=
        match file with Parsed v => v | _ => VDict [] end in
      rbind (get_list data (ustr "exclude_global")) (fun eg =>
      rbind (get_list data (ustr "exclude_pages")) (fun ep =>
      rbind (get_list data (ustr "include_pages")) (fun ip =>
      Ok {| ls_exclude_global := eg; ls_exclude_pages := ep;
            ls_include_pages := ip |})))
  end.

(** One record of [exclude_pages] / [include_pages]: the values of
    [rec.get("norm")], [rec.get("page")] and [rec.get("raw")], [None]
    when the key is absent or bound to [null]. *)
Record page_rec := {
  rec_norm : option ustring;
  rec_page : option page;
  rec_raw : option ustring;
}.

(** The override state as [_load_user_state] hands it to the resolver. *)
Record user_state := {
  exclude_global : list ustring;
  exclude_pages : list page_rec;
  include_pages : list page_rec;
}.

(** [ex_pages_set] / [in_pages_set]: the pairs [(nn, pp)] of the records
    with a non-empty normalized name and a page. *)
Definition pairs_set (recs : list page_rec) : gset (list N * page) :=
  fold_left
    (fun acc rec =>
       let nn := _norm (Some (default [] (rec_norm rec))) in
       match rec_page rec with
       | Some pp => if truthy_str nn then acc ∪ {[(nn, pp)]} else acc
       | None => acc
       end)
    recs ∅.

(** [in_pages_raw]: the raw display form of the forced inclusions that
    carry one. *)
Definition raw_dict (recs : list page_rec)
  : list ((list N * page) * list N) :=
  fold_left
    (fun acc rec =>
       let nn := _norm (Some (default [] (rec_norm rec))) in
       let raw := default [] (rec_raw rec) in
       match rec_page rec with
       | Some pp =>
           if truthy_str nn && truthy_str raw
           then Py.dict_set (nn, pp) raw acc else acc
       | None => acc
       end)
    recs [].

Record included_entry := {
  inc_display : ustring;
  inc_pages : list page;
}.

Record excluded_entry := {
  exc_display : ustring;
  exc_is_global : bool;
  exc_pages : list page;
}.

Section PerTerm.
Variables (base_included auto_excl : gmap (list N) term_info).
Variables (exclude_global_set : gset (list N)).
Variables (ex_pages_set in_pages_set : gset (list N * page)).
Variable (in_pages_raw : list ((list N * page) * list N)).
Variable (norm : list N).

(** The display form chosen for [norm]. *)
Definition display_of : ustring :=
  let disp_candidates :=
    (match base_included !! norm with
     | Some info => [ti_display info] | None => [] end)
    ++ (match auto_excl !! norm with
        | Some info => [ti_display info] | None => [] end)
    ++ omap (fun '((nn, pp), raw) =>
               if decide (nn = norm) then
                 (if truthy_str raw then Some raw else None)
               else None)
            in_pages_raw in
  match List.filter truthy_str disp_candidates with
  | d :: ds => Py.min_by_len d ds
  | [] => norm
  end.

(** [forced = {pp for (nn, pp) in in_pages_set if nn == norm}] *)
Definition forced_pages : gset page :=
  set_fold (fun '(nn, pp) acc =>
              if decide (nn = norm) then acc ∪ {[pp]} else acc)
           ∅ in_pages_set.

(** The pages on which [norm] stays included. *)
Definition pages_inc_of : gset page :=
  let pages_inc :=
    match base_included !! norm with
    | Some info => ti_pages info
    | None => ∅
    end in
  let pages_inc :=
    set_fold (fun '(nn, pp) acc =>
                if decide (nn = norm) then acc ∪ {[pp]} else acc)
             pages_inc in_pages_set in
  let pages_inc :=
    set_fold (fun '(nn, pp) acc =>
                if decide (nn = norm) then
                  (if decide ((nn, pp) ∈ in_pages_set) then acc
                   else acc ∖ {[pp]})
                else acc)
             pages_inc ex_pages_set in
  if decide (norm ∈ exclude_global_set) then forced_pages
  else pages_inc.

(** The pages on which [norm] is reported as excluded. *)
Definition pages_exc_of (pages_inc : gset page) : gset page :=
  let pages_exc :=
    match base_included !! norm with
    | Some info =>
        set_fold (fun p acc =>
                    if decide (p ∈ pages_inc) then acc else acc ∪ {[p]})
                 ∅ (ti_pages info)
    | None => ∅
    end in
  match auto_excl !! norm with
  | Some info =>
      set_fold (fun p acc =>
                  if decide ((norm, p) ∈ in_pages_set) then acc
                  else if decide (p ∈ pages_inc) then acc
                  else acc ∪ {[p]})
               pages_exc (ti_pages info)
  | None => pages_exc
  end.

(** The body of the loop [for norm in all_norms]. *)
Definition resolve_term
    (acc : gmap (list N) included_entry * gmap (list N) excluded_entry)
  : gmap (list N) included_entry * gmap (list N) excluded_entry :=
  let '(final_included, final_excluded) := acc in
  let display := display_of in
  let pages_inc := pages_inc_of in
  let pages_exc := pages_exc_of pages_inc in
  let final_included :=
    if decide (pages_inc = ∅) then final_included
    else <[norm := {| inc_display := display;
                      inc_pages := sorted_pages pages_inc |}]>
           final_included in
  let is_glob := bool_decide (norm ∈ exclude_global_set) in
  let final_excluded :=
    if is_glob || negb (bool_decide (pages_exc = ∅))
    then <[norm := {| exc_display := display;
                      exc_is_global := is_glob;
                      exc_pages := sorted_pages pages_exc |}]>
           final_excluded
    else final_excluded in
  (final_included, final_excluded).
End PerTerm.

(** The contents of a job directory that [_compute_model] reads. *)
Record job_files := {
  annale_toponimi_csv : option (list base_row);
  annale_toponimi_esclusi_csv : option (list excl_row);
  annale_user_state : user_state;
}.

Record model := {
  final_included : gmap (list N) included_entry;
  final_excluded : gmap (list N) excluded_entry;
  model_state : user_state;
  page_meta : gmap page page_meta_rec;
}.

(** [_compute_model(job_dir)] *)
Definition _compute_model (job : job_files) : model :=
  let '(base_included, page_meta_base) :=
    _read_base_csv (annale_toponimi_csv job) in
  let '(auto_excl, page_meta_fb) :=
    _read_fallback_excluded (annale_toponimi_esclusi_csv job) in
  (* [dict.update]: the later source overrides *)
  let page_meta := page_meta_base ∪ page_meta_fb in
  let state := annale_user_state job in
  let exclude_global_set : gset (list N) :=
    list_to_set (exclude_global state) in
  let ex_pages_set := pairs_set (exclude_pages state) in
  let in_pages_set := pairs_set (include_pages state) in
  let in_pages_raw := raw_dict (include_pages state) in
  let all_norms : gset (list N) :=
    dom base_included ∪ dom auto_excl
    ∪ set_map fst in_pages_set
    ∪ exclude_global_set
    ∪ set_map fst ex_pages_set in
  let '(fi, fe) :=
    set_fold
      (resolve_term base_included auto_excl exclude_global_set
                    ex_pages_set in_pages_set in_pages_raw)
      (∅, ∅) all_norms in
  {| final_included := fi; final_excluded := fe;
     model_state := state; page_meta := page_meta |}.

(** The page list reported for [k] ([[]] when [k] is not reported). *)
Definition included_pages (m : model) (k : ustring) : list page :=
  match final_included m !! k with
  | Some e => inc_pages e
  | None => []
  end.

Definition excluded_pages (m : model) (k : ustring) : list page :=
  match final_excluded m !! k with
  | Some e => exc_pages e
  | None => []
  end.

(** *** What the properties speak about *)

(** The bindings of [k] once the loop over [all_norms] has visited the
    names of [S]. *)
Definition loop_inv
    (base_included auto_excl : gmap (list N) term_info)
    (exclude_global_set : gset (list N))
    (ex_pages_set in_pages_set : gset (list N * page))
    (in_pages_raw : list ((list N * page) * list N))
    (k : list N)
    (r : gmap (list N) included_entry * gmap (list N) excluded_entry)
    (S : gset (list N)) : Prop :=
  let pages_inc :=
    pages_inc_of base_included exclude_global_set ex_pages_set
                 in_pages_set k in
  let pages_exc := pages_exc_of base_included auto_excl in_pages_set k
                                pages_inc in
  let display := display_of base_included auto_excl in_pages_raw k in
  (r.1 !! k =
     if decide (k ∈ S /\ pages_inc <> ∅)
     then Some {| inc_display := display;
                  inc_pages := sorted_pages pages_inc |}
     else None)
  /\ (r.2 !! k =
      if decide (k ∈ S /\ (k ∈ exclude_global_set \/ pages_exc <> ∅))
      then Some {| exc_display := display;
                   exc_is_global := bool_decide (k ∈ exclude_global_set);
                   exc_pages := sorted_pages pages_exc |}
      else None).

(** The names the resolver considers for a job. *)
Definition all_norms_of (job : job_files) : gset (list N) :=
  dom (_read_base_csv (annale_toponimi_csv job)).1
  ∪ dom (_read_fallback_excluded (annale_toponimi_esclusi_csv job)).1
  ∪ set_map fst (pairs_set (include_pages (annale_user_state job)))
  ∪ list_to_set (exclude_global (annale_user_state job))
  ∪ set_map fst (pairs_set (exclude_pages (annale_user_state job))).

End WithRuntime.
End Server.

(** ** The override store: [processor/exclusions.py] *)

Module Exclusions.
Section WithRuntime.
Context {U : UnicodeData} {B : Builtins}.

(** [{"name_norm": ..., "page": ...}] after cleaning *)
Record attestation := {
  name_norm : ustring;
  att_page : Z;
}.

Record raw_exclusions := {
  excluded_toponyms : list ustring;
  excluded_attestations : list attestation;
  forced_include_attestations : list attestation;
}.

Definition no_exclusions : raw_exclusions :=
  {| excluded_toponyms := []; excluded_attestations := [];
     forced_include_attestations := [] |}.

(** [data.get(key)]: only a dictionary has the method. *)
Definition get (data : pyval) (key : ustring) : result pyval :=
  match data with
  | VDict d => Ok (default VNone (Py.assoc key d))
  | _ => Raise AttributeError
  end.

(** [data[key] = v]: lists take integer indices only and strings are
    immutable. *)
Definition setitem (data : pyval) (key : ustring) (v : pyval)
  : result pyval :=
  match data with
  | VDict d => Ok (VDict (Py.dict_set key v d))
  | _ => Raise TypeError
  end.

(** [_clean_pairs(arr)] of [_load_raw_exclusions] *)
Definition _clean_pairs (arr : pyval) : result (list attestation) :=
  rbind (Py.iter arr) (fun rows =>
  Ok (omap
        (fun row =>
           match row with
           | VDict r =>
               let nm := default VNone (Py.assoc (ustr "name_norm") r) in
               let pg := default VNone (Py.assoc (ustr "page") r) in
               match Py.to_int pg with
               | None => None
               | Some pg_int =>
                   match nm with
                   | VStr n =>
                       if truthy_str (PyStr.strip n)
                       then Some {| name_norm := Utils._norm (Some n);
                                    att_page := pg_int |}
                       else None
                   | _ => None
                   end
               end
           | _ => None
           end)
        rows)).

(** [if key not in data: data[key] = []] *)
Definition ensure_list (data : pyval) (key : ustring) : result pyval :=
  rbind (Py.contains key data) (fun present =>
  if present then Ok data else setitem data key (VList [])).

(** [_load_raw_exclusions(out_dir)] *)
Definition _load_raw_exclusions (file : json_file) : result raw_exclusions :=
  match file with
  | Missing => Ok no_exclusions
  | Unparseable => Ok no_exclusions
  | Parsed data =>
      (* the old format {"excluded": [...]} *)
      rbind (Py.contains (ustr "excluded_toponyms") data) (fun has_new =>
      rbind (if has_new then Ok false
             else Py.contains (ustr "excluded") data) (fun has_old =>
      rbind (if negb has_new && has_old then
               rbind (get data (ustr "excluded")) (fun old =>
               rbind (Py.iter (Py.por old (VList []))) (fun l =>
               setitem data (ustr "excluded_toponyms") (VList l)))
             else Ok data) (fun data =>
      rbind (ensure_list data (ustr "excluded_attestations")) (fun data =>
      rbind (ensure_list data (ustr "forced_include_attestations"))
            (fun data =>
      rbind (get data (ustr "excluded_toponyms")) (fun excl_topo =>
      rbind (get data (ustr "excluded_attestations")) (fun excl_att =>
      rbind (get data (ustr "forced_include_attestations")) (fun incl_att =>
      let excl_topo := Py.por excl_topo (VList []) in
      let excl_att := Py.por excl_att (VList []) in
      let incl_att := Py.por incl_att (VList []) in
      rbind (_clean_pairs excl_att) (fun excl_att =>
      rbind (_clean_pairs incl_att) (fun incl_att =>
      rbind (Py.iter excl_topo) (fun topo =>
      Ok {| excluded_toponyms :=
              omap (fun x => match x with VStr t => Some t | _ => None end)
                   topo;
            excluded_attestations := excl_att;
            forced_include_attestations := incl_att |})))))))))))
  end.

(** [load_user_exclusions(out_dir)] *)
Definition load_user_exclusions (file : json_file)
  : result (gset (list N)) :=
  rbind (_load_raw_exclusions file) (fun raw =>
  Ok (list_to_set
        (List.map (fun x => Utils._norm (Some x)) (excluded_toponyms raw)))).

(** The pairs [(nm, pg)] with [nm and pg]. *)
Definition pairs_of (rows : list attestation) : gset (list N * Z) :=
  fold_left
    (fun acc row =>
       let nm := Utils._norm (Some (name_norm row)) in
       let pg := att_page row in
       if truthy_str nm && negb (pg =? 0)%Z then acc ∪ {[(nm, pg)]}
       else acc)
    rows ∅.

(** [load_user_exclusions_full(out_dir)] *)
Definition load_user_exclusions_full (file : json_file)
  : result (gset (list N) * gset (list N * Z) * gset (list N * Z)) :=
  rbind (_load_raw_exclusions file) (fun raw =>
  Ok (list_to_set
        (List.map (fun x => Utils._norm (Some x)) (excluded_toponyms raw)),
      pairs_of (excluded_attestations raw),
      pairs_of (forced_include_attestations raw))).

(** [_collect_prefilter_forced_inclusions] *)
Definition _collect_prefilter_forced_inclusions
    (file : option (list Server.excl_row))
    (forced_include_pairs : gset (list N * Z))
  : gmap (list N) (list (list N)) :=
  match file with
  | None => ∅
  | Some rows =>
      fold_left
        (fun out row =>
           let stadio := PyStr.lower (PyStr.strip (Server.erow_stadio row)) in
           if negb (bool_decide (stadio = ustr "pre_filter")) then out
           else
             let term := PyStr.strip (Server.erow_termine row) in
             let pagina_label := PyStr.strip (Server.erow_pagina row) in
             if negb (truthy_str term) || negb (truthy_str pagina_label)
             then out
             else
               let nm := Utils._norm (Some term) in
               match int_of_str pagina_label with
               | None => out
               | Some pagina_int =>
                   if bool_decide ((nm, pagina_int) ∈ forced_include_pairs)
                   then <[pagina_label :=
                            default [] (out !! pagina_label) ++ [term]]> out
                   else out
               end)
        rows ∅
  end.

Section Row.
Variable global_excl : gset (list N).
Variables page_pairs_excl forced_include_pairs : gset (list N * Z).
Variable pagina_int : option Z.

(** Is the pair of [nm] and the page of the row in [pairs]? *)
Definition on_page (nm : list N) (pairs : gset (list N * Z)) : bool :=
  match pagina_int with
  | Some p => bool_decide ((nm, p) ∈ pairs)
  | None => false
  end.

(** The loop [for t in working_terms] that applies the exclusions. *)
Fixpoint filter_terms (seen_norms : list (list N))
    (working_terms : list (list N)) : list (list N) :=
  match working_terms with
  | [] => []
  | t :: rest =>
      let nm := Utils._norm (Some t) in
      if bool_decide (nm ∈ seen_norms) then filter_terms seen_norms rest
      else
        let seen_norms := nm :: seen_norms in
        if bool_decide (nm ∈ global_excl)
           && negb (on_page nm forced_include_pairs)
        then filter_terms seen_norms rest
        else if on_page nm page_pairs_excl
                && negb (on_page nm forced_include_pairs)
        then filter_terms seen_norms rest
        else t :: filter_terms seen_norms rest
  end.
(** The two tests a normalized name passes to stay on the row. *)
Definition kept (nm : list N) : bool :=
  negb (bool_decide (nm ∈ global_excl)
        && negb (on_page nm forced_include_pairs))
  && negb (on_page nm page_pairs_excl
           && negb (on_page nm forced_include_pairs)).
End Row.

(** One row of [annale_toponimi_filtered.csv]: the terms are joined
    with [;] when the row is written. *)
Record filtered_row := {
  frow_pagina : ustring;
  frow_anno : ustring;
  frow_id : ustring;
  frow_terms : list ustring;
}.

(** [apply_exclusions_to_csv(out_dir)].  A [set] is iterated in an
    order that Python leaves open; the model takes the order of
    [elements]. *)
Definition apply_exclusions_to_csv
    (src : option (list Server.base_row))
    (esclusi : option (list Server.excl_row))
    (exclusions : json_file) : result (list filtered_row) :=
  match src with
  | None => Raise FileNotFoundError
  | Some base_rows =>
      rbind (load_user_exclusions_full exclusions)
        (fun '(global_excl, page_pairs_excl, forced_include_pairs) =>
      let forced_prefilter_map :=
        _collect_prefilter_forced_inclusions esclusi forced_include_pairs in
      Ok (List.map
            (fun r =>
               let pagina_label := PyStr.strip (Server.row_pagina r) in
               let luoghi_field := PyStr.strip (Server.row_luogo r) in
               let base_terms := Server.split_terms luoghi_field in
               let pagina_int := int_of_str pagina_label in
               let extra_terms :=
                 default [] (forced_prefilter_map !! pagina_label) in
               let working_terms : gset (list N) :=
                 list_to_set base_terms ∪ list_to_set extra_terms in
               {| frow_pagina := pagina_label;
                  frow_anno := PyStr.strip (Server.row_anno r);
                  frow_id := PyStr.strip (Server.row_id r);
                  frow_terms :=
                    filter_terms global_excl page_pairs_excl
                                 forced_include_pairs pagina_int []
                                 (elements working_terms) |})
            base_rows))
  end.

End WithRuntime.
End Exclusions.

(** ** Geocoding: [processor/geocode.py] *)

(** A JSON scalar that the code converts with [float()] or [int()]: an
    integer, a number with a fraction or an exponent, which [json]
    reads as a [float] and also reads from the constants [NaN],
    [Infinity] and [-Infinity], or a string. *)
Inductive scalar :=
| SInt (z : Z)
| SNum (x : pyfloat)
| SStr (s : list N).

(** One result of the place-lookup service, with the keys the code reads;
    [None] stands for an absent key. *)
Record hit := {
  h_class : option (list N);
  h_type : option (list N);
  h_importance : option scalar;
  h_lat : option scalar;
  h_lon : option scalar;
  h_display_name : option (list N);
  h_osm_type : option (list N);
  h_osm_id : option Z;
  h_namedetails : option (list (list N * list N));
  h_address : option (list (list N * list N));
  h_extratags : option (list (list N * list N));
  h_admin_level : option scalar;
  h_geojson : option pyval;
}.

(** What the service answers to one request, within its result format:
    a JSON list of result objects whose fields have the types above, any
    other JSON, or a body that is not JSON. *)
Inductive http_body :=
| BodyList (hits : list hit)
| BodyJson   (* JSON, but not a list *)
| BodyText.  (* not JSON *)

Inductive http_outcome :=
| NetworkError
| Response (status : Z) (body : http_body).

(** What [nominatim_search] returns: the one-element list
    [[{"__http_error__": ...}]] or the results. *)
Inductive search_item :=
| HttpErrorMarker
| Item (h : hit).

Inductive progress_status := Starting | Running | Done | Failed.

(** Observable effects, in the order in which they happen. *)
Inductive event :=
| EvSearch (label q : list N) (countrycodes : option (list N))
| EvSleep
| EvDebug (stage : list N)
| EvCacheWritten (cache : gmap (list N) pyval)
| EvGroupedWritten (features : list pyval)
| EvRejectsWritten (rows : list (list N * pyval))  (* luogo, reason *)
| EvProgressWritten (status : progress_status) (done total : Z)
                    (current : option (list N)).

(** One row of [annale_toponimi.csv] as the geocoder reads it. *)
Record csv_row := {
  csv_pagina : list N;
  csv_luogo : list N;
}.

(** The part of the job directory the geocoder works on.  The cache
    file is given by the JSON object it holds; [None] stands for a file
    that is missing or cannot be parsed, which the driver treats
    alike. *)
Record world := {
  w_trace : list event;
  w_cache_file : option (gmap (list N) pyval);
  w_filtered_csv : option (list csv_row);
  w_base_csv : option (list csv_row);
}.

(** Computations that act on the job directory. *)
Definition M (A : Type) : Type := world -> A * world.

Definition ret {A} (a : A) : M A := fun w => (a, w).

Definition bind {A B} (m : M A) (k : A -> M B) : M B :=
  fun w => let '(a, w') := m w in k a w'.

Notation "'let*' x ':=' m 'in' k" := (bind m (fun x => k))
  (at level 200, x pattern, m at level 100, k at level 200,
   right associativity).

(** The same with an exception that stops the computation. *)
Definition bind_ok {A B} (m : M (result A)) (k : A -> M (result B))
  : M (result B) :=
  fun w =>
    let '(r, w') := m w in
    match r with
    | Ok a => k a w'
    | Raise e => (Raise e, w')
    end.

Notation "'let?' x ':=' m 'in' k" := (bind_ok m (fun x => k))
  (at level 200, x pattern, m at level 100, k at level 200,
   right associativity).

Definition emit (e : event) : M unit :=
  fun w => (tt, {| w_trace := w_trace w ++ [e];
                   w_cache_file := w_cache_file w;
                   w_filtered_csv := w_filtered_csv w;
                   w_base_csv := w_base_csv w |}).

(** [for x in l: acc = body(x, acc)] *)
Fixpoint for_each {A S} (l : list A) (body : A -> S -> M S) (acc : S) : M S :=
  match l with
  | [] => ret acc
  | x :: rest => let* acc := body x acc in for_each rest body acc
  end.

Module Geocode.
Section WithRuntime.
Context {U : UnicodeData} {B : Builtins}.

(** The place-lookup service: its answer may depend on everything that
    happened before the request. *)
Variable service : list event -> list N -> option (list N) -> http_outcome.

Definition NOMINATIM_COUNTRYCODES : list N := ustr "it".

Definition PRIMARY_PLACE_TYPES : list (list N) :=
  List.map ustr
    ["city"; "town"; "village"; "hamlet"; "municipality"; "city_district";
     "borough"; "quarter"; "suburb"; "neighbourhood"; "neighborhood";
     "locality"]%string.

Definition SECONDARY_PLACE_TYPES : list (list N) :=
  List.map ustr
    ["county"; "province"; "region"; "state"; "country"; "island";
     "archipelago"; "state_district"; "department"]%string.

Definition ACCEPT_BOUNDARY_TYPES : list (list N) := [ustr "administrative"].

Definition EXONYMS_IT : list (list N * list N) :=
  List.map (fun kv => (ustr (fst kv), ustr (snd kv)))
    [("parigi", "paris"); ("berna", "bern"); ("francia", "france");
     ("spagna", "spain"); ("brasile", "brazil");
     ("svizzera", "switzerland"); ("libia", "libya");
     ("puglie", "puglia"); ("regno unito", "united kingdom");
     ("stati uniti", "united states");
     ("paesi bassi", "netherlands")]%string.

(** The six point-of-interest categories of tier 3. *)
Definition POI_CATEGORIES : list (list N * list N) :=
  List.map (fun kv => (ustr (fst kv), ustr (snd kv)))
    [("railway", "station"); ("aeroway", "aerodrome");
     ("aeroway", "airport"); ("tourism", "attraction");
     ("natural", "peak"); ("natural", "bay")]%string.

(** [_safe_float(x)] *)
Definition _safe_float (x : option scalar) : pyfloat :=
  match x with
  | Some (SInt z) => default (Finite 0) (float_of_int z)
  | Some (SNum y) => y
  | Some (SStr s) => default (Finite 0) (float_of_str s)
  | None => Finite 0
  end.

(** [_split_semicolon(s)] *)
Definition _split_semicolon (s : list N) : list (list N) :=
  List.filter truthy_str (List.map PyStr.strip (Py.split_on 59 s)).

(** [_collect_names_for_match(hit)]: the elements of the set [names]. *)
Definition _collect_names_for_match (h : hit) : list (list N) :=
  let nd := default [] (h_namedetails h) in
  let disp := hd [] (Py.split_on 44 (default [] (h_display_name h))) in
  omap (fun k =>
          match Py.assoc k nd with
          | Some v => if truthy_str v then Some (Utils._norm (Some v))
                      else None
          | None => None
          end)
       (List.map ustr ["name"; "official_name"; "short_name"]%string)
  ++ flat_map (fun k =>
                 List.map (fun item => Utils._norm (Some item))
                          (_split_semicolon (default [] (Py.assoc k nd))))
              (List.map ustr ["alt_name"; "old_name"; "loc_name"]%string)
  ++ omap (fun kv =>
             if Py.is_prefix (ustr "name:") (fst kv) && truthy_str (snd kv)
             then Some (Utils._norm (Some (snd kv))) else None)
          nd
  ++ (if truthy_str disp then [Utils._norm (Some disp)] else []).

(** [int(al)], [None] when it raises. *)
Definition scalar_int (al : scalar) : option Z :=
  match al with
  | SInt z => Some z
  | SNum x => PyFloat.trunc x
  | SStr s => int_of_str s
  end.

(** [_admin_level(hit)] *)
Definition _admin_level (h : hit) : Z :=
  let from_extratags :=
    match Py.assoc (ustr "admin_level") (default [] (h_extratags h)) with
    | Some al => int_of_str al
    | None => None
    end in
  match from_extratags with
  | Some n => n
  | None =>
      match h_admin_level h with
      | Some al => default 0%Z (scalar_int al)
      | None => 0%Z
      end
  end.

(** [_rank_tier(hit)] *)
Definition _rank_tier (h : hit) : Z :=
  let cls := PyStr.lower (default [] (h_class h)) in
  let typ := PyStr.lower (default [] (h_type h)) in
  if bool_decide (cls = ustr "place")
     && bool_decide (typ ∈ PRIMARY_PLACE_TYPES) then 0%Z
  else if bool_decide (cls = ustr "boundary")
          && bool_decide (typ ∈ ACCEPT_BOUNDARY_TYPES) then
    let al := _admin_level h in
    if (0 <? al)%Z && (al <=? 4)%Z then 0%Z
    else if (5 <=? al)%Z && (al <=? 6)%Z then 1%Z
    else 2%Z
  else if bool_decide (cls = ustr "place")
          && bool_decide (typ ∈ SECONDARY_PLACE_TYPES) then 2%Z
  else if bool_decide ((cls, typ) ∈ POI_CATEGORIES) then 3%Z
  else if bool_decide (is_Some (h_lat h))
          && bool_decide (is_Some (h_lon h)) then 8%Z
  else 9%Z.

(** [_name_match_strength(q_norm, hit)] *)
Definition _name_match_strength (q_norm : list N) (h : hit) : Z :=
  let names := _collect_names_for_match h in
  if bool_decide (q_norm ∈ names) then 2%Z
  else if existsb (fun n =>
                     (4 <=? length q_norm)%nat
                     && (Py.str_contains q_norm n
                         || Py.str_contains n q_norm))
                  names then 1%Z
  else
    let addr := default [] (h_address h) in
    if existsb (fun k =>
                  match Py.assoc k addr with
                  | Some v =>
                      truthy_str v && (4 <=? length q_norm)%nat
                      && Py.str_contains q_norm (Utils._norm (Some v))
                  | None => false
                  end)
               (List.map ustr
                  ["country"; "state"; "region"; "province"; "county";
                   "city"; "town"; "village"]%string)
    then 1%Z
    else 0%Z.

(** [_rank_key(hit, q_norm)] *)
Definition _rank_key (h : hit) (q_norm : list N) : Z * Z * pyfloat :=
  let tier := _rank_tier h in
  let imp := _safe_float (h_importance h) in
  let nm := _name_match_strength q_norm h in
  (tier, (- nm)%Z, PyFloat.neg imp).

(** [a < b] on the key tuples: the first components that differ
    decide, and two keys that differ in a NaN alone are not below one
    another. *)
Definition key_lt (a b : Z * Z * pyfloat) : bool :=
  let '(t1, n1, i1) := a in
  let '(t2, n2, i2) := b in
  (t1 <? t2)%Z
  || ((t1 =? t2)%Z
      && ((n1 <? n2)%Z
          || ((n1 =? n2)%Z && PyFloat.ltb i1 i2))).

(** [list.sort(key=...)] compares the keys with [<] and nothing else.
    On a list of fewer than 64 elements, which four requests of at most
    fifteen results give, CPython takes the run the list begins with,
    which either never descends or descends strictly and is then
    reversed, and inserts each remaining element into the sorted part
    at the place a binary search finds. Longer lists are cut into such
    runs that are merged, which gives the same list whenever [<] orders
    the keys consistently. *)
Fixpoint run_ascending {A} (lt : A -> A -> bool) (prev : A) (l : list A)
    : list A * list A :=
  match l with
  | [] => ([], [])
  | y :: rest =>
      if lt y prev then ([], l)
      else let '(run, rest') := run_ascending lt y rest in
           (y :: run, rest')
  end.

Fixpoint run_descending {A} (lt : A -> A -> bool) (prev : A) (l : list A)
    : list A * list A :=
  match l with
  | [] => ([], [])
  | y :: rest =>
      if lt y prev
      then let '(run, rest') := run_descending lt y rest in
           (y :: run, rest')
      else ([], l)
  end.

(** [count_run]: the initial run, in ascending order, and the rest. *)
Definition count_run {A} (lt : A -> A -> bool) (l : list A)
    : list A * list A :=
  match l with
  | [] => ([], [])
  | x0 :: tl =>
      match tl with
      | [] => ([x0], [])
      | x1 :: _ =>
          if lt x1 x0
          then let '(run, rest) := run_descending lt x0 tl in
               (rev (x0 :: run), rest)
          else let '(run, rest) := run_ascending lt x0 tl in
               (x0 :: run, rest)
      end
  end.

(** The search of [binarysort]: between [l] and [r], the place behind
    the elements that [x] is not below. *)
Fixpoint bisect {A} (lt : A -> A -> bool) (x : A) (s : list A)
    (fuel l r : nat) : nat :=
  match fuel with
  | O => l
  | S fuel =>
      if (l <? r)%nat then
        let p := (l + (r - l) / 2)%nat in
        match s !! p with
        | Some y =>
            if lt x y then bisect lt x s fuel l p
            else bisect lt x s fuel (S p) r
        | None => l
        end
      else l
  end.

Definition binary_insert {A} (lt : A -> A -> bool) (x : A) (s : list A)
    : list A :=
  let k := bisect lt x s (length s) 0 (length s) in
  take k s ++ x :: drop k s.

Definition sort_by {A} (lt : A -> A -> bool) (l : list A) : list A :=
  let '(run, rest) := count_run lt l in
  fold_left (fun acc x => binary_insert lt x acc) rest run.

Definition sort_hits (q_norm : list N) (all_hits : list hit) : list hit :=
  sort_by (fun a b => key_lt (_rank_key a q_norm) (_rank_key b q_norm))
          all_hits.

Definition opt_str (s : option (list N)) : pyval :=
  match s with Some t => VStr t | None => VNone end.

Definition opt_scalar (x : option scalar) : pyval :=
  match x with
  | Some (SInt z) => VInt z
  | Some (SNum y) => VFloat y
  | Some (SStr s) => VStr s
  | None => VNone
  end.

Definition opt_dict (d : option (list (list N * list N))) : pyval :=
  match d with
  | Some l => VDict (List.map (fun kv => (fst kv, VStr (snd kv))) l)
  | None => VNone
  end.

(** [_normalize_hit_with_geom(hit, raw_name)] *)
Definition _normalize_hit_with_geom (h : hit) (raw_name : list N) : pyval :=
  let lat := _safe_float (h_lat h) in
  let lon := _safe_float (h_lon h) in
  let out :=
    [(ustr "lat", VFloat lat);
     (ustr "lon", VFloat lon);
     (ustr "display_name", VStr (default raw_name (h_display_name h)));
     (ustr "class", opt_str (h_class h));
     (ustr "type", opt_str (h_type h));
     (ustr "importance", opt_scalar (h_importance h));
     (ustr "osm_id",
      match h_osm_id h with Some i => VInt i | None => VNone end);
     (ustr "osm_type", opt_str (h_osm_type h));
     (ustr "raw", VStr raw_name);
     (ustr "address", opt_dict (h_address h));
     (ustr "namedetails", opt_dict (h_namedetails h));
     (ustr "admin_level",
      let al := _admin_level h in
      if (al =? 0)%Z then VNone else VInt al)] in
  match h_geojson h with
  | Some (VDict g) =>
      VDict (out ++ [(ustr "geometry", VDict g);
                     (ustr "geometry_source", VStr (ustr "polygon"))])
  | _ =>
      VDict (out ++ [(ustr "geometry",
                      VDict [(ustr "type", VStr (ustr "Point"));
                             (ustr "coordinates",
                              VList [VFloat lon; VFloat lat])]);
                     (ustr "geometry_source", VStr (ustr "centroid"))])
  end.

(** [_dump_debug(obj, out_dir)]: best effort, only the stage is kept. *)
Definition _dump_debug (stage : list N) : M unit := emit (EvDebug stage).

(** [nominatim_search(session, q, countrycodes, debug_label, out_dir)] *)
Definition nominatim_search (q : list N) (countrycodes : option (list N))
    (debug_label : list N) : M (list search_item) :=
  fun w =>
    let answer := service (w_trace w) q countrycodes in
    (let* _ := emit (EvSearch debug_label q countrycodes) in
     match answer with
     | NetworkError =>
         let* _ := _dump_debug (ustr "network_exception") in
         ret [HttpErrorMarker]
     | Response status body =>
         if negb (status =? 200)%Z then
           let* _ := _dump_debug (ustr "http_error") in
           ret [HttpErrorMarker]
         else
           match body with
           | BodyList arr => ret (List.map Item arr)
           | BodyJson =>
               let* _ := _dump_debug (ustr "not_list_json") in ret []
           | BodyText =>
               let* _ := _dump_debug (ustr "not_json") in ret []
           end
     end) w.

(** The variants tried for [name]: label, query, country codes. *)
Definition variants_of (name : list N)
  : list (list N * list N * option (list N)) :=
  let q_norm := Utils._norm (Some name) in
  [(ustr "it", name, Some NOMINATIM_COUNTRYCODES);
   (ustr "it_suffix", name ++ ustr ", Italia", Some (ustr "it"));
   (ustr "global", name, None)]
  ++ match Py.assoc q_norm EXONYMS_IT with
     | Some alias =>
         if truthy_str alias && negb (bool_decide (alias = name))
         then [(ustr "exonym", alias, None)] else []
     | None => []
     end.

(** The inner loop [for h in arr or []] that drops the results already
    seen under the same [(osm_type, osm_id)]. *)
Fixpoint collect_new (arr : list search_item)
    (acc : list hit * list (option (list N) * option Z))
  : list hit * list (option (list N) * option Z) :=
  match arr with
  | [] => acc
  | HttpErrorMarker :: rest => collect_new rest acc
  | Item h :: rest =>
      let '(all_hits, seen_keys) := acc in
      let key := (h_osm_type h, h_osm_id h) in
      if bool_decide (key ∈ seen_keys) then collect_new rest acc
      else collect_new rest (all_hits ++ [h], key :: seen_keys)
  end.

(** The loop over the variants of [geocode_name_robust]. *)
Definition gather_hits (name : list N) : M (list hit) :=
  let* acc :=
    for_each (variants_of name)
      (fun '(label, q, cc) acc =>
         let* arr := nominatim_search q cc label in
         let* _ := emit EvSleep in
         match arr with
         | HttpErrorMarker :: _ => ret acc
         | _ => ret (collect_new arr acc)
         end)
      ([], []) in
  ret (fst acc).

(** The choice among the collected results. *)
Definition select_best (name : list N) (all_hits : list hit)
  : M (option pyval * option (list N)) :=
  let q_norm := Utils._norm (Some name) in
  match all_hits with
  | [] => ret (None, Some (ustr "no_results"))
  | first :: _ =>
      let best := hd first (sort_hits q_norm all_hits) in
      if (9 <=? _rank_tier best)%Z then
        let* _ := _dump_debug (ustr "final_reject_all") in
        ret (None, Some (ustr "no_accepted_candidate"))
      else ret (Some (_normalize_hit_with_geom best name), None)
  end.

(** [geocode_name_robust(name, session, out_dir)] *)
Definition geocode_name_robust (name : list N)
  : M (option pyval * option (list N)) :=
  let* all_hits := gather_hits name in
  select_best name all_hits.

Definition write_cache (cache : gmap (list N) pyval) : M unit :=
  fun w => (tt, {| w_trace := w_trace w ++ [EvCacheWritten cache];
                   w_cache_file := Some cache;
                   w_filtered_csv := w_filtered_csv w;
                   w_base_csv := w_base_csv w |}).

(** What a stored entry answers, if it is one of the shapes the cache
    recognizes: the pair [(data, reason)], or the [KeyError] of an
    ["ok": true] entry without ["data"]. *)
Definition cached_outcome (entry : pyval) : option (result (pyval * pyval)) :=
  match entry with
  | VDict d =>
      match Py.assoc (ustr "ok") d with
      | Some (VBool true) =>
          match Py.assoc (ustr "data") d with
          | Some data => Some (Ok (data, VNone))
          | None => Some (Raise KeyError)
          end
      | Some (VBool false) =>
          Some (Ok (VNone,
                    default (VStr (ustr "cached_reject"))
                            (Py.assoc (ustr "reason") d)))
      | _ =>
          if bool_decide (is_Some (Py.assoc (ustr "class") d))
             || bool_decide (is_Some (Py.assoc (ustr "lat") d))
          then Some (Ok (entry, VNone))
          else None
      end
  | VNone => Some (Ok (VNone, VStr (ustr "cached_none")))
  | _ => None
  end.

(** [geocode_with_cache(name, cache, session, out_dir)] *)
Definition geocode_with_cache (name : list N) (cache : gmap (list N) pyval)
  : M (result (pyval * pyval * gmap (list N) pyval)) :=
  let norm_key := Utils._norm (Some name) in
  match cache !! norm_key ≫= cached_outcome with
  | Some (Ok (data, reason)) => ret (Ok (data, reason, cache))
  | Some (Raise e) => ret (Raise e)
  | None =>
      let* (data, reason) := geocode_name_robust name in
      let cache :=
        match data with
        | Some d =>
            <[norm_key := VDict [(ustr "ok", VBool true);
                                 (ustr "data", d)]]> cache
        | None =>
            let r := default [] reason in
            <[norm_key :=
                VDict [(ustr "ok", VBool false);
                       (ustr "reason",
                        VStr (if truthy_str r then r
                              else ustr "rejected"))]]> cache
        end in
      let* _ := write_cache cache in
      ret (Ok (default VNone data, opt_str reason, cache))
  end.

(** [{"raw": ..., "pages": set()}] *)
Record occurrence := {
  occ_raw : list N;
  occ_pages : gset (list N);
}.

(** [_collect_occurrences_by_term(csv_path)]: the dictionary [occ] in
    insertion order. *)
Definition _collect_occurrences_by_term (rows : list csv_row)
  : list (list N * occurrence) :=
  fold_left
    (fun occ r =>
       let pagina := PyStr.strip (csv_pagina r) in
       let luoghi := PyStr.strip (csv_luogo r) in
       if negb (truthy_str luoghi) then occ
       else
         fold_left
           (fun occ t =>
              let k := Utils._norm (Some t) in
              let d := default {| occ_raw := t; occ_pages := ∅ |}
                               (Py.assoc k occ) in
              Py.dict_set k
                {| occ_raw := if (length (occ_raw d) <=? length t)%nat
                              then occ_raw d else t;
                   occ_pages := occ_pages d ∪ {[pagina]} |}
                occ)
           (_split_semicolon luoghi) occ)
    rows [].

(** The sort key of [_sorted_pages_str]: [(0, int(x))] or [(1, x)]. *)
Definition label_le (x y : list N) : Prop :=
  match int_of_str x, int_of_str y with
  | Some a, Some b => (a <= b)%Z
  | Some _, None => True
  | None, Some _ => False
  | None, None => Py.str_leb x y = true
  end.

#[local] Instance label_le_dec : RelDecision label_le.
Proof.
  intros x y. unfold label_le.
  destruct (int_of_str x), (int_of_str y); apply _.
Defined.

Fixpoint join (sep : list N) (l : list (list N)) : list N :=
  match l with
  | [] => []
  | [x] => x
  | x :: rest => x ++ sep ++ join sep rest
  end.

(** [_sorted_pages_str(pages)] *)
Definition _sorted_pages_str (pages : gset (list N)) : list N :=
  join (ustr ",") (merge_sort label_le (elements pages)).

Definition get_field (data : pyval) (key : list N) : result pyval :=
  match data with
  | VDict d => Ok (default VNone (Py.assoc key d))
  | _ => Raise AttributeError
  end.

(** [make_feature_from_hit(data, props)] *)
Definition make_feature_from_hit (data : pyval) (props : pyval)
  : result pyval :=
  rbind (get_field data (ustr "geometry")) (fun geom =>
  rbind (match geom with
         | VDict _ => Ok geom
         | _ =>
             rbind (get_field data (ustr "lon")) (fun lon =>
             rbind (get_field data (ustr "lat")) (fun lat =>
             Ok (VDict [(ustr "type", VStr (ustr "Point"));
                        (ustr "coordinates", VList [lon; lat])])))
         end) (fun geom =>
  Ok (VDict [(ustr "type", VStr (ustr "Feature"));
             (ustr "geometry", geom);
             (ustr "properties", props)]))).

(** The properties of the feature of one term. *)
Definition feature_props (item : occurrence) (data : pyval) : result pyval :=
  rbind (get_field data (ustr "display_name")) (fun display_name =>
  rbind (get_field data (ustr "class")) (fun cls =>
  rbind (get_field data (ustr "type")) (fun typ =>
  rbind (get_field data (ustr "geometry_source")) (fun geometry_source =>
  rbind (get_field data (ustr "admin_level")) (fun admin_level =>
  Ok (VDict
        [(ustr "pagine", VStr (_sorted_pages_str (occ_pages item)));
         (ustr "mentions", VInt (Z.of_nat (size (occ_pages item))));
         (ustr "anno", VStr []);
         (ustr "id", VStr []);
         (ustr "luogo", VStr (occ_raw item));
         (ustr "display_name", display_name);
         (ustr "class", cls);
         (ustr "type", typ);
         (ustr "geometry_source", geometry_source);
         (ustr "admin_level", admin_level)])))))).

(** The state of the loop of [phase_geocode_grouped]. *)
Record batch := {
  b_cache : gmap (list N) pyval;
  b_features : list pyval;
  b_rejects : list (list N * pyval);
}.

(** [reason or "rejected"] for the reject row. *)
Definition reject_reason (reason : pyval) : pyval :=
  Py.por reason (VStr (ustr "rejected")).

(** The progress callback: [None] when the caller passes none. *)
Definition callback : Type := Z -> Z -> option (list N) -> M unit.

Definition notify (progress_cb : option callback) (done total : Z)
    (current : option (list N)) : M unit :=
  match progress_cb with
  | Some cb => cb done total current
  | None => ret tt
  end.

(** The body of [for i, item in enumerate(terms, start=1)]. *)
Definition batch_step (progress_cb : option callback) (total : Z)
    (i : Z) (item : occurrence) (st : batch) : M (result batch) :=
  let* _ := notify progress_cb (i - 1)%Z total (Some (occ_raw item)) in
  let? (data, reason, cache) := geocode_with_cache (occ_raw item)
                                                    (b_cache st) in
  match data with
  | VNone =>
      ret (Ok {| b_cache := cache;
                 b_features := b_features st;
                 b_rejects := b_rejects st
                              ++ [(occ_raw item, reject_reason reason)] |})
  | _ =>
      ret (rbind (feature_props item data) (fun props =>
           rbind (make_feature_from_hit data props) (fun feat =>
           Ok {| b_cache := cache;
                 b_features := b_features st ++ [feat];
                 b_rejects := b_rejects st |})))
  end.

Fixpoint batch_loop (progress_cb : option callback) (total : Z)
    (i : Z) (terms : list occurrence) (st : batch) : M (result batch) :=
  match terms with
  | [] => ret (Ok st)
  | item :: rest =>
      let? st := batch_step progress_cb total i item st in
      batch_loop progress_cb total (i + 1)%Z rest st
  end.

(** [choose_active_csv] followed by [open]: the filtered CSV when it
    exists, the original one otherwise. *)
Definition read_active_csv : M (result (list csv_row)) :=
  fun w =>
    match w_filtered_csv w with
    | Some rows => (Ok rows, w)
    | None =>
        match w_base_csv w with
        | Some rows => (Ok rows, w)
        | None => (Raise FileNotFoundError, w)
        end
    end.

Definition load_cache : M (gmap (list N) pyval) :=
  fun w => (default ∅ (w_cache_file w), w).

(** [phase_geocode_grouped(out_dir, progress_cb)] *)
Definition phase_geocode_grouped (progress_cb : option callback)
  : M (result unit) :=
  let? rows := read_active_csv in
  let occ := _collect_occurrences_by_term rows in
  let terms := List.map snd occ in
  let total := Z.of_nat (length terms) in
  let* cache := load_cache in
  let? st := batch_loop progress_cb total 1%Z terms
               {| b_cache := cache; b_features := [];
                  b_rejects := [] |} in
  let* _ := emit (EvGroupedWritten (b_features st)) in
  let* _ := match b_rejects st with
            | [] => ret tt
            | rows => emit (EvRejectsWritten rows)
            end in
  let* _ := notify progress_cb total total None in
  ret (Ok tt).

(** [_write_progress] of [server.py] *)
Definition _write_progress (done total : Z) (current : option (list N))
    (status : progress_status) : M unit :=
  emit (EvProgressWritten status done total current).

Definition exn_name (e : exn) : list N :=
  match e with
  | TypeError => ustr "TypeError"
  | AttributeError => ustr "AttributeError"
  | KeyError => ustr "KeyError"
  | FileNotFoundError => ustr "FileNotFoundError"
  end.

(** [_geocode_worker(job_dir)] of [server.py]; of the text
    ["error: {type(e).__name__}: {e}"] the message of the exception is
    left out. *)
Definition _geocode_worker : M unit :=
  let cb : callback :=
    fun done total current_term =>
      _write_progress done total current_term Running in
  let* _ := _write_progress 0 0 None Starting in
  let* r := phase_geocode_grouped (Some cb) in
  match r with
  | Ok _ => _write_progress 1 1 None Done
  | Raise e =>
      _write_progress 0 0 (Some (ustr "error: " ++ exn_name e)) Failed
  end.

(** *** What the properties speak about *)

(** The progress records written so far. *)
Definition progress_log (w : world)
  : list (progress_status * Z * Z * option (list N)) :=
  omap (fun e =>
          match e with
          | EvProgressWritten status done total current =>
              Some (status, done, total, current)
          | _ => None
          end)
       (w_trace w).

(** The callback that [_geocode_worker] passes. *)
Definition running_cb : callback :=
  fun done total current_term =>
    _write_progress done total current_term Running.

(** The notifications of the loop as the code issues them: before the
    step of the [i]-th term, with the number of terms done so far. *)
Fixpoint notifications_before (total i : Z) (terms : list occurrence)
  : list (progress_status * Z * Z * option (list N)) :=
  match terms with
  | [] => []
  | item :: rest =>
      (Running, (i - 1)%Z, total, Some (occ_raw item))
      :: notifications_before total (i + 1)%Z rest
  end.

(** A callback that writes the progress record [record done total
    current] when it is called and leaves the earlier events where
    they are. *)
Definition recording (cb : callback)
    (record : Z -> Z -> option (list N)
              -> progress_status * Z * Z * option (list N)) : Prop :=
  forall done total current w,
    progress_log (snd (cb done total current w))
    = progress_log w ++ [record done total current]
    /\ forall e, e ∈ w_trace w -> e ∈ w_trace (snd (cb done total current w)).

(** The notifications as the design document words them: after the
    step of the [i]-th term, which makes [i] terms done. *)
Fixpoint notifications_after (total i : Z) (terms : list occurrence)
  : list (progress_status * Z * Z * option (list N)) :=
  match terms with
  | [] => []
  | item :: rest =>
      (Running, i, total, Some (occ_raw item))
      :: notifications_after total (i + 1)%Z rest
  end.

(** The terms of the active CSV, in the order of the loop. *)
Definition terms_of (rows : list csv_row) : list occurrence :=
  List.map snd (_collect_occurrences_by_term rows).

(** A cache in which every entry that answers answers with [None] or
    with a dictionary. *)
Definition entry_ok (entry : pyval) : Prop :=
  match cached_outcome entry with
  | Some (Ok (VNone, _)) | Some (Ok (VDict _, _)) => True
  | Some _ => False
  | None => True
  end.

Definition cache_ok (cache : gmap (list N) pyval) : Prop :=
  forall k entry, cache !! k = Some entry -> entry_ok entry.


(** The outcome of the selection, read off the sorted list. *)
Definition outcome_of (name : list N) (sorted : list hit)
  : option pyval * option (list N) :=
  match sorted with
  | [] => (None, Some (ustr "no_results"))
  | best :: _ =>
      if (9 <=? _rank_tier best)%Z
      then (None, Some (ustr "no_accepted_candidate"))
      else (Some (_normalize_hit_with_geom best name), None)
  end.

(** The entry stored for an outcome of the resolver. *)
Definition stored_entry (outcome : option pyval * option (list N)) : pyval :=
  match fst outcome with
  | Some d => VDict [(ustr "ok", VBool true); (ustr "data", d)]
  | None =>
      let r := default [] (snd outcome) in
      VDict [(ustr "ok", VBool false);
             (ustr "reason",
              VStr (if truthy_str r then r else ustr "rejected"))]
  end.

(** A computation that writes no progress record. *)
Definition quiet {A} (m : M A) : Prop :=
  forall w, progress_log (snd (m w)) = progress_log w.

(** The order of the keys: [a] is not behind [b]. *)
Definition key_le (a b : Z * Z * pyfloat) : Prop := key_lt b a = false.

(** Keys that compare equal. *)
Definition key_eqv (a b : Z * Z * pyfloat) : Prop :=
  key_lt a b = false /\ key_lt b a = false.

(** The importance of the result converts to a number or an infinity,
    not to NaN. *)
Definition importance_not_nan (h : hit) : Prop :=
  PyFloat.is_nan (_safe_float (h_importance h)) = false.

(** The requests sent to the service and the pauses, in their order. *)
Definition requests_of (trace : list event) : list event :=
  List.filter
    (fun e => match e with
              | EvSearch _ _ _ | EvSleep => true
              | _ => false
              end)
    trace.

(** What a resolution of [name] sends: each variant, then a pause. *)
Definition requests_for (name : list N) : list event :=
  flat_map (fun '(label, q, cc) => [EvSearch label q cc; EvSleep])
           (variants_of name).

(** The key under which a result counts as already seen. *)
Definition seen_key (h : hit) : option (list N) * option Z :=
  (h_osm_type h, h_osm_id h).

(** The mentions of the active CSV, in reading order: each term of each
    row with the page label of the row. *)
Definition mentions (rows : list csv_row) : list (list N * list N) :=
  flat_map
    (fun r =>
       List.map (fun t => (t, PyStr.strip (csv_pagina r)))
                (_split_semicolon (PyStr.strip (csv_luogo r))))
    rows.

(** The files of the job directory. *)
Definition files_of (w : world)
  : option (gmap (list N) pyval) * option (list csv_row)
    * option (list csv_row) :=
  (w_cache_file w, w_filtered_csv w, w_base_csv w).

End WithRuntime.
End Geocode.

(** ** The Basic Latin block

    The tables restricted to the code points below 128, as the Unicode
    character database gives them; the other code points are treated as
    inert symbols.  This instance runs the model on Basic Latin strings. *)

Module BasicLatin.

Definition bl_isspace (c : N) : bool :=
  ((9 <=? c) && (c <=? 13)) || ((28 <=? c) && (c <=? 32)).

Definition is_upper (c : N) : bool := (65 <=? c) && (c <=? 90).
Definition is_lower (c : N) : bool := (97 <=? c) && (c <=? 122).

Definition bl_lower_full (c : N) : list N :=
  [if is_upper c then c + 32 else c].

Definition bl_cased (c : N) : bool := is_upper c || is_lower c.

(** ['], [.], [:], [^] and [`] *)
Definition bl_case_ignorable (c : N) : bool :=
  (c =? 39) || (c =? 46) || (c =? 58) || (c =? 94) || (c =? 96).

Definition unicode_data : UnicodeData := {|
  decomposition := fun c => [c];
  combining := fun _ => 0;
  isspace := bl_isspace;
  lower_full := bl_lower_full;
  cased := bl_cased;
  case_ignorable := bl_case_ignorable;
|}.

(** Decimal digits. *)
Fixpoint digits (acc : Z) (s : list N) : option Z :=
  match s with
  | [] => Some acc
  | c :: rest =>
      if (48 <=? c) && (c <=? 57)
      then digits (10 * acc + Z.of_N (c - 48))%Z rest
      else None
  end.

(** [int(s)] for an optionally signed, non-empty run of decimal digits
    surrounded by white space. *)
Definition bl_int_of_str (s : list N) : option Z :=
  match @PyStr.strip unicode_data s with
  | [] => None
  | 45 :: ds => if truthy_str ds then Z.opp <$> digits 0 ds else None
  | 43 :: ds => if truthy_str ds then digits 0 ds else None
  | ds => digits 0 ds
  end.

(** [float(s)] on the same strings and on the names of the values
    that are not numbers: [nan], [inf] and [infinity] in either case,
    with an optional sign. *)
Definition bl_special_float (s : list N) : option pyfloat :=
  let t := @PyStr.lower unicode_data (@PyStr.strip unicode_data s) in
  let '(negative, body) :=
    match t with
    | 45 :: r => (true, r)
    | 43 :: r => (false, r)
    | _ => (false, t)
    end in
  if bool_decide (body = ustr "nan") then Some NaN
  else if bool_decide (body = ustr "inf")
          || bool_decide (body = ustr "infinity")
  then Some (if negative then NegInf else PosInf)
  else None.

Definition bl_float_of_str (s : list N) : option pyfloat :=
  match bl_special_float s with
  | Some x => Some x
  | None => (fun z => Finite (inject_Z z)) <$> bl_int_of_str s
  end.

(** [float(n)]: the 53 leading bits of [n], rounded to the nearest
    even value. *)
Definition bl_float_of_int (z : Z) : option pyfloat :=
  let bits := (Z.log2 (Z.abs z) + 1)%Z in
  if (bits <=? 53)%Z then Some (Finite (inject_Z z))
  else
    let shift := (bits - 53)%Z in
    let q := Z.shiftr (Z.abs z) shift in
    let r := Z.land (Z.abs z) (Z.ones shift) in
    let half := Z.shiftl 1 (shift - 1) in
    let q' := if (half <? r)%Z || ((r =? half)%Z && Z.odd q)
              then (q + 1)%Z else q in
    let v := Z.shiftl q' shift in
    if (2 ^ 1024 <=? v)%Z then None
    else Some (Finite (inject_Z (Z.sgn z * v))).

Definition builtins : Builtins := {|
  int_of_str := bl_int_of_str;
  float_of_str := bl_float_of_str;
  float_of_int := bl_float_of_int;
|}.

End BasicLatin.

(** ** Scenarios on Basic Latin strings *)

Module Scenarios.
Import Server.
#[local] Existing Instance BasicLatin.unicode_data.
#[local] Existing Instance BasicLatin.builtins.

(** "Cerignola" appears on pages 52 and 53; it is excluded globally and
    forced back on page 53. *)
Definition cerignola_job : job_files := {|
  annale_toponimi_csv := Some [
    {| row_pagina := ustr "52"; row_anno := ustr "1937";
       row_id := ustr "1937/12"; row_luogo := ustr "Cerignola; Bari" |};
    {| row_pagina := ustr "53"; row_anno := ustr "1937";
       row_id := ustr "1937/13"; row_luogo := ustr "Cerignola" |} ];
  annale_toponimi_esclusi_csv := None;
  annale_user_state := {|
    exclude_global := [ustr "cerignola"];
    exclude_pages := [];
    include_pages := [ {| rec_norm := Some (ustr "cerignola");
                          rec_page := Some (PInt 53);
                          rec_raw := Some (ustr "Cerignola") |} ] |} |}.

(** "Bari" appears on pages 52 and 60 and is excluded on both; page 60
    is forced back. *)
Definition bari_job : job_files := {|
  annale_toponimi_csv := Some [
    {| row_pagina := ustr "52"; row_anno := ustr "1937";
       row_id := ustr "1937/12"; row_luogo := ustr "Cerignola; Bari" |};
    {| row_pagina := ustr "60"; row_anno := ustr "1937";
       row_id := ustr "1937/20"; row_luogo := ustr "Bari" |} ];
  annale_toponimi_esclusi_csv := None;
  annale_user_state := {|
    exclude_global := [];
    exclude_pages := [ {| rec_norm := Some (ustr "Bari");
                          rec_page := Some (PInt 52); rec_raw := None |};
                       {| rec_norm := Some (ustr "bari");
                          rec_page := Some (PInt 60); rec_raw := None |} ];
    include_pages := [ {| rec_norm := Some (ustr "bari");
                          rec_page := Some (PInt 60);
                          rec_raw := Some (ustr "Bari") |} ] |} |}.


(** Two results of the lookup service for "Paris" that differ in their
    identifier and display name only. *)
Definition paris_fr : hit := {|
  h_class := Some (ustr "place"); h_type := Some (ustr "city");
  h_importance := Some (SNum (Finite (9 # 10)));
  h_lat := Some (SStr (ustr "48")); h_lon := Some (SStr (ustr "2"));
  h_display_name := Some (ustr "Paris, France");
  h_osm_type := Some (ustr "relation"); h_osm_id := Some 7444%Z;
  h_namedetails := Some [(ustr "name", ustr "Paris")];
  h_address := None; h_extratags := None; h_admin_level := None;
  h_geojson := None |}.

Definition paris_tx : hit := {|
  h_class := Some (ustr "place"); h_type := Some (ustr "city");
  h_importance := Some (SNum (Finite (9 # 10)));
  h_lat := Some (SStr (ustr "33")); h_lon := Some (SStr (ustr "-95"));
  h_display_name := Some (ustr "Paris, Texas");
  h_osm_type := Some (ustr "relation"); h_osm_id := Some 115357%Z;
  h_namedetails := Some [(ustr "name", ustr "Paris")];
  h_address := None; h_extratags := None; h_admin_level := None;
  h_geojson := None |}.

(** A result that no tier accepts. *)
Definition nowhere : hit := {|
  h_class := Some (ustr "highway"); h_type := Some (ustr "residential");
  h_importance := None; h_lat := None; h_lon := None;
  h_display_name := Some (ustr "Via Parigi");
  h_osm_type := Some (ustr "way"); h_osm_id := Some 1%Z;
  h_namedetails := None; h_address := None; h_extratags := None;
  h_admin_level := None; h_geojson := None |}.

(** A service that knows "paris" only, under any restriction. *)
Definition paris_service (trace : list event) (q : list N)
    (countrycodes : option (list N)) : http_outcome :=
  if bool_decide (q = ustr "paris")
  then Response 200 (BodyList [nowhere; paris_fr])
  else Response 200 (BodyList []).

(** Results for "Bari" that differ in their identifier and their
    importance only. *)
Definition bari_with (id : Z) (importance : pyfloat) : hit := {|
  h_class := Some (ustr "place"); h_type := Some (ustr "city");
  h_importance := Some (SNum importance);
  h_lat := Some (SStr (ustr "41")); h_lon := Some (SStr (ustr "17"));
  h_display_name := Some (ustr "Bari, Puglia, Italia");
  h_osm_type := Some (ustr "relation"); h_osm_id := Some id;
  h_namedetails := Some [(ustr "name", ustr "Bari")];
  h_address := None; h_extratags := None; h_admin_level := None;
  h_geojson := None |}.

Definition bari_low : hit := bari_with 1 (Finite (3 # 10)).
Definition bari_nan : hit := bari_with 2 NaN.
Definition bari_high : hit := bari_with 3 (Finite (5 # 10)).

(** A service that answers "Bari" with the given results. *)
Definition bari_service (hits : list hit) (trace : list event)
    (q : list N) (countrycodes : option (list N)) : http_outcome :=
  if bool_decide (q = ustr "Bari")
  then Response 200 (BodyList hits)
  else Response 200 (BodyList []).


(** A job directory with the given active rows and nothing else. *)
Definition fresh_world (rows : list csv_row) : world :=
  {| w_trace := []; w_cache_file := None;
     w_filtered_csv := Some rows; w_base_csv := None |}.

Definition parigi_rows : list csv_row :=
  [ {| csv_pagina := ustr "52"; csv_luogo := ustr "Parigi" |} ].

Definition two_term_rows : list csv_row :=
  [ {| csv_pagina := ustr "52"; csv_luogo := ustr "Parigi; Atlantide" |};
    {| csv_pagina := ustr "53"; csv_luogo := ustr "Parigi" |} ].

End Scenarios.

(** ** Curation: the rest of [server.py] *)

Module Curation.
Section WithRuntime.
Context {U : UnicodeData} {B : Builtins}.
Import Server.

(** The loop of [_save_user_state] over [exclude_global]. *)
Fixpoint save_names (seen_eg : list (list N)) (names : list (list N))
  : list (list N) :=
  match names with
  | [] => []
  | n :: rest =>
      let nn := _norm (Some n) in
      if truthy_str nn && negb (bool_decide (nn ∈ seen_eg))
      then nn :: save_names (nn :: seen_eg) rest
      else save_names seen_eg rest
  end.

(** The loops of [_save_user_state] over [exclude_pages] and
    [include_pages]; [with_raw] tells whether the ["raw"] form is
    written ([rec.get("raw", "")]). *)
Fixpoint save_recs (with_raw : bool) (seen : list (list N * page))
    (recs : list page_rec) : list page_rec :=
  match recs with
  | [] => []
  | rec :: rest =>
      let nn := _norm (Some (default [] (rec_norm rec))) in
      match rec_page rec with
      | Some pp =>
          if truthy_str nn && negb (bool_decide ((nn, pp) ∈ seen))
          then {| rec_norm := Some nn; rec_page := Some pp;
                  rec_raw := if with_raw
                             then Some (default [] (rec_raw rec))
                             else None |}
               :: save_recs with_raw ((nn, pp) :: seen) rest
          else save_recs with_raw seen rest
      | None => save_recs with_raw seen rest
      end
  end.

(** [_save_user_state(job_dir, st)]: the state that is written. *)
Definition _save_user_state (st : user_state) : user_state :=
  {| exclude_global := save_names [] (exclude_global st);
     exclude_pages := save_recs false [] (exclude_pages st);
     include_pages := save_recs true [] (include_pages st) |}.

(** One element of [exclude_attestations] / [include_attestations]:
    [str(att.get("term", ""))] and [att.get("page")]. *)
Record attestation_req := {
  att_term : list N;
  att_req_page : option page;
}.

(** The body of a request to [/api/exclusions]. *)
Record request := {
  exclude_toponyms : list (list N);
  exclude_attestations : list attestation_req;
  include_toponyms : list (list N);
  include_attestations : list attestation_req;
}.

(** [_safe_int(page) if _safe_int(page) is not None else page] *)
Definition coerce_page (p : page) : page :=
  match p with
  | PInt n => PInt n
  | PStr s => match _safe_int s with Some i => PInt i | None => PStr s end
  end.

(** [_norm(rec.get("norm", "")) == nm and rec.get("page") == page] *)
Definition same_occurrence (nm : list N) (pg : page) (rec : page_rec) : bool :=
  bool_decide (_norm (Some (default [] (rec_norm rec))) = nm)
  && bool_decide (rec_page rec = Some pg).

(** 1. exclude a toponym everywhere *)
Definition exclude_toponym (st : user_state) (term : list N) : user_state :=
  let nm := _norm (Some term) in
  {| exclude_global :=
       if truthy_str nm && negb (bool_decide (nm ∈ exclude_global st))
       then exclude_global st ++ [nm] else exclude_global st;
     exclude_pages := exclude_pages st;
     include_pages :=
       List.filter
         (fun rec =>
            negb (bool_decide
                    (_norm (Some (default [] (rec_norm rec))) = nm)))
         (include_pages st) |}.

(** 2. exclude one occurrence *)
Definition exclude_attestation (st : user_state) (att : attestation_req)
  : user_state :=
  match att_req_page att with
  | None => st
  | Some page =>
      let page := coerce_page page in
      let nm := _norm (Some (att_term att)) in
      if negb (truthy_str nm) then st
      else
        {| exclude_global := exclude_global st;
           exclude_pages :=
             if existsb (same_occurrence nm page) (exclude_pages st)
             then exclude_pages st
             else exclude_pages st
                  ++ [{| rec_norm := Some nm; rec_page := Some page;
                         rec_raw := None |}];
           include_pages :=
             List.filter (fun rec => negb (same_occurrence nm page rec))
                         (include_pages st) |}
  end.

(** 3. include a toponym everywhere again *)
Definition include_toponym (st : user_state) (term : list N) : user_state :=
  let nm := _norm (Some term) in
  if negb (truthy_str nm) then st
  else
    {| exclude_global :=
         List.filter
           (fun x => negb (bool_decide (_norm (Some x) = nm)))
           (exclude_global st);
       exclude_pages :=
         List.filter
           (fun rec =>
              negb (bool_decide
                      (_norm (Some (default [] (rec_norm rec))) = nm)))
           (exclude_pages st);
       include_pages := include_pages st |}.

(** 4. force one occurrence in *)
Definition include_attestation (st : user_state) (att : attestation_req)
  : user_state :=
  match att_req_page att with
  | None => st
  | Some page =>
      let page := coerce_page page in
      let nm := _norm (Some (att_term att)) in
      if negb (truthy_str nm) then st
      else
        {| exclude_global := exclude_global st;
           exclude_pages :=
             List.filter (fun rec => negb (same_occurrence nm page rec))
                         (exclude_pages st);
           include_pages :=
             if existsb (same_occurrence nm page) (include_pages st)
             then include_pages st
             else include_pages st
                  ++ [{| rec_norm := Some nm; rec_page := Some page;
                         rec_raw := Some (att_term att) |}] |}
  end.

(** The four loops of [api_exclusions], in their order. *)
Definition apply_request (st : user_state) (req : request) : user_state :=
  let st := fold_left exclude_toponym (exclude_toponyms req) st in
  let st := fold_left exclude_attestation (exclude_attestations req) st in
  let st := fold_left include_toponym (include_toponyms req) st in
  fold_left include_attestation (include_attestations req) st.

(** [api_exclusions]: the job directory after the request, as the next
    [_compute_model] finds it. *)
Definition api_exclusions (job : job_files) (req : request) : job_files :=
  {| annale_toponimi_csv := annale_toponimi_csv job;
     annale_toponimi_esclusi_csv := annale_toponimi_esclusi_csv job;
     annale_user_state :=
       _save_user_state (apply_request (annale_user_state job) req) |}.

(** One row of [annale_toponimi_filtered.csv]; the terms are joined with
    [;] when the row is written. *)
Record out_row := {
  out_page : page;
  out_anno : list N;
  out_id : list N;
  out_terms : list (list N);
}.

(** [page_map]: the display forms that go on each page.  The lists are
    only read through [set(terms_here)]. *)
Definition page_map_of (final_included : gmap (list N) included_entry)
  : gmap page (gset (list N)) :=
  map_fold
    (fun norm info page_map =>
       fold_left
         (fun page_map p =>
            <[p := default ∅ (page_map !! p) ∪ {[inc_display info]}]>
              page_map)
         (inc_pages info) page_map)
    ∅ final_included.

(** The sort key [x.lower()]. *)
Definition lower_le (x y : list N) : Prop :=
  Py.str_leb (PyStr.lower x) (PyStr.lower y) = true.

#[local] Instance lower_le_dec : RelDecision lower_le.
Proof. intros x y. unfold lower_le. apply _. Defined.

(** [_write_filtered_csv(job_dir, final_included, page_meta)]: the rows
    below the header.  Among display forms with the same lower-case
    form Python leaves the order to the iteration of the set; the model
    takes the one of [elements]. *)
Definition _write_filtered_csv
    (final_included : gmap (list N) included_entry)
    (page_meta : gmap page page_meta_rec) : list out_row :=
  let page_map := page_map_of final_included in
  List.map
    (fun p =>
       let terms_here := default ∅ (page_map !! p) in
       let meta := default {| pm_anno := []; pm_id := [] |}
                           (page_meta !! p) in
       {| out_page := p;
          out_anno := pm_anno meta;
          out_id := pm_id meta;
          out_terms := merge_sort lower_le (elements terms_here) |})
    (sorted_pages (dom page_map)).

(** [_rebuild_filtered_csv(job_dir)] *)
Definition _rebuild_filtered_csv (job : job_files) : list out_row :=
  let m := _compute_model job in
  _write_filtered_csv (final_included m) (page_meta m).

(** *** What the properties speak about *)

(** The record that [_save_user_state] writes for [rec]. *)
Definition written (with_raw : bool) (rec : page_rec) (nn : list N)
    (pp : page) : page_rec :=
  {| rec_norm := Some nn; rec_page := Some pp;
     rec_raw := if with_raw then Some (default [] (rec_raw rec))
                else None |}.

(** The job with one more forced inclusion at the end of
    [include_pages]. *)
Definition force_occurrence (job : job_files) (rec : page_rec) : job_files :=
  {| annale_toponimi_csv := annale_toponimi_csv job;
     annale_toponimi_esclusi_csv := annale_toponimi_esclusi_csv job;
     annale_user_state :=
       {| exclude_global := exclude_global (annale_user_state job);
          exclude_pages := exclude_pages (annale_user_state job);
          include_pages :=
            include_pages (annale_user_state job) ++ [rec] |} |}.

(** A job without any decision of the curator. *)
Definition untouched_job (base : option (list base_row))
    (esclusi : option (list excl_row)) : job_files :=
  {| annale_toponimi_csv := base;
     annale_toponimi_esclusi_csv := esclusi;
     annale_user_state :=
       {| exclude_global := []; exclude_pages := [];
          include_pages := [] |} |}.

(** The pages on which the raw extraction has [k], and those on which
    the automatic filter rejected it. *)
Definition raw_pages (job : job_files) (k : list N) : gset page :=
  match (_read_base_csv (annale_toponimi_csv job)).1 !! k with
  | Some info => ti_pages info
  | None => ∅
  end.

Definition rejected_pages (job : job_files) (k : list N) : gset page :=
  match (_read_fallback_excluded (annale_toponimi_esclusi_csv job)).1 !! k with
  | Some info => ti_pages info
  | None => ∅
  end.

(** The mentions of the raw table, in reading order: each term of each
    row that has a page label, with the page of the row. *)
Definition base_mentions (rows : list base_row) : list (list N * page) :=
  flat_map
    (fun row =>
       let page_raw := PyStr.strip (row_pagina row) in
       if truthy_str page_raw
       then List.map (fun t => (t, page_key_of page_raw))
                     (split_terms (PyStr.strip (row_luogo row)))
       else [])
    rows.

(** The mentions of the table of rejected terms: the rows that have a
    page label and a term. *)
Definition rejected_mentions (rows : list excl_row)
  : list (list N * page) :=
  flat_map
    (fun row =>
       let page_raw := PyStr.strip (erow_pagina row) in
       let term := PyStr.strip (erow_termine row) in
       if truthy_str page_raw && truthy_str term
       then [(term, page_key_of page_raw)] else [])
    rows.

End WithRuntime.
End Curation.

(** ** The remaining helpers of [processor/utils.py] *)

Module Toolbox.
Section WithRuntime.
Context {U : UnicodeData} {B : Builtins}.

(** *** Page ranges *)

(** The class [[,\s]] of the pattern that separates the chunks. *)
Definition is_sep (c : N) : bool := (c =? 44) || isspace c.

(** [re.split(r"[,\s]+", s)]: the pieces between the maximal runs of
    separators, the empty ones at the ends included. *)
Fixpoint re_split_go (in_sep : bool) (cur : list N) (s : list N)
  : list (list N) :=
  match s with
  | [] => [rev cur]
  | c :: rest =>
      if is_sep c then
        if in_sep then re_split_go true cur rest
        else rev cur :: re_split_go true [] rest
      else re_split_go false (c :: cur) rest
  end.

Definition re_split_seps (s : list N) : list (list N) :=
  re_split_go false [] s.

(** [chunk.split("-", 1)] when ["-" in chunk]. *)
Fixpoint split_first (sep : N) (s : list N) : option (list N * list N) :=
  match s with
  | [] => None
  | c :: rest =>
      if c =? sep then Some ([], rest)
      else match split_first sep rest with
           | Some (a, b) => Some (c :: a, b)
           | None => None
           end
  end.

(** The range of one chunk, [None] when the chunk is skipped. *)
Definition parse_chunk (total_pages : Z) (chunk : list N) : option (Z * Z) :=
  match split_first 45 chunk with
  | Some (a, b) =>
      match int_of_str a with
      | None => None
      | Some a =>
          match int_of_str b with
          | None => None
          | Some b =>
              let a := Z.max 1 a in
              let b := Z.min total_pages b in
              let '(a, b) := if (b <? a)%Z then (b, a) else (a, b) in
              Some ((a - 1)%Z, (b - 1)%Z)
          end
      end
  | None =>
      match int_of_str chunk with
      | Some k =>
          let k := Z.max 1 (Z.min total_pages k) in
          Some ((k - 1)%Z, (k - 1)%Z)
      | None => None
      end
  end.

(** The first loop of [parse_include_ranges]: the list [out]. *)
Definition collect_ranges (ranges : list N) (total_pages : Z)
  : list (Z * Z) :=
  fold_left
    (fun out chunk =>
       if negb (truthy_str chunk) then out
       else match parse_chunk total_pages chunk with
            | Some r => out ++ [r]
            | None => out
            end)
    (re_split_seps (PyStr.strip ranges)) [].

(** The order of tuples of two integers. *)
Definition pair_le (x y : Z * Z) : Prop :=
  (x.1 < y.1 \/ (x.1 = y.1 /\ x.2 <= y.2))%Z.

#[local] Instance pair_le_dec : RelDecision pair_le.
Proof. intros x y. unfold pair_le. apply _. Defined.

(** The second loop: merging the ranges that touch. *)
Definition merge_ranges (out : list (Z * Z)) : list (Z * Z) :=
  fold_left
    (fun merged '(a, b) =>
       match last merged with
       | None => merged ++ [(a, b)]
       | Some (la, lb) =>
           if (lb + 1 <? a)%Z then merged ++ [(a, b)]
           else removelast merged ++ [(la, Z.max lb b)]
       end)
    out [].

(** [parse_include_ranges(ranges, total_pages)] *)
Definition parse_include_ranges (ranges : list N) (total_pages : Z)
  : option (list (Z * Z)) :=
  if negb (truthy_str ranges) then None
  else Some (merge_ranges
               (merge_sort pair_le (collect_ranges ranges total_pages))).

(** [index_in_includes(idx, includes)] *)
Definition index_in_includes (idx : Z) (includes : option (list (Z * Z)))
  : bool :=
  match includes with
  | None | Some [] => true
  | Some l => existsb (fun '(a, b) => (a <=? idx)%Z && (idx <=? b)%Z) l
  end.

(** *** Counting the toponyms *)

(** [{"name": k, "count": v}] *)
Record item := {
  name : list N;
  count : Z;
}.

(** The dictionary [counts] of [group_toponyms], in insertion order. *)
Definition count_terms (rows : list csv_row) : list (list N * Z) :=
  fold_left
    (fun counts r =>
       let luoghi := PyStr.strip (csv_luogo r) in
       if negb (truthy_str luoghi) then counts
       else
         fold_left
           (fun counts t =>
              Py.dict_set t (default 0 (Py.assoc t counts) + 1)%Z counts)
           (Geocode._split_semicolon luoghi) counts)
    rows [].

(** [s < t] on strings. *)
Definition str_ltb (s t : list N) : bool := negb (Py.str_leb t s).

(** The order of the keys [(-count, name.lower())]. *)
Definition item_lt (x y : item) : bool :=
  (- count x <? - count y)%Z
  || ((- count x =? - count y)%Z
      && str_ltb (PyStr.lower (name x)) (PyStr.lower (name y))).

(** [group_toponyms(csv_path)]: [None] stands for a missing file. *)
Definition group_toponyms (file : option (list csv_row)) : list item :=
  match file with
  | None => []
  | Some rows =>
      let items :=
        List.map (fun kv => {| name := fst kv; count := snd kv |})
                 (count_terms rows) in
      Geocode.sort_by item_lt items
  end.

(** *** What the properties speak about *)

(** The index [idx] lies in one of the ranges. *)
Definition covered (idx : Z) (l : list (Z * Z)) : Prop :=
  exists a b, (a, b) ∈ l /\ (a <= idx <= b)%Z.

(** Each range ends before the next one starts, with a gap. *)
Definition apart (x y : Z * Z) : Prop := (x.2 + 1 < y.1)%Z.

(** How often the table mentions [t]. *)
Definition times (rows : list csv_row) (t : list N) : nat :=
  length (List.filter (fun m => bool_decide (fst m = t))
                      (Geocode.mentions rows)).

End WithRuntime.
End Toolbox.

(** ** Saving the exclusions: [processor/exclusions.py] *)

Module ExclusionsStore.
Section WithRuntime.
Context {U : UnicodeData} {B : Builtins}.
Import Exclusions.

(** [{"name_norm": nm, "page": pg}] *)
Definition pair_dict (nm : list N) (pg : Z) : pyval :=
  VDict [(ustr "name_norm", VStr nm); (ustr "page", VInt pg)].

(** The loop of [_clean_pairs] of [save_user_exclusions], which also
    drops the pairs already seen. *)
Fixpoint clean_rows (seen : list (list N * Z)) (rows : list pyval)
  : list pyval :=
  match rows with
  | [] => []
  | row :: rest =>
      match row with
      | VDict r =>
          let nm := default VNone (Py.assoc (ustr "name_norm") r) in
          let pg := default VNone (Py.assoc (ustr "page") r) in
          match Py.to_int pg with
          | None => clean_rows seen rest
          | Some pg_int =>
              match nm with
              | VStr n =>
                  if truthy_str (PyStr.strip n) then
                    let key := (Utils._norm (Some n), pg_int) in
                    if bool_decide (key ∈ seen) then clean_rows seen rest
                    else pair_dict (Utils._norm (Some n)) pg_int
                         :: clean_rows (key :: seen) rest
                  else clean_rows seen rest
              | _ => clean_rows seen rest
              end
          end
      | _ => clean_rows seen rest
      end
  end.

(** [_clean_pairs(arr)] of [save_user_exclusions] *)
Definition _clean_pairs (arr : pyval) : result (list pyval) :=
  rbind (Py.iter (Py.por arr (VList []))) (fun rows =>
  Ok (clean_rows [] rows)).

(** [save_user_exclusions(out_dir, excluded_toponyms,
    excluded_attestations, forced_include_attestations)]: the value
    that is written; [VNone] stands for an argument left out. *)
Definition save_user_exclusions (file : json_file)
    (excluded_toponyms : list (list N))
    (excluded_attestations forced_include_attestations : pyval)
  : result pyval :=
  rbind (_load_raw_exclusions file) (fun prev =>
  let as_dicts :=
    List.map (fun a => pair_dict (name_norm a) (att_page a)) in
  let excluded_attestations :=
    match excluded_attestations with
    | VNone => VList (as_dicts (Exclusions.excluded_attestations prev))
    | _ => excluded_attestations
    end in
  let forced_include_attestations :=
    match forced_include_attestations with
    | VNone => VList (as_dicts (Exclusions.forced_include_attestations prev))
    | _ => forced_include_attestations
    end in
  let uniq_topo :=
    Utils.ordered_unique
      (List.filter (fun x => truthy_str (PyStr.strip x))
                   excluded_toponyms) in
  rbind (_clean_pairs excluded_attestations) (fun excl_att_clean =>
  rbind (_clean_pairs forced_include_attestations) (fun incl_att_clean =>
  Ok (VDict
        [(ustr "excluded_toponyms", VList (List.map VStr uniq_topo));
         (ustr "excluded_attestations", VList excl_att_clean);
         (ustr "forced_include_attestations", VList incl_att_clean)])))).

(** *** What the properties speak about *)

(** The pairs that the rows of a request ask for: those of the rows
    with a page number other than 0 and a name that is not blank,
    before and after normalization. *)
Definition wanted_pairs (rows : list pyval) : gset (list N * Z) :=
  list_to_set
    (omap
       (fun row =>
          match row with
          | VDict r =>
              match Py.to_int (default VNone (Py.assoc (ustr "page") r)),
                    default VNone (Py.assoc (ustr "name_norm") r) with
              | Some pg, VStr n =>
                  if truthy_str (PyStr.strip n)
                     && truthy_str (Utils._norm (Some n))
                     && negb (pg =? 0)%Z
                  then Some (Utils._norm (Some n), pg) else None
              | _, _ => None
              end
          | _ => None
          end)
       rows).

End WithRuntime.
End ExclusionsStore.

(** ** Scenarios of curation *)

Module CurationScenarios.
Import Server Curation Exclusions ExclusionsStore.
#[local] Existing Instance BasicLatin.unicode_data.
#[local] Existing Instance BasicLatin.builtins.

(** The curator forces "Cerignola" back in on page 52; the page comes
    as a string. *)
Definition cerignola_52 : attestation_req :=
  {| att_term := ustr "Cerignola";
     att_req_page := Some (PStr (ustr "52")) |}.

Definition force_cerignola_52 : request :=
  {| exclude_toponyms := []; exclude_attestations := [];
     include_toponyms := []; include_attestations := [cerignola_52] |}.

(** The curator takes "Cerignola" back in everywhere. *)
Definition reinclude_cerignola : request :=
  {| exclude_toponyms := []; exclude_attestations := [];
     include_toponyms := [ustr "Cerignola"]; include_attestations := [] |}.

(** The curator excludes "Bari" everywhere. *)
Definition exclude_bari : request :=
  {| exclude_toponyms := [ustr "Bari"]; exclude_attestations := [];
     include_toponyms := []; include_attestations := [] |}.

(** A forced inclusion of "Bari" on page 52. *)
Definition bari_52 : page_rec :=
  {| rec_norm := Some (ustr "Bari"); rec_page := Some (PInt 52);
     rec_raw := Some (ustr "Bari") |}.

(** The raw table and the table of the rejected terms of a job. *)
Definition annale_rows : list base_row :=
  [ {| row_pagina := ustr "52"; row_anno := ustr "1937";
       row_id := ustr "1937/12"; row_luogo := ustr "Cerignola; Bari" |};
    {| row_pagina := ustr "53"; row_anno := ustr "1937";
       row_id := ustr "1937/13"; row_luogo := ustr "Cerignola" |} ].

Definition rejected_rows : list excl_row :=
  [ {| erow_pagina := ustr "52"; erow_anno := ustr "1937";
       erow_id := ustr "1937/12"; erow_termine := ustr "Circolo";
       erow_stadio := ustr "pre_filter" |} ].

(** "Bari" is excluded everywhere, "Cerignola" on page 53, and
    "Circolo" is forced back in on page 52. *)
Definition exclusions_file : json_file :=
  Parsed
    (VDict
       [(ustr "excluded_toponyms", VList [VStr (ustr "Bari")]);
        (ustr "excluded_attestations",
         VList [pair_dict (ustr "cerignola") 53]);
        (ustr "forced_include_attestations",
         VList [pair_dict (ustr "circolo") 52])]).

End CurationScenarios.


(** Case analysis on the [decide] that occurs in the goal. *)
Tactic Notation "goal_decide" "as" ident(H) :=
  match goal with |- context [decide ?P] => destruct (decide P) as [H|H] end.
Tactic Notation "goal_decide" :=
  let H := fresh in goal_decide as H.

Module ServerFacts.
Section WithRuntime.
Context {U : UnicodeData} {B : Builtins}.
Import Server.

Lemma elem_of_sorted_pages (s : gset page) (p : page) :
  p ∈ sorted_pages s ↔ p ∈ s.
Proof.
  unfold sorted_pages. rewrite merge_sort_Permutation.
  apply elem_of_elements.
Qed.

Section PerTerm.
Variables (base_included auto_excl : gmap (list N) term_info).
Variables (exclude_global_set : gset (list N)).
Variables (ex_pages_set in_pages_set : gset (list N * page)).
Variable (in_pages_raw : list ((list N * page) * list N)).

Local Abbreviation step := (resolve_term base_included auto_excl exclude_global_set
                    ex_pages_set in_pages_set in_pages_raw).
Local Abbreviation inc_of := (pages_inc_of base_included exclude_global_set
                      ex_pages_set in_pages_set).
Local Abbreviation exc_of := (pages_exc_of base_included auto_excl in_pages_set).
Local Abbreviation disp_of := (display_of base_included auto_excl in_pages_raw).

(** Adding the pages of the pairs of [S] whose name is [norm]. *)
Lemma elem_of_add_pages (norm : list N) (X0 : gset page)
    (S : gset (list N * page)) (p : page) :
  p ∈ set_fold (fun '(nn, pp) acc =>
                  if decide (nn = norm) then acc ∪ {[pp]} else acc) X0 S
  ↔ p ∈ X0 ∨ (norm, p) ∈ S.
Proof.
  apply (set_fold_ind_L
           (fun r (S : gset (list N * page)) =>
              p ∈ r ↔ p ∈ X0 ∨ (norm, p) ∈ S)).
  - set_solver.
  - intros [nn pp] X r Hx IH. case_decide; subst; set_solver.
Qed.

Lemma elem_of_forced_pages (norm : list N) (p : page) :
  p ∈ forced_pages in_pages_set norm ↔ (norm, p) ∈ in_pages_set.
Proof. unfold forced_pages. rewrite elem_of_add_pages. set_solver. Qed.

(** Discarding the pages excluded for [norm] and not forced back. *)
Lemma elem_of_discard_pages (norm : list N) (X0 : gset page)
    (S : gset (list N * page)) (p : page) :
  p ∈ set_fold (fun '(nn, pp) acc =>
                  if decide (nn = norm) then
                    (if decide ((nn, pp) ∈ in_pages_set) then acc
                     else acc ∖ {[pp]})
                  else acc) X0 S
  ↔ p ∈ X0 ∧ ((norm, p) ∈ S → (norm, p) ∈ in_pages_set).
Proof.
  apply (set_fold_ind_L
           (fun r (S : gset (list N * page)) =>
              p ∈ r ↔ p ∈ X0 ∧ ((norm, p) ∈ S → (norm, p) ∈ in_pages_set))).
  - set_solver.
  - intros [nn pp] X r Hx IH.
    case_decide; [case_decide|]; subst.
    + rewrite IH. set_solver.
    + rewrite elem_of_difference, IH. set_solver.
    + rewrite IH. set_solver.
Qed.

Lemma elem_of_pages_inc_of (norm : list N) (p : page) :
  p ∈ inc_of norm ↔
  if decide (norm ∈ exclude_global_set) then (norm, p) ∈ in_pages_set
  else ((∃ info, base_included !! norm = Some info ∧ p ∈ ti_pages info)
        ∨ (norm, p) ∈ in_pages_set)
       ∧ ((norm, p) ∈ ex_pages_set → (norm, p) ∈ in_pages_set).
Proof.
  unfold pages_inc_of. case_decide.
  - apply elem_of_forced_pages.
  - rewrite elem_of_discard_pages, elem_of_add_pages.
    destruct (base_included !! norm) as [info|]; set_solver.
Qed.

Lemma elem_of_pages_exc_of (norm : list N) (X : gset page) (p : page) :
  p ∈ exc_of norm X ↔
  p ∉ X ∧
  ((∃ info, base_included !! norm = Some info ∧ p ∈ ti_pages info)
   ∨ (∃ info, auto_excl !! norm = Some info ∧ p ∈ ti_pages info
               ∧ (norm, p) ∉ in_pages_set)).
Proof.
  unfold pages_exc_of.
  set (E0 := match base_included !! norm with
             | Some info => set_fold _ ∅ (ti_pages info) | None => ∅ end).
  assert (H0 : p ∈ E0 ↔ p ∉ X ∧ ∃ info, base_included !! norm = Some info
                                         ∧ p ∈ ti_pages info).
  { subst E0. destruct (base_included !! norm) as [info|].
    - transitivity (p ∉ X ∧ p ∈ ti_pages info); [|naive_solver].
      apply (set_fold_ind_L
               (fun r (S : gset page) => p ∈ r ↔ p ∉ X ∧ p ∈ S)).
      + set_solver.
      + intros q S r Hq IH. case_decide; set_solver.
    - set_solver. }
  destruct (auto_excl !! norm) as [info|].
  - transitivity (p ∈ E0 ∨ (p ∉ X ∧ p ∈ ti_pages info
                             ∧ (norm, p) ∉ in_pages_set)).
    + apply (set_fold_ind_L
               (fun r (S : gset page) =>
                  p ∈ r ↔ p ∈ E0 ∨ (p ∉ X ∧ p ∈ S
                                     ∧ (norm, p) ∉ in_pages_set))).
      * set_solver.
      * intros q S r Hq IH. repeat case_decide; set_solver.
    + rewrite H0. naive_solver.
  - rewrite H0. naive_solver.
Qed.

(** The loop over [all_norms] binds exactly the names it has visited. *)
Lemma lookup_resolve_loop (all_norms : gset (list N)) (k : list N) :
  loop_inv base_included auto_excl exclude_global_set ex_pages_set
           in_pages_set in_pages_raw k
           (set_fold step (∅, ∅) all_norms) all_norms.
Proof.
  apply (set_fold_ind_L
           (loop_inv base_included auto_excl exclude_global_set
                     ex_pages_set in_pages_set in_pages_raw k));
    unfold loop_inv; cbv zeta.
  - simpl. rewrite !lookup_empty. split; goal_decide; set_solver.
  - intros x S [fi fe] Hx [IHi IHe]. simpl in IHi, IHe.
    unfold resolve_term. simpl. split.
    + destruct (decide (inc_of x = ∅)) as [He|Hne].
      * rewrite IHi. repeat goal_decide; try done.
        -- destruct (decide (x = k)) as [->|]; naive_solver set_solver.
        -- set_solver.
      * destruct (decide (x = k)) as [->|Hxk].
        -- rewrite lookup_insert_eq. goal_decide; [done|set_solver].
        -- rewrite lookup_insert_ne by done. rewrite IHi.
           repeat goal_decide; try done; set_solver.
    + destruct (bool_decide (x ∈ exclude_global_set)
                || negb (bool_decide (exc_of x (inc_of x) = ∅))) eqn:Hc.
      * destruct (decide (x = k)) as [->|Hxk].
        -- rewrite lookup_insert_eq. goal_decide as Hd; [done|].
           exfalso. apply Hd. split; [set_solver|].
           apply orb_true_iff in Hc as [Hc|Hc].
           ++ left. by apply bool_decide_eq_true in Hc.
           ++ right. apply negb_true_iff, bool_decide_eq_false in Hc. done.
        -- rewrite lookup_insert_ne by done. rewrite IHe.
           repeat goal_decide; try done; set_solver.
      * apply orb_false_iff in Hc as [Hc1 Hc2].
        apply bool_decide_eq_false in Hc1.
        apply negb_false_iff, bool_decide_eq_true in Hc2.
        rewrite IHe. repeat goal_decide; try done.
        -- destruct (decide (x = k)) as [->|]; naive_solver set_solver.
        -- set_solver.
Qed.
End PerTerm.

(** *** The model computed for a job *)

Section Job.
Variable job : job_files.

Local Abbreviation st := (annale_user_state job).
Local Abbreviation base := (_read_base_csv (annale_toponimi_csv job)).1.
Local Abbreviation auto := (_read_fallback_excluded
                              (annale_toponimi_esclusi_csv job)).1.
Local Abbreviation glob :=
  (list_to_set (exclude_global st) : gset (list N)).
Local Abbreviation ex_set := (pairs_set (exclude_pages st)).
Local Abbreviation in_set := (pairs_set (include_pages st)).
Local Abbreviation pinc := (pages_inc_of base glob ex_set in_set).
Local Abbreviation pexc := (pages_exc_of base auto in_set).

Local Abbreviation all_norms_of := (Server.all_norms_of job).

Lemma elem_of_included_pages (k : list N) (p : page) :
  p ∈ included_pages (_compute_model job) k ↔
  k ∈ all_norms_of ∧ p ∈ pinc k.
Proof.
  unfold included_pages, _compute_model, all_norms_of.
  destruct (_read_base_csv _) as [b mb].
  destruct (_read_fallback_excluded _) as [a ma]. simpl.
  pose proof (lookup_resolve_loop b a glob ex_set in_set
                (raw_dict (include_pages st))
                (dom b ∪ dom a ∪ set_map fst in_set ∪ glob
                 ∪ set_map fst ex_set) k) as [Hi _].
  destruct (set_fold _ _ _) as [fi fe]. simpl in Hi |- *. rewrite Hi.
  goal_decide as Hd.
  - simpl. rewrite elem_of_sorted_pages. naive_solver.
  - split; [by intros ?%elem_of_nil|].
    intros [Hk Hp]. exfalso. apply Hd. split; [done|set_solver].
Qed.

Lemma elem_of_excluded_pages (k : list N) (p : page) :
  p ∈ excluded_pages (_compute_model job) k ↔
  k ∈ all_norms_of ∧ p ∈ pexc k (pinc k).
Proof.
  unfold excluded_pages, _compute_model, all_norms_of.
  destruct (_read_base_csv _) as [b mb].
  destruct (_read_fallback_excluded _) as [a ma]. simpl.
  pose proof (lookup_resolve_loop b a glob ex_set in_set
                (raw_dict (include_pages st))
                (dom b ∪ dom a ∪ set_map fst in_set ∪ glob
                 ∪ set_map fst ex_set) k) as [_ He].
  destruct (set_fold _ _ _) as [fi fe]. simpl in He |- *. rewrite He.
  goal_decide as Hd.
  - simpl. rewrite elem_of_sorted_pages. naive_solver.
  - split; [by intros ?%elem_of_nil|].
    intros [Hk Hp]. exfalso. apply Hd. split; [done|]. right. set_solver.
Qed.

Lemma global_in_all_norms (k : list N) :
  k ∈ exclude_global st → k ∈ all_norms_of.
Proof. unfold all_norms_of. set_solver. Qed.

Lemma forced_in_all_norms (k : list N) (p : page) :
  (k, p) ∈ in_set → k ∈ all_norms_of.
Proof.
  intros H. unfold all_norms_of.
  assert (k ∈ (set_map fst in_set : gset (list N))).
  { apply elem_of_map. by exists (k, p). }
  set_solver.
Qed.
End Job.

(** C1. When a term key is globally excluded, the pages reported as
    included for it are exactly its forced inclusions: a forced
    inclusion wins over the global exclusion, and such a page is never
    reported among the excluded pages of the key. *)
Theorem forced_inclusion_beats_global_exclusion
    (job : job_files) (k : list N) :
  k ∈ exclude_global (annale_user_state job) ->
  let m := _compute_model job in
  let includePages := pairs_set (include_pages (annale_user_state job)) in
  (forall p, p ∈ included_pages m k <-> (k, p) ∈ includePages)
  /\ (forall p, (k, p) ∈ includePages ->
                p ∈ included_pages m k /\ p ∉ excluded_pages m k).
Proof.
  intros Hk m includePages.
  assert (Hin : forall p, p ∈ included_pages m k <-> (k, p) ∈ includePages).
  { intros p. subst m. rewrite elem_of_included_pages, elem_of_pages_inc_of.
    rewrite decide_True by set_solver.
    pose proof (global_in_all_norms job k Hk). naive_solver. }
  split; [exact Hin|].
  intros p Hp. split; [by apply Hin|].
  subst m. rewrite elem_of_excluded_pages, elem_of_pages_exc_of.
  intros (_ & Hnot & _). apply Hnot.
  apply elem_of_pages_inc_of. rewrite decide_True by set_solver. done.
Qed.

(** C2. A page excluded for a term key and not forced back is absent
    from the included pages of the key, whatever the raw extraction
    says; when the same occurrence is also forced, it stays included. *)
Theorem page_exclusion_unless_forced
    (job : job_files) (k : list N) (p : page) :
  (k, p) ∈ pairs_set (exclude_pages (annale_user_state job)) ->
  let m := _compute_model job in
  let includePages := pairs_set (include_pages (annale_user_state job)) in
  ((k, p) ∉ includePages -> p ∉ included_pages m k)
  /\ ((k, p) ∈ includePages -> p ∈ included_pages m k).
Proof.
  intros Hex m includePages. subst m. split.
  - intros Hnin. rewrite elem_of_included_pages, elem_of_pages_inc_of.
    intros [_ H]. case_decide; naive_solver.
  - intros Hin. rewrite elem_of_included_pages, elem_of_pages_inc_of.
    split; [by eapply forced_in_all_norms|].
    case_decide; naive_solver.
Qed.

(** C10. For every term key the reported page lists are disjoint: no
    page of [final_included[k]] is a page of [final_excluded[k]]. *)
Theorem included_excluded_disjoint (job : job_files) (k : list N) :
  Forall (fun p => p ∉ excluded_pages (_compute_model job) k)
         (included_pages (_compute_model job) k).
Proof.
  apply Forall_forall. intros p Hi He.
  apply elem_of_included_pages in Hi as [_ Hi].
  apply elem_of_excluded_pages in He as [_ He].
  apply elem_of_pages_exc_of in He as [He _]. done.
Qed.

End WithRuntime.
End ServerFacts.



(** * The normalizer *)

Module NormalizerFacts.
Section WithUnicode.
Context {U : UnicodeData}.
Import PyStr NormalForm.

Local Abbreviation starter := (fun ch : N => combining ch = 0).

(** ** Canonical ordering only moves combining marks *)

Lemma filter_starter_bubble (c : N) (out : list N) :
  filter starter (bubble c out) = filter starter (c :: out).
Proof.
  induction out as [|p rest IH]; simpl; [done|].
  destruct (0 <? combining c) eqn:Hc; simpl; [|reflexivity].
  destruct (combining c <? combining p) eqn:Hp; [|reflexivity].
  apply N.ltb_lt in Hc.
  rewrite (filter_cons _ p), IH, !(filter_cons _ c), (filter_cons _ p).
  destruct (decide (combining c = 0)); [lia|done].
Qed.

Lemma filter_starter_fold (s acc : list N) :
  filter starter (fold_left (fun out c => bubble c out) s acc)
  = filter starter (rev s ++ acc).
Proof.
  revert acc. induction s as [|c s IH]; intros acc; simpl; [done|].
  rewrite IH, <- app_assoc. simpl.
  by rewrite !filter_app, filter_starter_bubble.
Qed.

Lemma filter_rev {A} (P : A -> Prop) `{forall x, Decision (P x)} (l : list A) :
  filter P (rev l) = rev (filter P l).
Proof.
  induction l as [|x l IH]; simpl; [done|].
  rewrite filter_app, IH, filter_cons.
  destruct (decide (P x)); simpl.
  - rewrite filter_cons, decide_True by done. done.
  - rewrite filter_cons, decide_False by done. by rewrite app_nil_r.
Qed.

Lemma filter_starter_canonical_order (s : list N) :
  filter starter (canonical_order s) = filter starter s.
Proof.
  unfold canonical_order.
  rewrite filter_rev, filter_starter_fold, app_nil_r, filter_rev.
  apply rev_involutive.
Qed.

Lemma fold_bubble_starters (s acc : list N) :
  Forall starter s ->
  fold_left (fun out c => bubble c out) s acc = rev s ++ acc.
Proof.
  intros Hs. revert acc. induction Hs as [|c s Hc Hs IH]; intros acc; [done|].
  simpl. rewrite IH, <- app_assoc. f_equal.
  destruct acc as [|p rest]; simpl; [done|]. by rewrite Hc.
Qed.

Lemma canonical_order_starters (s : list N) :
  Forall starter s -> canonical_order s = s.
Proof.
  intros Hs. unfold canonical_order.
  rewrite fold_bubble_starters, app_nil_r by done. apply rev_involutive.
Qed.

Lemma flat_map_fixed (s : list N) :
  Forall (fun d => decomposition d = [d]) s ->
  flat_map decomposition s = s.
Proof. induction 1 as [|d s Hd _ IH]; simpl; [done|]. by rewrite Hd, IH. Qed.

Lemma filter_all {A} (P : A -> Prop) `{forall x, Decision (P x)} (l : list A) :
  Forall P l -> filter P l = l.
Proof.
  induction 1 as [|x l Hx _ IH]; [done|].
  by rewrite filter_cons, decide_True, IH.
Qed.

(** ** White space *)

Lemma spaced_ok_weaken (s : list N) :
  spaced_ok false s = true -> spaced_ok true s = true.
Proof. destruct s as [|c s]; simpl; [done|]. by destruct (isspace c). Qed.

Lemma spaced_ok_re_sub (b : bool) (s : list N) :
  spaced_ok (negb b) (re_sub_go b s) = true.
Proof.
  revert b. induction s as [|c s IH]; intros b; simpl; [done|].
  destruct (isspace c) eqn:Hc.
  - destruct b; simpl.
    + apply (IH true).
    + destruct (isspace SPACE); simpl; [apply (IH true)|].
      apply spaced_ok_weaken, (IH true).
  - simpl. rewrite Hc. apply (IH false).
Qed.

Lemma lstrip_head_nonspace (s : list N) :
  spaced_ok false s = true -> lstrip s = s.
Proof. destruct s as [|c s]; simpl; [done|]. by destruct (isspace c). Qed.

Lemma spaced_ok_lstrip (s : list N) :
  spaced_ok true s = true -> spaced_ok false (lstrip s) = true.
Proof.
  destruct s as [|c s]; simpl; [done|].
  destruct (isspace c) eqn:Hc; simpl.
  - intros [_ Hs]%andb_true_iff. by rewrite lstrip_head_nonspace.
  - by rewrite Hc.
Qed.

Lemma rstrip_nil_spaced (a : bool) (s : list N) :
  rstrip s = [] -> spaced_ok a s = true -> s = [] \/ exists c, s = [c].
Proof.
  destruct s as [|c s]; [by left|]. simpl.
  destruct (rstrip s) eqn:Hr; [|by destruct (isspace c)].
  destruct (isspace c) eqn:Hc; [|done]. intros _.
  intros [_ Hs]%andb_true_iff.
  destruct s as [|d s]; [right; by exists c|].
  simpl in Hr, Hs. exfalso.
  destruct (isspace d); [done|]. by destruct (rstrip s).
Qed.

Lemma tidy_rstrip (a : bool) (s : list N) :
  spaced_ok a s = true ->
  spaced_ok a (rstrip s) = true /\ ends_ok (rstrip s) = true.
Proof.
  revert a. induction s as [|c s IH]; intros a; simpl; [done|].
  destruct (isspace c) eqn:Hc.
  - intros [[Ha Hcs]%andb_true_iff Hs]%andb_true_iff.
    destruct (IH false Hs) as [IH1 IH2].
    destruct (rstrip s) as [|d r] eqn:Hr; [done|].
    simpl. rewrite Hc, Ha, Hcs. simpl. split; [exact IH1|exact IH2].
  - intros Hs. destruct (IH true Hs) as [IH1 IH2].
    destruct (rstrip s) as [|d r] eqn:Hr.
    + simpl. by rewrite Hc.
    + simpl. rewrite Hc. split; [exact IH1|exact IH2].
Qed.

Lemma tidy_strip_re_sub (s : list N) : tidy (strip (re_sub_spaces s)).
Proof.
  unfold tidy, strip, re_sub_spaces.
  apply tidy_rstrip, spaced_ok_lstrip, (spaced_ok_re_sub false).
Qed.

Lemma re_sub_spaced (a b : bool) (s : list N) :
  spaced_ok a s = true -> (a = true -> b = false) -> re_sub_go b s = s.
Proof.
  revert a b. induction s as [|c s IH]; intros a b; simpl; [done|].
  destruct (isspace c) eqn:Hc.
  - intros [[Ha Hcs]%andb_true_iff Hs]%andb_true_iff Hab.
    rewrite (Hab Ha). apply N.eqb_eq in Hcs. subst c.
    f_equal. by apply (IH false).
  - intros Hs _. f_equal. by apply (IH true).
Qed.

Lemma rstrip_ends_ok (s : list N) : ends_ok s = true -> rstrip s = s.
Proof.
  induction s as [|c s IH]; simpl; [done|].
  destruct s as [|d s].
  - simpl. by destruct (isspace c).
  - intros Hs. rewrite (IH Hs). done.
Qed.

Lemma strip_tidy (s : list N) : tidy s -> strip s = s.
Proof.
  intros [Hs He]. unfold strip.
  by rewrite lstrip_head_nonspace, rstrip_ends_ok.
Qed.

Lemma spaced_ok_app_nonspace (a : bool) (w s : list N) :
  w <> [] -> Forall (fun d => isspace d = false) w ->
  spaced_ok a (w ++ s) = spaced_ok true s.
Proof.
  intros Hne Hw. revert a. induction Hw as [|d w Hd Hw IH]; intros a; [done|].
  simpl. rewrite Hd. destruct w as [|e w]; [done|]. by apply IH.
Qed.

Lemma ends_ok_app_nonspace (w s : list N) :
  w <> [] -> Forall (fun d => isspace d = false) w ->
  ends_ok (w ++ s) = match s with [] => true | _ => ends_ok s end.
Proof.
  intros Hne Hw. induction Hw as [|d w Hd Hw IH]; [done|].
  destruct w as [|e w].
  - simpl. destruct s; [by rewrite Hd|done].
  - change (ends_ok ((d :: e :: w) ++ s)) with (ends_ok ((e :: w) ++ s)).
    by apply IH.
Qed.

(** ** Lower-casing *)

Context {L : UnicodeLaws U}.

(** The characters of a string before it is lower-cased. *)
Local Abbreviation decomposed :=
  (fun d : N => combining d = 0 /\ decomposition d = [d]).
Local Abbreviation pre_lower :=
  (fun d : N => d = SPACE \/ (decomposed d /\ isspace d = false)).
(** The characters of a normalized string. *)
Local Abbreviation final := (fun d : N => d = SPACE \/ settled d).

Lemma lower_ucs4_space (b rest : list N) : lower_ucs4 b SPACE rest = [SPACE].
Proof. unfold lower_ucs4. simpl. apply space_lower. Qed.

Lemma lower_ucs4_nonspace (b rest : list N) (c : N) :
  decomposed c -> isspace c = false ->
  lower_ucs4 b c rest <> [] /\ Forall settled (lower_ucs4 b c rest).
Proof.
  intros [Hc Hd] Hs. unfold lower_ucs4.
  destruct (c =? CAPITAL_SIGMA) eqn:Hsig.
  - split; [done|]. apply Forall_singleton. unfold handle_capital_sigma.
    match goal with |- context [if ?x then _ else _] => destruct x end;
      [apply final_sigma_settled | apply sigma_settled].
  - apply N.eqb_neq in Hsig.
    destruct (lower_closed c Hsig Hc Hd Hs) as [Hne Hall].
    split; [done|]. by apply Forall_forall.
Qed.

Lemma settled_nonspace (w : list N) :
  Forall settled w -> Forall (fun d => isspace d = false) w.
Proof.
  intros H. eapply Forall_impl; [exact H|]. by intros d (_ & _ & ? & _).
Qed.

Lemma lower_go_final (b u : list N) :
  Forall pre_lower u -> Forall final (lower_go b u).
Proof.
  intros Hu. revert b. induction Hu as [|c u Hc Hu IH]; intros b; [done|].
  simpl. apply Forall_app. split; [|apply IH].
  destruct Hc as [->|[Hd Hs]].
  - rewrite lower_ucs4_space. apply Forall_singleton. by left.
  - destruct (lower_ucs4_nonspace b u c Hd Hs) as [_ Hall].
    eapply Forall_impl; [exact Hall|]. by right.
Qed.

Lemma lower_go_nil (b u : list N) :
  Forall pre_lower u -> lower_go b u = [] -> u = [].
Proof.
  intros Hu. destruct Hu as [|c u Hc Hu]; [done|]. simpl.
  intros [H _]%app_eq_nil. exfalso.
  destruct Hc as [->|[Hd Hs]].
  - by rewrite lower_ucs4_space in H.
  - by destruct (lower_ucs4_nonspace b u c Hd Hs) as [Hne _].
Qed.

Lemma spaced_ok_lower_go (a : bool) (b u : list N) :
  Forall pre_lower u ->
  spaced_ok a u = true -> spaced_ok a (lower_go b u) = true.
Proof.
  intros Hu. revert a b.
  induction Hu as [|c u Hc Hu IH]; intros a b; [done|].
  destruct Hc as [->|[Hd Hs]].
  - simpl. rewrite lower_ucs4_space, space_isspace. simpl.
    rewrite space_isspace.
    intros [Ha Hr]%andb_true_iff. rewrite Ha. simpl. by apply IH.
  - simpl. rewrite Hs. intros Hr.
    destruct (lower_ucs4_nonspace b u c Hd Hs) as [Hne Hall].
    rewrite spaced_ok_app_nonspace by auto using settled_nonspace.
    by apply IH.
Qed.

Lemma ends_ok_lower_go (b u : list N) :
  Forall pre_lower u ->
  ends_ok u = true -> ends_ok (lower_go b u) = true.
Proof.
  intros Hu. revert b. induction Hu as [|c u Hc Hu IH]; intros b; [done|].
  intros He.
  destruct Hc as [->|[Hd Hs]].
  - simpl. rewrite lower_ucs4_space.
    destruct u as [|d u]; [simpl in He; by rewrite space_isspace in He|].
    simpl in He.
    change ([SPACE] ++ ?l) with (SPACE :: l).
    destruct (lower_go (SPACE :: b) (d :: u)) as [|e r] eqn:Hl.
    + by apply lower_go_nil in Hl.
    + change (ends_ok (e :: r) = true). rewrite <- Hl. by apply IH.
  - destruct (lower_ucs4_nonspace b u c Hd Hs) as [Hne Hall].
    simpl. rewrite ends_ok_app_nonspace by auto using settled_nonspace.
    destruct (lower_go (c :: b) u) as [|e r] eqn:Hl; [done|].
    rewrite <- Hl. apply IH.
    destruct u as [|d u]; [done|]. exact He.
Qed.

Lemma lower_go_fixed (b t : list N) : Forall final t -> lower_go b t = t.
Proof.
  intros Ht. revert b. induction Ht as [|d t Hd Ht IH]; intros b; [done|].
  simpl. rewrite IH. destruct Hd as [->|(_ & _ & _ & Hl & Hsig)].
  - by rewrite lower_ucs4_space.
  - unfold lower_ucs4. apply N.eqb_neq in Hsig. by rewrite Hsig, Hl.
Qed.

(** ** The pipeline before lower-casing *)

Lemma Forall_lstrip (P : N -> Prop) (s : list N) :
  Forall P s -> Forall P (lstrip s).
Proof.
  induction 1 as [|c s Hc Hs IH]; simpl; [done|].
  destruct (isspace c); [done|by constructor].
Qed.

Lemma Forall_rstrip (P : N -> Prop) (s : list N) :
  Forall P s -> Forall P (rstrip s).
Proof.
  induction 1 as [|c s Hc Hs IH]; simpl; [done|].
  destruct (rstrip s); [destruct (isspace c)|]; auto.
Qed.

Lemma Forall_re_sub (b : bool) (s : list N) :
  Forall decomposed s -> Forall pre_lower (re_sub_go b s).
Proof.
  intros Hs. revert b. induction Hs as [|c s Hc Hs IH]; intros b; [done|].
  simpl. destruct (isspace c) eqn:Hsp.
  - destruct b; [apply IH|]. constructor; [by left|apply IH].
  - constructor; [by right|apply IH].
Qed.

Lemma Forall_decomposed (s : list N) :
  Forall decomposed (filter starter (nfkd s)).
Proof.
  unfold nfkd. rewrite filter_starter_canonical_order.
  apply Forall_forall. intros d [Hd Hin]%list_elem_of_filter.
  split; [done|].
  apply list_elem_of_In, in_flat_map in Hin as (c & _ & Hin).
  apply list_elem_of_In in Hin. by eapply decomposition_full.
Qed.

(** A string of settled characters in tidy shape is left alone. *)
Lemma normalize_name_fixed (t : list N) :
  Forall final t -> tidy t -> Utils.normalize_name (Some t) = t.
Proof.
  intros Ht Htidy. unfold Utils.normalize_name. simpl.
  assert (Hdec : Forall (fun d => decomposition d = [d]) t).
  { eapply Forall_impl; [exact Ht|]. intros d [->|(_ & H & _)]; [|done].
    apply space_decomposition. }
  assert (Hst : Forall starter t).
  { eapply Forall_impl; [exact Ht|]. intros d [->|(H & _)]; [|done].
    apply space_starter. }
  unfold nfkd. rewrite flat_map_fixed by done.
  rewrite canonical_order_starters by done.
  rewrite filter_all by done.
  unfold re_sub_spaces.
  rewrite (re_sub_spaced false false) by (done || apply Htidy).
  rewrite strip_tidy by done.
  by apply lower_go_fixed.
Qed.

Lemma normalize_name_shape (s : option (list N)) :
  Forall final (Utils.normalize_name s) /\ tidy (Utils.normalize_name s).
Proof.
  unfold Utils.normalize_name.
  set (v := filter starter (nfkd (default [] s))).
  assert (Hu : Forall pre_lower (strip (re_sub_spaces v))).
  { apply Forall_rstrip, Forall_lstrip, Forall_re_sub, Forall_decomposed. }
  destruct (tidy_strip_re_sub v) as [H1 H2].
  split; [by apply lower_go_final|].
  split; [by apply spaced_ok_lower_go|by apply ends_ok_lower_go].
Qed.

(** C6. The normalizer is idempotent. *)
Theorem normalize_name_idempotent (s : option (list N)) :
  Utils.normalize_name (Some (Utils.normalize_name s))
  = Utils.normalize_name s.
Proof.
  destruct (normalize_name_shape s) as [Hf Ht].
  by apply normalize_name_fixed.
Qed.

End WithUnicode.

(** C7. The normalizer of [processor/utils.py], under both of its names,
    and the one of [server.py] compute the same key. *)
Theorem normalizers_agree {U : UnicodeData} (s : option (list N)) :
  Utils.normalize_name s = Server._norm s
  /\ Utils._norm s = Server._norm s.
Proof. split; reflexivity. Qed.

End NormalizerFacts.


(** * Loading the override state *)

Module OverrideStoreFacts.
Section WithRuntime.
Context {U : UnicodeData} {B : Builtins}.
Import Exclusions.

(** A missing file and a file that is not JSON are absorbed by both
    loaders: the caller gets the empty state. *)
Lemma load_absorbs_missing_and_unparseable :
  _load_raw_exclusions Missing = Ok no_exclusions
  /\ _load_raw_exclusions Unparseable = Ok no_exclusions
  /\ Server._load_user_state Missing
     = Ok {| Server.ls_exclude_global := VList [];
             Server.ls_exclude_pages := VList [];
             Server.ls_include_pages := VList [] |}
  /\ Server._load_user_state Unparseable
     = Ok {| Server.ls_exclude_global := VList [];
             Server.ls_exclude_pages := VList [];
             Server.ls_include_pages := VList [] |}.
Proof. repeat split; reflexivity. Qed.

(** The old format [{"excluded": [...]}] is read as the list of the
    globally excluded toponyms. *)
Lemma load_legacy_shape (names : list (list N)) :
  _load_raw_exclusions
    (Parsed (VDict [(ustr "excluded", VList (List.map VStr names))]))
  = Ok {| excluded_toponyms := names; excluded_attestations := [];
          forced_include_attestations := [] |}.
Proof.
  assert (H : forall l : list (list N),
            omap (fun x : pyval =>
                    match x with VStr t => Some t | _ => None end)
                 (List.map VStr l) = l).
  { induction l as [|n l IH]; [done|]. cbn. by rewrite IH. }
  destruct names as [|n names]; [reflexivity|].
  vm_compute. do 3 f_equal. exact (H names).
Qed.

(** C8. A persisted file that holds a JSON value other than an object,
    here the flat list [["Bari"]], makes both loaders raise: the error
    reaches the caller instead of an empty state. *)
Theorem load_raises_on_flat_list :
  _load_raw_exclusions (Parsed (VList [VStr (ustr "Bari")]))
  = Raise TypeError
  /\ Server._load_user_state (Parsed (VList [VStr (ustr "Bari")]))
     = Raise AttributeError.
Proof. split; reflexivity. Qed.

(** The same happens for an object whose field is not a collection. *)
Lemma load_raises_on_number_field :
  _load_raw_exclusions
    (Parsed (VDict [(ustr "excluded_toponyms", VInt 5)]))
  = Raise TypeError.
Proof. reflexivity. Qed.

End WithRuntime.
End OverrideStoreFacts.


(** * Ranking and selection *)

Module RankingFacts.

(** ** Sorting by runs and binary insertion *)
Section Sorting.
Context {A : Type} (lt : A -> A -> bool).

Import Geocode.

Lemma run_ascending_app (prev : A) (l : list A) :
  (run_ascending lt prev l).1 ++ (run_ascending lt prev l).2 = l.
Proof.
  revert prev. induction l as [|y l IH]; intros prev; simpl; [done|].
  destruct (lt y prev); [done|].
  specialize (IH y). destruct (run_ascending lt y l) as [run rest].
  simpl in *. by rewrite IH.
Qed.

Lemma run_descending_app (prev : A) (l : list A) :
  (run_descending lt prev l).1 ++ (run_descending lt prev l).2 = l.
Proof.
  revert prev. induction l as [|y l IH]; intros prev; simpl; [done|].
  destruct (lt y prev); [|done].
  specialize (IH y). destruct (run_descending lt y l) as [run rest].
  simpl in *. by rewrite IH.
Qed.

Lemma count_run_Permutation (l : list A) :
  (count_run lt l).1 ++ (count_run lt l).2 ≡ₚ l.
Proof.
  destruct l as [|x0 [|x1 tl]]; [done..|].
  unfold count_run. destruct (lt x1 x0).
  - pose proof (run_descending_app x0 (x1 :: tl)) as H.
    destruct (run_descending lt x0 (x1 :: tl)) as [run rest].
    cbn [fst snd] in *. rewrite <- H.
    by rewrite (Permutation_rev (x0 :: run)), rev_involutive.
  - pose proof (run_ascending_app x0 (x1 :: tl)) as H.
    destruct (run_ascending lt x0 (x1 :: tl)) as [run rest].
    cbn [fst snd] in *. by rewrite <- H.
Qed.

Lemma binary_insert_Permutation (x : A) (s : list A) :
  binary_insert lt x s ≡ₚ x :: s.
Proof.
  unfold binary_insert.
  rewrite <- Permutation_middle. by rewrite take_drop.
Qed.

Lemma sort_by_fold_Permutation (l acc : list A) :
  fold_left (fun acc x => binary_insert lt x acc) l acc ≡ₚ l ++ acc.
Proof.
  revert acc. induction l as [|x l IH]; intros acc; simpl; [done|].
  rewrite IH, binary_insert_Permutation. symmetry. apply Permutation_middle.
Qed.

Lemma sort_by_Permutation (l : list A) : sort_by lt l ≡ₚ l.
Proof.
  unfold sort_by. pose proof (count_run_Permutation l) as H.
  destruct (count_run lt l) as [run rest]. cbn [fst snd] in H.
  rewrite sort_by_fold_Permutation. rewrite <- H. apply Permutation_app_comm.
Qed.

(** The sort arranges the list by every order [le] that the comparison
    [lt] decides on the elements: [x] is not behind [y] when [lt x y],
    and [y] is not behind [x] otherwise. *)
Context (le : A -> A -> Prop) (P : A -> Prop).
Hypothesis le_trans :
  forall x y z, P x -> P y -> P z -> le x y -> le y z -> le x z.
Hypothesis lt_le : forall x y, P x -> P y -> lt x y = true -> le x y.
Hypothesis nlt_le : forall x y, P x -> P y -> lt x y = false -> le y x.

Lemma le_refl (x : A) : P x -> le x x.
Proof. intros Hx. destruct (lt x x) eqn:H; [by apply lt_le|by apply nlt_le]. Qed.

Lemma sorted_lookup (s : list A) (i j : nat) (y z : A) :
  StronglySorted le s -> Forall P s ->
  (i <= j)%nat -> s !! i = Some y -> s !! j = Some z -> le y z.
Proof.
  intros Hs HP Hij Hi Hj.
  destruct (decide (i = j)) as [->|Hne].
  - assert (y = z) as -> by congruence.
    apply le_refl. rewrite Forall_forall in HP. apply HP.
    by eapply list_elem_of_lookup_2.
  - revert i j Hij Hne Hi Hj.
    induction Hs as [|a s Hs IH Ha]; intros i j Hij Hne Hi Hj; [done|].
    apply Forall_cons in HP as [_ HP].
    destruct i as [|i], j as [|j]; simpl in *; try lia.
    + injection Hi as ->. rewrite Forall_forall in Ha. apply Ha.
      by eapply list_elem_of_lookup_2.
    + apply (IH HP i j); [lia|lia|done|done].
Qed.

Lemma bisect_step (x : A) (s : list A) (fuel l r : nat) :
  bisect lt x s (S fuel) l r
  = if (l <? r)%nat then
      match s !! (l + (r - l) / 2)%nat with
      | Some y =>
          if lt x y then bisect lt x s fuel l (l + (r - l) / 2)
          else bisect lt x s fuel (S (l + (r - l) / 2)) r
      | None => l
      end
    else l.
Proof. reflexivity. Qed.

Lemma bisect_spec (x : A) (s : list A) (fuel l r : nat) :
  StronglySorted le s -> Forall P s -> P x ->
  (l <= r <= length s)%nat -> (r - l <= fuel)%nat ->
  (forall i y, (i < l)%nat -> s !! i = Some y -> le y x) ->
  (forall i y, (r <= i)%nat -> s !! i = Some y -> le x y) ->
  let k := bisect lt x s fuel l r in
  (k <= length s)%nat
  /\ (forall i y, (i < k)%nat -> s !! i = Some y -> le y x)
  /\ (forall i y, (k <= i)%nat -> s !! i = Some y -> le x y).
Proof.
  intros Hs HP Hx. revert l r.
  induction fuel as [|fuel IH]; intros l r Hlr Hfuel Hlow Hhigh.
  - simpl. assert (l = r) as -> by lia. split; [lia|]. split; done.
  - rewrite bisect_step. destruct (Nat.ltb_spec l r) as [Hlt|Hge].
    2:{ assert (l = r) as -> by lia. split; [lia|]. split; done. }
    pose proof (Nat.div_lt_upper_bound (r - l) 2 (r - l)) as Hdiv.
    assert (Hp : (l <= l + (r - l) / 2 < r)%nat).
    { split; [lia|]. assert ((r - l) / 2 < r - l)%nat; [|lia].
      apply Nat.div_lt; lia. }
    set (p := (l + (r - l) / 2)%nat) in *.
    destruct (s !! p) as [y|] eqn:Hy.
    2:{ apply lookup_ge_None in Hy. lia. }
    assert (HPy : P y).
    { rewrite Forall_forall in HP. apply HP.
      by eapply list_elem_of_lookup_2. }
    destruct (lt x y) eqn:Hxy.
    + apply (IH l p); [lia|lia|done|].
      intros i z Hi Hz.
      assert (HPz : P z).
      { rewrite Forall_forall in HP. apply HP.
        by eapply list_elem_of_lookup_2. }
      apply (le_trans x y z); [done..|by apply lt_le|].
      by apply (sorted_lookup s p i).
    + apply (IH (S p) r); [lia|lia| |done].
      intros i z Hi Hz.
      assert (HPz : P z).
      { rewrite Forall_forall in HP. apply HP.
        by eapply list_elem_of_lookup_2. }
      apply (le_trans z y x); [done..| |by apply nlt_le].
      apply (sorted_lookup s i p); [done|done|lia|done|done].
Qed.

Lemma binary_insert_sorted (x : A) (s : list A) :
  StronglySorted le s -> Forall P s -> P x ->
  StronglySorted le (binary_insert lt x s).
Proof.
  intros Hs HP Hx. unfold binary_insert.
  destruct (bisect_spec x s (length s) 0 (length s) Hs HP Hx)
    as (Hk & Hlow & Hhigh); [lia|lia|intros; lia| |].
  { intros i y Hi Hy. apply lookup_lt_Some in Hy. lia. }
  set (k := bisect lt x s (length s) 0 (length s)) in *.
  assert (Hs' := Hs). rewrite <- (take_drop k s) in Hs'.
  apply StronglySorted_app_2.
  - intros y z Hy Hz.
    apply list_elem_of_lookup in Hy as [i Hi].
    pose proof (lookup_lt_Some _ _ _ Hi) as Hlen.
    rewrite length_take in Hlen.
    rewrite lookup_take_lt in Hi by lia.
    apply elem_of_cons in Hz as [->|Hz].
    + apply (Hlow i); [lia|done].
    + apply list_elem_of_lookup in Hz as [j Hj].
      rewrite lookup_drop in Hj.
      apply (sorted_lookup s i (k + j)); [done|done|lia|done|done].
  - by apply StronglySorted_app_1_l in Hs'.
  - constructor; [by apply StronglySorted_app_1_r in Hs'|].
    apply Forall_forall. intros y Hy.
    apply list_elem_of_lookup in Hy as [i Hi].
    rewrite lookup_drop in Hi. apply (Hhigh (k + i)%nat); [lia|done].
Qed.

Lemma sort_by_fold_sorted (l acc : list A) :
  StronglySorted le acc -> Forall P acc -> Forall P l ->
  StronglySorted le (fold_left (fun acc x => binary_insert lt x acc) l acc).
Proof.
  revert acc. induction l as [|x l IH]; intros acc Hacc HPacc HPl; simpl;
    [done|].
  apply Forall_cons in HPl as [Hx HPl].
  apply IH; [by apply binary_insert_sorted| |done].
  rewrite binary_insert_Permutation. by constructor.
Qed.

Lemma sorted_cons_trans (R : A -> A -> Prop) (prev y : A) (run : list A) :
  (forall a b c, P a -> P b -> P c -> R a b -> R b c -> R a c) ->
  P prev -> Forall P (y :: run) -> R prev y ->
  StronglySorted R (y :: run) -> StronglySorted R (prev :: y :: run).
Proof.
  intros Htrans Hprev HP Hpy Hs. constructor; [done|].
  constructor; [done|].
  apply StronglySorted_inv in Hs as [_ Hy].
  apply Forall_cons in HP as [HPy HP].
  rewrite Forall_forall in Hy, HP |- *. intros z Hz.
  apply (Htrans prev y z); auto.
Qed.

Lemma run_ascending_sorted (prev : A) (l : list A) :
  P prev -> Forall P l ->
  StronglySorted le (prev :: (run_ascending lt prev l).1).
Proof.
  revert prev. induction l as [|y l IH]; intros prev Hprev HP; simpl.
  { repeat constructor. }
  apply Forall_cons in HP as [Hy HP].
  destruct (lt y prev) eqn:Hlt; simpl; [repeat constructor|].
  specialize (IH y Hy HP).
  pose proof (run_ascending_app y l) as Happ.
  destruct (run_ascending lt y l) as [run rest]. cbn [fst snd] in *.
  apply (sorted_cons_trans le); [exact le_trans|done| |by apply nlt_le|done].
  constructor; [done|]. rewrite <- Happ in HP.
  by apply Forall_app in HP as [? _].
Qed.

Lemma run_descending_sorted (prev : A) (l : list A) :
  P prev -> Forall P l ->
  StronglySorted (flip le) (prev :: (run_descending lt prev l).1).
Proof.
  revert prev. induction l as [|y l IH]; intros prev Hprev HP; simpl.
  { repeat constructor. }
  apply Forall_cons in HP as [Hy HP].
  destruct (lt y prev) eqn:Hlt; simpl; [|repeat constructor].
  specialize (IH y Hy HP).
  pose proof (run_descending_app y l) as Happ.
  destruct (run_descending lt y l) as [run rest]. cbn [fst snd] in *.
  apply (sorted_cons_trans (flip le));
    [|done| |by apply lt_le|done].
  - intros a b c Ha Hb Hc Hab Hbc. by apply (le_trans c b a).
  - constructor; [done|]. rewrite <- Happ in HP.
    by apply Forall_app in HP as [? _].
Qed.

Lemma sorted_rev (l : list A) :
  StronglySorted (flip le) l -> StronglySorted le (rev l).
Proof.
  induction 1 as [|x l Hl IH Hx]; simpl; [constructor|].
  apply StronglySorted_app_2; [|done|repeat constructor].
  intros y z Hy ->%list_elem_of_singleton.
  rewrite Forall_forall in Hx. apply Hx.
  by rewrite list_elem_of_In, in_rev, <- list_elem_of_In.
Qed.

Lemma count_run_sorted (l : list A) :
  Forall P l -> StronglySorted le (count_run lt l).1.
Proof.
  intros HP. destruct l as [|x0 [|x1 tl]]; [repeat constructor..|].
  apply Forall_cons in HP as [H0 HP].
  unfold count_run. destruct (lt x1 x0).
  - pose proof (run_descending_sorted x0 (x1 :: tl) H0 HP) as H.
    destruct (run_descending lt x0 (x1 :: tl)) as [run rest].
    cbn [fst snd] in *. by apply sorted_rev.
  - pose proof (run_ascending_sorted x0 (x1 :: tl) H0 HP) as H.
    by destruct (run_ascending lt x0 (x1 :: tl)) as [run rest].
Qed.

Lemma sort_by_sorted (l : list A) :
  Forall P l -> StronglySorted le (sort_by lt l).
Proof.
  intros HP. unfold sort_by.
  pose proof (count_run_sorted l HP) as Hs.
  pose proof (count_run_Permutation l) as Hp.
  destruct (count_run lt l) as [run rest]. cbn [fst snd] in *.
  rewrite <- Hp in HP. apply Forall_app in HP as [??].
  by apply sort_by_fold_sorted.
Qed.

(** The head of the sorted list is a least element of the input. *)
Lemma sort_by_head_least (d : A) (l : list A) :
  Forall P l -> l <> [] ->
  hd d (sort_by lt l) ∈ l
  /\ forall y, y ∈ l -> le (hd d (sort_by lt l)) y.
Proof.
  intros HP Hne.
  pose proof (sort_by_Permutation l) as Hp.
  pose proof (sort_by_sorted l HP) as Hs.
  destruct (sort_by lt l) as [|b s] eqn:Hsort.
  - apply Permutation_nil_l in Hp. done.
  - simpl. split.
    + rewrite <- Hp. apply list_elem_of_here.
    + intros y Hy. rewrite <- Hp in Hy.
      apply StronglySorted_inv in Hs as [_ Hb].
      apply elem_of_cons in Hy as [->|Hy].
      * apply le_refl. rewrite Forall_forall in HP. apply HP.
        rewrite <- Hp. apply list_elem_of_here.
      * rewrite Forall_forall in Hb. by apply Hb.
Qed.

(** Two sorted arrangements of the same elements agree as soon as the
    order tells the elements apart. *)
Lemma sorted_unique (s1 s2 : list A) :
  (forall x y, x ∈ s1 -> y ∈ s1 -> le x y -> le y x -> x = y) ->
  StronglySorted le s1 -> StronglySorted le s2 -> s1 ≡ₚ s2 -> s1 = s2.
Proof.
  intros Hinj Hs1. revert s2 Hinj.
  induction Hs1 as [|a s1 Hs1 IH Ha]; intros s2 Hinj Hs2 Hp.
  - by apply Permutation_nil_l in Hp.
  - destruct Hs2 as [|b s2 Hs2 Hb].
    + by apply Permutation_nil_r in Hp.
    + assert (a = b) as <-.
      { assert (Hb1 : b ∈ a :: s1) by (rewrite Hp; apply list_elem_of_here).
        assert (Ha2 : a ∈ b :: s2) by (rewrite <- Hp; apply list_elem_of_here).
        apply elem_of_cons in Hb1 as [->|Hb1]; [done|].
        apply elem_of_cons in Ha2 as [->|Ha2]; [done|].
        rewrite Forall_forall in Ha, Hb.
        apply Hinj; [apply list_elem_of_here|by apply list_elem_of_further
                    |by apply Ha|by apply Hb]. }
      f_equal. apply IH; [|done|by eapply Permutation_cons_inv].
      intros x y Hx Hy. apply Hinj; by apply list_elem_of_further.
Qed.

Lemma sort_by_permutation_invariant (l1 l2 : list A) :
  Forall P l1 ->
  (forall x y, x ∈ l1 -> y ∈ l1 -> le x y -> le y x -> x = y) ->
  l1 ≡ₚ l2 -> sort_by lt l1 = sort_by lt l2.
Proof.
  intros HP Hinj Hp. apply sorted_unique.
  - intros x y Hx Hy. rewrite sort_by_Permutation in Hx, Hy. by apply Hinj.
  - by apply sort_by_sorted.
  - apply sort_by_sorted. by rewrite <- Hp.
  - by rewrite !sort_by_Permutation.
Qed.
End Sorting.

(** ** The order of the rank keys *)

Import Geocode.

Lemma Qltb_spec (p q : Q) : negb (Qle_bool q p) = true <-> (p < q)%Q.
Proof.
  rewrite negb_true_iff, <- not_true_iff_false, Qle_bool_iff. split.
  - apply Qnot_le_lt.
  - apply Qlt_not_le.
Qed.

Lemma float_ltb_asym (x y : pyfloat) :
  PyFloat.ltb x y = true -> PyFloat.ltb y x = false.
Proof.
  destruct x as [p| | |], y as [q| | |]; simpl; try done.
  rewrite Qltb_spec. intros H. apply not_true_iff_false.
  rewrite Qltb_spec. intros H'. apply (Qlt_irrefl p). by apply Qlt_trans with q.
Qed.

Lemma float_ltb_trans (x y z : pyfloat) :
  PyFloat.ltb x y = true -> PyFloat.ltb y z = true -> PyFloat.ltb x z = true.
Proof.
  destruct x as [p| | |], y as [q| | |], z as [r| | |]; simpl; try done.
  rewrite !Qltb_spec. apply Qlt_trans.
Qed.

(** Away from NaN, "not below" is transitive. *)
Lemma float_ltb_neg_trans (x y z : pyfloat) :
  PyFloat.is_nan y = false ->
  PyFloat.ltb x y = false -> PyFloat.ltb y z = false ->
  PyFloat.ltb x z = false.
Proof.
  destruct x as [p| | |], y as [q| | |], z as [r| | |]; simpl; try done.
  intros _. rewrite <- !not_true_iff_false, !Qltb_spec.
  intros H1 H2 H3. apply Qnot_lt_le in H1, H2.
  apply (Qlt_irrefl p). apply Qlt_le_trans with r; [done|].
  by apply Qle_trans with q.
Qed.

Lemma float_neg_is_nan (x : pyfloat) :
  PyFloat.is_nan (PyFloat.neg x) = PyFloat.is_nan x.
Proof. by destruct x. Qed.

Lemma key_lt_spec (t1 n1 t2 n2 : Z) (i1 i2 : pyfloat) :
  key_lt (t1, n1, i1) (t2, n2, i2) = true <->
  (t1 < t2)%Z
  \/ (t1 = t2 /\ ((n1 < n2)%Z \/ (n1 = n2 /\ PyFloat.ltb i1 i2 = true))).
Proof.
  unfold key_lt.
  rewrite !orb_true_iff, !andb_true_iff, !orb_true_iff, !andb_true_iff.
  rewrite !Z.ltb_lt, !Z.eqb_eq. tauto.
Qed.

Lemma key_lt_false (t1 n1 t2 n2 : Z) (i1 i2 : pyfloat) :
  key_lt (t1, n1, i1) (t2, n2, i2) = false <->
  (t2 < t1)%Z
  \/ (t1 = t2 /\ ((n2 < n1)%Z \/ (n1 = n2 /\ PyFloat.ltb i1 i2 = false))).
Proof.
  rewrite <- not_true_iff_false, key_lt_spec.
  pose proof (Z.lt_trichotomy t1 t2) as Ht.
  pose proof (Z.lt_trichotomy n1 n2) as Hn.
  destruct (PyFloat.ltb i1 i2);
    intuition (subst; try lia; try discriminate; auto).
Qed.

Lemma key_lt_asym (a b : Z * Z * pyfloat) :
  key_lt a b = true -> key_lt b a = false.
Proof.
  destruct a as [[t1 n1] i1], b as [[t2 n2] i2].
  intros H%key_lt_spec. apply not_true_iff_false. intros H'%key_lt_spec.
  destruct H as [H|[-> [H|[-> H]]]], H' as [H'|[? [H'|[? H']]]]; try lia.
  apply float_ltb_asym in H. congruence.
Qed.

Lemma key_lt_trans (a b c : Z * Z * pyfloat) :
  key_lt a b = true -> key_lt b c = true -> key_lt a c = true.
Proof.
  destruct a as [[t1 n1] i1], b as [[t2 n2] i2], c as [[t3 n3] i3].
  rewrite !key_lt_spec.
  intros [H|[-> [H|[-> H]]]] [H'|[? [H'|[? H']]]]; subst;
    try (left; lia); try (right; split; [done|left; lia]).
  right. split; [done|]. right. split; [done|].
  by apply float_ltb_trans with i2.
Qed.

(** Through a key without NaN, "not behind" is transitive. *)
Lemma key_le_trans (a b c : Z * Z * pyfloat) :
  PyFloat.is_nan b.2 = false -> key_le a b -> key_le b c -> key_le a c.
Proof.
  destruct a as [[t1 n1] i1], b as [[t2 n2] i2], c as [[t3 n3] i3].
  unfold key_le. cbn [snd]. intros Hnan. rewrite !key_lt_false.
  intros [H|[-> [H|[-> H]]]] [H'|[? [H'|[? H']]]]; subst;
    try (left; lia); try (right; split; [done|left; lia]).
  right. split; [done|]. right. split; [done|].
  by apply float_ltb_neg_trans with i2.
Qed.

(** Keys that compare equal have the same tier. *)
Lemma key_eqv_tier (a b : Z * Z * pyfloat) : key_eqv a b -> a.1.1 = b.1.1.
Proof.
  destruct a as [[t1 n1] i1], b as [[t2 n2] i2]. intros [H1 H2]. simpl.
  apply not_true_iff_false in H1, H2. rewrite key_lt_spec in H1, H2. lia.
Qed.

Section WithRuntime.
Context {U : UnicodeData} {B : Builtins}.

Local Abbreviation hit_lt q :=
  (fun a b : hit => key_lt (_rank_key a q) (_rank_key b q)).

Lemma hit_lt_asym q (x y : hit) : hit_lt q x y = true -> hit_lt q y x = false.
Proof. apply key_lt_asym. Qed.

Lemma hit_lt_trans q (x y z : hit) :
  hit_lt q x y = true -> hit_lt q y z = true -> hit_lt q x z = true.
Proof. apply key_lt_trans. Qed.

Local Abbreviation hit_le q :=
  (fun a b : hit => key_le (_rank_key a q) (_rank_key b q)).

Lemma hit_le_trans q (x y z : hit) :
  importance_not_nan x -> importance_not_nan y -> importance_not_nan z ->
  hit_le q x y -> hit_le q y z -> hit_le q x z.
Proof.
  intros _ Hy _. apply key_le_trans. unfold _rank_key. simpl.
  by rewrite float_neg_is_nan.
Qed.

Lemma hit_lt_le q (x y : hit) :
  importance_not_nan x -> importance_not_nan y ->
  hit_lt q x y = true -> hit_le q x y.
Proof. intros _ _. apply key_lt_asym. Qed.

Lemma hit_nlt_le q (x y : hit) :
  importance_not_nan x -> importance_not_nan y ->
  hit_lt q x y = false -> hit_le q y x.
Proof. by intros _ _. Qed.

Lemma sort_hits_Permutation q (l : list hit) : sort_hits q l ≡ₚ l.
Proof. apply sort_by_Permutation. Qed.


(** The first result of the sorted list is one of the least tier,
    whatever the importances are. *)
Lemma sort_hits_head_tier q (d : hit) (l : list hit) :
  l <> [] ->
  hd d (sort_hits q l) ∈ l
  /\ forall y, y ∈ l -> (_rank_tier (hd d (sort_hits q l)) <= _rank_tier y)%Z.
Proof.
  intros Hne.
  apply (sort_by_head_least (hit_lt q)
           (fun a b => (_rank_tier a <= _rank_tier b)%Z) (fun _ => True));
    [intros; lia| | |by apply Forall_true|done].
  - intros x y _ _ H. cbv beta zeta delta [_rank_key] in H.
    apply key_lt_spec in H. lia.
  - intros x y _ _ H. cbv beta zeta delta [_rank_key] in H.
    apply key_lt_false in H. lia.
Qed.

Lemma sort_hits_nil q (l : list hit) : sort_hits q l = [] <-> l = [].
Proof.
  split; [|by intros ->]. intros H.
  pose proof (sort_hits_Permutation q l) as Hp. rewrite H in Hp.
  by apply Permutation_nil_l in Hp.
Qed.

Lemma select_best_outcome (name : list N) (l : list hit) (w : world) :
  fst (select_best name l w)
  = outcome_of name (sort_hits (Utils._norm (Some name)) l).
Proof.
  unfold select_best, outcome_of.
  destruct l as [|h l]; [reflexivity|].
  destruct (sort_hits _ (h :: l)) as [|best s] eqn:Hs.
  - by apply sort_hits_nil in Hs.
  - simpl. by destruct (9 <=? _rank_tier best)%Z.
Qed.

Section Service.
Variable service : list event -> list N -> option (list N) -> http_outcome.

Lemma geocode_name_robust_outcome (name : list N) (w : world) :
  fst (geocode_name_robust service name w)
  = outcome_of name
      (sort_hits (Utils._norm (Some name))
                 (fst (gather_hits service name w))).
Proof.
  unfold geocode_name_robust, bind.
  destruct (gather_hits service name w) as [hits w1]. simpl.
  apply select_best_outcome.
Qed.




End Service.

(** C5, as amended. When no importance is NaN, presenting the same
    results in another order leaves the key of the selected result, and
    with it the kind of the outcome and the reason of a failure,
    unchanged; when moreover no two results share a key, the selected
    result itself is the same.  This holds of the ranking step and so
    of two runs of the resolver that collect the same results in
    different orders. *)
Theorem selection_under_permutation (name : list N) (l1 l2 : list hit)
    (w : world) :
  l1 ≡ₚ l2 ->
  Forall importance_not_nan l1 ->
  let q_norm := Utils._norm (Some name) in
  let r1 := fst (select_best name l1 w) in
  let r2 := fst (select_best name l2 w) in
  (forall d, l1 <> [] ->
     key_eqv (_rank_key (hd d (sort_hits q_norm l1)) q_norm)
             (_rank_key (hd d (sort_hits q_norm l2)) q_norm))
  /\ snd r1 = snd r2
  /\ (is_Some (fst r1) <-> is_Some (fst r2))
  /\ ((forall a b, a ∈ l1 -> b ∈ l1 ->
         key_eqv (_rank_key a q_norm) (_rank_key b q_norm) -> a = b) ->
      r1 = r2)
  /\ (forall service1 service2 w1 w2,
        fst (gather_hits service1 name w1) = l1 ->
        fst (gather_hits service2 name w2) = l2 ->
        let g1 := fst (geocode_name_robust service1 name w1) in
        let g2 := fst (geocode_name_robust service2 name w2) in
        snd g1 = snd g2
        /\ (is_Some (fst g1) <-> is_Some (fst g2))
        /\ ((forall a b, a ∈ l1 -> b ∈ l1 ->
               key_eqv (_rank_key a q_norm) (_rank_key b q_norm) ->
               a = b) ->
            g1 = g2)).
Proof.
  intros Hp Hnan1 q_norm r1 r2.
  assert (Hnan2 : Forall importance_not_nan l2) by (by rewrite <- Hp).
  assert (Hheads : forall d, l1 <> [] ->
            key_eqv (_rank_key (hd d (sort_hits q_norm l1)) q_norm)
                    (_rank_key (hd d (sort_hits q_norm l2)) q_norm)).
  { intros d Hne.
    assert (Hne2 : l2 <> []).
    { intros ->. by apply Permutation_nil_r in Hp. }
    destruct (sort_by_head_least (hit_lt q_norm) (hit_le q_norm)
                importance_not_nan (hit_le_trans q_norm)
                (hit_lt_le q_norm) (hit_nlt_le q_norm) d l1 Hnan1 Hne)
      as [Hin1 Hle1].
    destruct (sort_by_head_least (hit_lt q_norm) (hit_le q_norm)
                importance_not_nan (hit_le_trans q_norm)
                (hit_lt_le q_norm) (hit_nlt_le q_norm) d l2 Hnan2 Hne2)
      as [Hin2 Hle2].
    split.
    - apply Hle2. by rewrite <- Hp.
    - apply Hle1. by rewrite Hp. }
  assert (Hshape : snd r1 = snd r2 /\ (is_Some (fst r1) <-> is_Some (fst r2))).
  { subst r1 r2. rewrite !select_best_outcome. fold q_norm.
    destruct l1 as [|h1 l1].
    - apply Permutation_nil_l in Hp. by subst.
    - specialize (Hheads h1 ltac:(done)).
      apply key_eqv_tier in Hheads. simpl in Hheads.
      destruct (sort_hits q_norm (h1 :: l1)) as [|b1 s1] eqn:H1;
        [by apply sort_hits_nil in H1|].
      destruct (sort_hits q_norm l2) as [|b2 s2] eqn:H2.
      { apply sort_hits_nil in H2. subst.
        by apply Permutation_nil_r in Hp. }
      simpl in *. rewrite Hheads.
      destruct (9 <=? _rank_tier b2)%Z; simpl; split; done. }
  assert (Hsame :
    (forall a b, a ∈ l1 -> b ∈ l1 ->
       key_eqv (_rank_key a q_norm) (_rank_key b q_norm) -> a = b) ->
    r1 = r2).
  { intros Hinj. subst r1 r2. rewrite !select_best_outcome. fold q_norm.
    f_equal.
    apply (sort_by_permutation_invariant (hit_lt q_norm) (hit_le q_norm)
             importance_not_nan (hit_le_trans q_norm)
             (hit_lt_le q_norm) (hit_nlt_le q_norm)); [done| |done].
    intros x y Hx Hy H1 H2. apply Hinj; [done|done|]. by split. }
  split; [exact Hheads|]. split; [apply Hshape|]. split; [apply Hshape|].
  split; [exact Hsame|].
  intros service1 service2 w1 w2 E1 E2 g1 g2.
  assert (Hg1 : g1 = r1).
  { subst g1 r1. rewrite geocode_name_robust_outcome, E1.
    by rewrite select_best_outcome. }
  assert (Hg2 : g2 = r2).
  { subst g2 r2. rewrite geocode_name_robust_outcome, E2.
    by rewrite select_best_outcome. }
  rewrite Hg1, Hg2. split; [apply Hshape|]. split; [apply Hshape|done].
Qed.

End WithRuntime.

End RankingFacts.


(** * The cache and the batch driver *)

Module CacheFacts.
Section WithRuntime.
Context {U : UnicodeData} {B : Builtins}.
Variable service : list event -> list N -> option (list N) -> http_outcome.
Import Geocode.

(** The two shapes of entry that the cache writes. *)
Lemma cached_outcome_success (d : pyval) :
  cached_outcome (VDict [(ustr "ok", VBool true); (ustr "data", d)])
  = Some (Ok (d, VNone)).
Proof. reflexivity. Qed.

Lemma cached_outcome_reject (r : pyval) :
  cached_outcome (VDict [(ustr "ok", VBool false); (ustr "reason", r)])
  = Some (Ok (VNone, r)).
Proof. reflexivity. Qed.

(** The resolver answers with a candidate or with a non-empty reason. *)
Lemma resolver_outcome_shape (name : list N) (w : world) :
  (exists d, fst (geocode_name_robust service name w) = (Some d, None))
  \/ (exists r, fst (geocode_name_robust service name w) = (None, Some r)
               /\ truthy_str r = true).
Proof.
  rewrite RankingFacts.geocode_name_robust_outcome. unfold outcome_of.
  destruct (sort_hits _ _) as [|best s].
  - right. by eexists.
  - destruct (9 <=? _rank_tier best)%Z.
    + right. by eexists.
    + left. by eexists.
Qed.

Lemma geocode_with_cache_hit (name : list N) (cache : gmap (list N) pyval)
    (w : world) (entry data reason : pyval) :
  cache !! Utils._norm (Some name) = Some entry ->
  cached_outcome entry = Some (Ok (data, reason)) ->
  geocode_with_cache service name cache w = (Ok (data, reason, cache), w).
Proof.
  intros Hk He. unfold geocode_with_cache. rewrite Hk. simpl.
  by rewrite He.
Qed.

Lemma geocode_with_cache_miss (name : list N) (cache : gmap (list N) pyval)
    (w : world) :
  cache !! Utils._norm (Some name) ≫= cached_outcome = None ->
  let outcome := fst (geocode_name_robust service name w) in
  let w1 := snd (geocode_name_robust service name w) in
  let cache1 := <[Utils._norm (Some name) := stored_entry outcome]> cache in
  geocode_with_cache service name cache w
  = (Ok (default VNone (fst outcome), opt_str (snd outcome), cache1),
     snd (write_cache cache1 w1)).
Proof.
  intros Hk. unfold geocode_with_cache. rewrite Hk. cbv zeta.
  unfold bind at 1.
  destruct (geocode_name_robust service name w) as [[data reason] w1].
  simpl. unfold stored_entry. simpl.
  destruct data as [d|]; reflexivity.
Qed.

(** C3. A hit on a stored success or a stored rejection returns it and
    leaves the world untouched: no request is sent and nothing is
    written.  On a miss the resolver runs once, its outcome is stored
    under the normalized name and the cache is written before the
    function returns.  A second call for the same name then answers
    from the cache with the same outcome and without any effect. *)
Theorem cache_hit_and_single_resolution (name : list N)
    (cache : gmap (list N) pyval) (w : world) :
  let norm_key := Utils._norm (Some name) in
  (forall d, cache !! norm_key
             = Some (VDict [(ustr "ok", VBool true); (ustr "data", d)]) ->
     geocode_with_cache service name cache w = (Ok (d, VNone, cache), w))
  /\ (forall r, cache !! norm_key
               = Some (VDict [(ustr "ok", VBool false);
                              (ustr "reason", r)]) ->
     geocode_with_cache service name cache w = (Ok (VNone, r, cache), w))
  /\ (cache !! norm_key = None ->
      let outcome := fst (geocode_name_robust service name w) in
      let w1 := snd (geocode_name_robust service name w) in
      let cache1 := <[norm_key := stored_entry outcome]> cache in
      geocode_with_cache service name cache w
      = (Ok (default VNone (fst outcome), opt_str (snd outcome), cache1),
         {| w_trace := w_trace w1 ++ [EvCacheWritten cache1];
            w_cache_file := Some cache1;
            w_filtered_csv := w_filtered_csv w1;
            w_base_csv := w_base_csv w1 |}))
  /\ match geocode_with_cache service name cache w with
     | (Ok (data, reason, cache1), w1) =>
         geocode_with_cache service name cache1 w1
         = (Ok (data, reason, cache1), w1)
     | (Raise e, w1) =>
         w1 = w /\ geocode_with_cache service name cache w1 = (Raise e, w1)
     end.
Proof.
  intros norm_key. subst norm_key.
  set (norm_key := Utils._norm (Some name)). repeat split.
  - intros d Hd. by eapply geocode_with_cache_hit.
  - intros r Hr. by eapply geocode_with_cache_hit.
  - intros Hk. rewrite geocode_with_cache_miss; [done|].
    fold norm_key. by rewrite Hk.
  - destruct (cache !! norm_key ≫= cached_outcome) as [[[data reason]|e]|]
      eqn:Hc.
    + destruct (cache !! norm_key) as [entry|] eqn:Hk; [|done].
      simpl in Hc.
      rewrite (geocode_with_cache_hit name cache w entry data reason) by done.
      by apply geocode_with_cache_hit with entry.
    + unfold geocode_with_cache. fold norm_key. rewrite Hc. simpl.
      split; [done|]. unfold ret. done.
    + rewrite geocode_with_cache_miss by done. cbv zeta.
      set (outcome := fst (geocode_name_robust service name w)).
      assert (Hs : cached_outcome (stored_entry outcome)
                   = Some (Ok (default VNone (fst outcome),
                               opt_str (snd outcome)))).
      { destruct (resolver_outcome_shape name w) as [[d Hd]|(r & Hr & Ht)];
          fold outcome in Hd || fold outcome in Hr.
        - rewrite Hd. reflexivity.
        - rewrite Hr. unfold stored_entry. simpl. rewrite Ht. reflexivity. }
      eapply geocode_with_cache_hit; [|exact Hs].
      apply lookup_insert_eq.
Qed.

End WithRuntime.
End CacheFacts.


Module BatchFacts.
Section WithRuntime.
Context {U : UnicodeData} {B : Builtins}.
Variable service : list event -> list N -> option (list N) -> http_outcome.
Import Geocode.

(** ** Computations that write no progress record *)

Lemma quiet_ret {A} (a : A) : quiet (ret a).
Proof. by intros w. Qed.

Lemma quiet_bind {A C} (m : M A) (k : A -> M C) :
  quiet m -> (forall a, quiet (k a)) -> quiet (bind m k).
Proof.
  intros Hm Hk w. unfold bind. specialize (Hm w).
  destruct (m w) as [a w1]. simpl in Hm. by rewrite Hk.
Qed.

Lemma progress_log_emit (e : event) (w : world) :
  progress_log (snd (emit e w))
  = progress_log w
    ++ match e with
       | EvProgressWritten status done total current =>
           [(status, done, total, current)]
       | _ => []
       end.
Proof.
  unfold progress_log, emit. simpl. rewrite omap_app. simpl.
  by destruct e.
Qed.

Lemma quiet_emit (e : event) :
  match e with EvProgressWritten _ _ _ _ => False | _ => True end ->
  quiet (emit e).
Proof.
  intros He w. rewrite progress_log_emit.
  destruct e; try done; by rewrite app_nil_r.
Qed.

Lemma quiet_for_each {A S} (l : list A) (body : A -> S -> M S) (acc : S) :
  (forall x s, quiet (body x s)) -> quiet (for_each l body acc).
Proof.
  intros Hb. revert acc. induction l as [|x l IH]; intros acc; simpl.
  - apply quiet_ret.
  - apply quiet_bind; [apply Hb|]. intros s. apply IH.
Qed.

Lemma quiet_nominatim_search q cc label :
  quiet (nominatim_search service q cc label).
Proof.
  intros w. unfold nominatim_search.
  match goal with |- progress_log (snd (?m w)) = _ => cut (quiet m) end;
    [by intros H|].
  apply quiet_bind; [by apply quiet_emit|]. intros _.
  destruct (service _ _ _) as [|status body].
  - apply quiet_bind; [by apply quiet_emit|]. intros _. apply quiet_ret.
  - destruct (negb _).
    + apply quiet_bind; [by apply quiet_emit|]. intros _. apply quiet_ret.
    + destruct body; [apply quiet_ret| |];
        (apply quiet_bind; [by apply quiet_emit|]; intros _; apply quiet_ret).
Qed.

Lemma quiet_geocode_name_robust (name : list N) :
  quiet (geocode_name_robust service name).
Proof.
  unfold geocode_name_robust. apply quiet_bind.
  - unfold gather_hits. apply quiet_bind; [|intros; apply quiet_ret].
    apply quiet_for_each. intros [[label q] cc] acc.
    apply quiet_bind; [apply quiet_nominatim_search|]. intros arr.
    apply quiet_bind; [by apply quiet_emit|]. intros _.
    destruct arr as [|[|h] arr]; apply quiet_ret.
  - intros hits. unfold select_best.
    destruct hits as [|h hits]; [apply quiet_ret|].
    destruct (9 <=? _)%Z; [|apply quiet_ret].
    apply quiet_bind; [by apply quiet_emit|]. intros _. apply quiet_ret.
Qed.

Lemma quiet_write_cache cache : quiet (write_cache cache).
Proof.
  intros w. unfold write_cache, progress_log. simpl.
  rewrite omap_app. simpl. by rewrite app_nil_r.
Qed.

Lemma quiet_geocode_with_cache (name : list N) cache :
  quiet (geocode_with_cache service name cache).
Proof.
  unfold geocode_with_cache.
  destruct (cache !! _ ≫= cached_outcome) as [[[data reason]|e]|].
  - apply quiet_ret.
  - apply quiet_ret.
  - apply quiet_bind; [apply quiet_geocode_name_robust|].
    intros [data reason].
    apply quiet_bind; [apply quiet_write_cache|]. intros _. apply quiet_ret.
Qed.

(** ** The cache stays well formed *)

Lemma entry_ok_stored (outcome : option pyval * option (list N)) :
  (forall d, fst outcome = Some d -> exists l, d = VDict l) ->
  entry_ok (stored_entry outcome).
Proof.
  intros Hd. unfold entry_ok, stored_entry.
  destruct (fst outcome) as [d|] eqn:Ho.
  - destruct (Hd d eq_refl) as [l ->]. by vm_compute.
  - by vm_compute.
Qed.

Lemma resolver_data_is_dict (name : list N) (w : world) (d : pyval) :
  fst (fst (geocode_name_robust service name w)) = Some d ->
  exists l, d = VDict l.
Proof.
  rewrite RankingFacts.geocode_name_robust_outcome. unfold outcome_of.
  destruct (sort_hits _ _) as [|best s]; [done|].
  destruct (9 <=? _rank_tier best)%Z; [done|]. simpl.
  intros [= <-]. unfold _normalize_hit_with_geom.
  destruct (h_geojson best) as [[]|]; by eexists.
Qed.

(** A lookup in a well-formed cache returns [None] or a dictionary and
    hands back a well-formed cache. *)
Lemma geocode_with_cache_ok (name : list N) cache (w : world) :
  cache_ok cache ->
  exists data reason cache1,
    fst (geocode_with_cache service name cache w)
    = Ok (data, reason, cache1)
    /\ (data = VNone \/ exists l, data = VDict l)
    /\ cache_ok cache1.
Proof.
  intros Hok.
  destruct (cache !! Utils._norm (Some name) ≫= cached_outcome)
    as [[[data reason]|e]|] eqn:Hc.
  - destruct (cache !! Utils._norm (Some name)) as [entry|] eqn:Hk; [|done].
    simpl in Hc.
    rewrite (CacheFacts.geocode_with_cache_hit service name cache w
               entry data reason) by done.
    exists data, reason, cache. split; [done|]. split; [|done].
    specialize (Hok _ _ Hk). unfold entry_ok in Hok. rewrite Hc in Hok.
    destruct data; try done; [by left|right; by eexists].
  - destruct (cache !! Utils._norm (Some name)) as [entry|] eqn:Hk; [|done].
    simpl in Hc. specialize (Hok _ _ Hk). unfold entry_ok in Hok.
    by rewrite Hc in Hok.
  - rewrite CacheFacts.geocode_with_cache_miss by done. cbv zeta. simpl.
    do 3 eexists. split; [reflexivity|]. split.
    + destruct (fst (fst (geocode_name_robust service name w)))
        as [d|] eqn:Hd; simpl; [|by left].
      right. by eapply resolver_data_is_dict.
    + intros k entry. rewrite lookup_insert. case_decide.
      * intros [= <-]. apply entry_ok_stored.
        intros d. apply resolver_data_is_dict.
      * apply Hok.
Qed.

(** ** One step of the loop *)

Lemma feature_of_dict (item : occurrence) (l : list (list N * pyval)) :
  exists feat,
    rbind (feature_props item (VDict l))
          (fun props => make_feature_from_hit (VDict l) props) = Ok feat.
Proof.
  unfold feature_props, make_feature_from_hit, get_field. simpl.
  destruct (default VNone (Py.assoc (ustr "geometry") l));
    simpl; by eexists.
Qed.

(** The step notifies first and looks the term up afterwards. *)
Lemma batch_step_order (total i : Z) (item : occurrence) (st : batch)
    (w : world) :
  snd (batch_step service (Some running_cb) total i item st w)
  = snd (geocode_with_cache service (occ_raw item) (b_cache st)
           (snd (running_cb (i - 1)%Z total (Some (occ_raw item)) w))).
Proof.
  unfold batch_step, notify, bind, bind_ok.
  destruct (running_cb _ _ _ w) as [[] w0]. simpl.
  destruct (geocode_with_cache _ _ _ w0) as [[[[data reason] cache1]|e] w1];
    [|done].
  simpl. by destruct data.
Qed.

Lemma batch_step_ok (total i : Z) (item : occurrence) (st : batch)
    (w : world) :
  cache_ok (b_cache st) ->
  exists st',
    fst (batch_step service (Some running_cb) total i item st w) = Ok st'
    /\ progress_log
         (snd (batch_step service (Some running_cb) total i item st w))
       = progress_log w
         ++ [(Running, (i - 1)%Z, total, Some (occ_raw item))]
    /\ cache_ok (b_cache st')
    /\ (length (b_features st') + length (b_rejects st')
        = S (length (b_features st) + length (b_rejects st)))%nat.
Proof.
  intros Hok.
  assert (Hlog : progress_log
            (snd (batch_step service (Some running_cb) total i item st w))
          = progress_log w
            ++ [(Running, (i - 1)%Z, total, Some (occ_raw item))]).
  { rewrite batch_step_order, quiet_geocode_with_cache.
    unfold running_cb, _write_progress. by rewrite progress_log_emit. }
  revert Hlog. unfold batch_step, notify, bind, bind_ok.
  destruct (running_cb _ _ _ w) as [[] w0].
  destruct (geocode_with_cache_ok (occ_raw item) (b_cache st) w0 Hok)
    as (data & reason & cache1 & Hr & Hd & Hok1).
  destruct (geocode_with_cache _ _ _ w0) as [r w1]. simpl in Hr. subst r.
  destruct Hd as [->|[l ->]].
  - simpl. intros Hlog. eexists. split; [done|]. split; [done|].
    split; [done|]. simpl. rewrite length_app. simpl. lia.
  - destruct (feature_of_dict item l) as [feat Hf].
    pose proof Hf as Hf'. unfold rbind in Hf'.
    destruct (feature_props item (VDict l)) as [props|]; [|done].
    simpl. rewrite Hf'. simpl. intros Hlog.
    eexists. split; [done|]. split; [done|]. split; [done|].
    simpl. rewrite length_app. simpl. lia.
Qed.

Lemma batch_loop_ok (total : Z) (terms : list occurrence) (i : Z)
    (st : batch) (w : world) :
  cache_ok (b_cache st) ->
  exists st',
    fst (batch_loop service (Some running_cb) total i terms st w) = Ok st'
    /\ progress_log
         (snd (batch_loop service (Some running_cb) total i terms st w))
       = progress_log w ++ notifications_before total i terms
    /\ (length (b_features st') + length (b_rejects st')
        = length (b_features st) + length (b_rejects st) + length terms)%nat.
Proof.
  revert i st w. induction terms as [|item terms IH]; intros i st w Hok.
  - exists st. simpl. rewrite app_nil_r. split; [done|]. split; [done|]. lia.
  - destruct (batch_step_ok total i item st w Hok)
      as (st1 & Hr & Hlog & Hok1 & Hlen).
    simpl. unfold bind_ok.
    destruct (batch_step _ _ _ _ _ _ w) as [r w1]. simpl in Hr, Hlog.
    subst r.
    destruct (IH (i + 1)%Z st1 w1 Hok1) as (st' & Hr' & Hlog' & Hlen').
    exists st'. split; [done|]. split.
    + rewrite Hlog', Hlog, <- app_assoc. done.
    + lia.
Qed.

Lemma trace_emit (e : event) (w : world) :
  w_trace (snd (emit e w)) = w_trace w ++ [e].
Proof. done. Qed.

(** The run of the driver, once the rows are read and the loop is done. *)
Lemma phase_geocode_grouped_run (progress_cb : option callback)
    (rows : list csv_row) (w w1 : world) (st' : batch) :
  read_active_csv w = (Ok rows, w) ->
  batch_loop service progress_cb (Z.of_nat (length (terms_of rows))) 1
    (terms_of rows)
    {| b_cache := default ∅ (w_cache_file w);
       b_features := []; b_rejects := [] |} w = (Ok st', w1) ->
  phase_geocode_grouped service progress_cb w
  = (Ok tt,
     snd (notify progress_cb (Z.of_nat (length (terms_of rows)))
            (Z.of_nat (length (terms_of rows))) None
            (snd (match b_rejects st' with
                  | [] => ret tt
                  | rows => emit (EvRejectsWritten rows)
                  end
                    (snd (emit (EvGroupedWritten (b_features st')) w1)))))).
Proof.
  intros Hread Hloop.
  unfold phase_geocode_grouped, bind_ok at 1. rewrite Hread.
  unfold bind at 1, load_cache at 1. unfold bind_ok.
  unfold terms_of in Hloop. rewrite Hloop.
  unfold bind at 1.
  destruct (emit (EvGroupedWritten (b_features st')) w1) as [[] w2].
  unfold bind at 1. simpl.
  destruct (match b_rejects st' with
            | [] => ret ()
            | p :: l => emit (EvRejectsWritten (p :: l))
            end w2) as [[] w3].
  unfold bind. simpl.
  by destruct (notify progress_cb _ _ None w3) as [[] w4].
Qed.

(** A run on a well-formed cache ends normally; its notifications and
    its output. *)
Lemma phase_geocode_grouped_ok (rows : list csv_row) (w : world) :
  fst (read_active_csv w) = Ok rows ->
  cache_ok (default ∅ (w_cache_file w)) ->
  let terms := terms_of rows in
  let total := Z.of_nat (length terms) in
  let run := phase_geocode_grouped service (Some running_cb) w in
  fst run = Ok tt
  /\ progress_log (snd run)
     = progress_log w ++ notifications_before total 1 terms
       ++ [(Running, total, total, None)]
  /\ (exists features rejects,
        EvGroupedWritten features ∈ w_trace (snd run)
        /\ (rejects = [] \/ EvRejectsWritten rejects ∈ w_trace (snd run))
        /\ (length features + length rejects = length terms)%nat).
Proof.
  intros Hrows Hok terms total run.
  assert (Hread : read_active_csv w = (Ok rows, w)).
  { revert Hrows. unfold read_active_csv.
    destruct (w_filtered_csv w); [by intros [= ->]|].
    destruct (w_base_csv w); [by intros [= ->]|done]. }
  destruct (batch_loop_ok total terms 1
              {| b_cache := default ∅ (w_cache_file w);
                 b_features := []; b_rejects := [] |} w Hok)
    as (st' & Hr & Hlog & Hlen).
  destruct (batch_loop _ _ _ _ _ _ w) as [r w1] eqn:Hloop.
  simpl in Hr, Hlog, Hlen. subst r.
  subst run. rewrite (phase_geocode_grouped_run _ rows w w1 st' Hread Hloop).
  fold terms. fold total. unfold notify, running_cb, _write_progress.
  split; [done|]. split.
  - assert (Hq : quiet (match b_rejects st' with
                        | [] => ret tt
                        | rows => emit (EvRejectsWritten rows)
                        end)).
    { destruct (b_rejects st'); [apply quiet_ret|by apply quiet_emit]. }
    cbn [snd].
    rewrite progress_log_emit, Hq, (quiet_emit (EvGroupedWritten _)) by done.
    by rewrite Hlog, <- app_assoc.
  - exists (b_features st'), (b_rejects st'). split; [|split; [|exact Hlen]].
    + cbn [snd]. rewrite trace_emit.
      destruct (b_rejects st'); unfold ret; simpl; set_solver.
    + destruct (b_rejects st') as [|row rs]; [by left|right].
      cbn [snd]. rewrite !trace_emit. set_solver.
Qed.

(** ** Any callback that records its calls *)

Section Callback.
Variable cb : callback.
Variable record : Z -> Z -> option (list N)
                  -> progress_status * Z * Z * option (list N).
Hypothesis cb_recording : recording cb record.

Local Abbreviation records_of l :=
  (List.map (fun n : progress_status * Z * Z * option (list N) =>
               record n.1.1.2 n.1.2 n.2) l).

(** The step calls the callback first and looks the term up
    afterwards. *)
Lemma batch_step_calls_first (total i : Z) (item : occurrence)
    (st : batch) (w : world) :
  snd (batch_step service (Some cb) total i item st w)
  = snd (geocode_with_cache service (occ_raw item) (b_cache st)
           (snd (cb (i - 1)%Z total (Some (occ_raw item)) w))).
Proof.
  unfold batch_step, notify, bind, bind_ok.
  destruct (cb _ _ _ w) as [[] w0]. simpl.
  destruct (geocode_with_cache _ _ _ w0) as [[[[data reason] cache1]|e] w1];
    [|done].
  simpl. by destruct data.
Qed.

(** What one step does to the state of the loop: a term without
    data adds its reject row, any other term adds a feature, and the
    loop goes on. *)
Lemma batch_step_outcome (total i : Z) (item : occurrence) (st : batch)
    (w : world) :
  cache_ok (b_cache st) ->
  exists data reason st',
    fst (geocode_with_cache service (occ_raw item) (b_cache st)
           (snd (cb (i - 1)%Z total (Some (occ_raw item)) w)))
    = Ok (data, reason, b_cache st')
    /\ fst (batch_step service (Some cb) total i item st w) = Ok st'
    /\ cache_ok (b_cache st')
    /\ (data = VNone ->
        b_rejects st'
        = b_rejects st ++ [(occ_raw item, reject_reason reason)]
        /\ b_features st' = b_features st)
    /\ (data <> VNone ->
        b_rejects st' = b_rejects st
        /\ exists feat, b_features st' = b_features st ++ [feat]).
Proof.
  intros Hok. unfold batch_step, notify, bind, bind_ok.
  destruct (cb _ _ _ w) as [[] w0]. cbn [snd].
  destruct (geocode_with_cache_ok (occ_raw item) (b_cache st) w0 Hok)
    as (data & reason & cache1 & Hr & Hd & Hok1).
  destruct (geocode_with_cache _ _ _ w0) as [r w1]. simpl in Hr. subst r.
  exists data, reason.
  destruct Hd as [->|[l ->]].
  - exists {| b_cache := cache1; b_features := b_features st;
              b_rejects := b_rejects st
                           ++ [(occ_raw item, reject_reason reason)] |}.
    simpl. split; [done|]. split; [done|]. split; [done|].
    split; [done|]. by intros [].
  - destruct (feature_of_dict item l) as [feat Hf].
    pose proof Hf as Hf'. unfold rbind in Hf'.
    destruct (feature_props item (VDict l)) as [props|]; [|done].
    exists {| b_cache := cache1; b_features := b_features st ++ [feat];
              b_rejects := b_rejects st |}.
    simpl. rewrite Hf'. simpl.
    split; [done|]. split; [done|]. split; [done|].
    split; [done|]. intros _. split; [done|]. by exists feat.
Qed.

Lemma batch_step_records (total i : Z) (item : occurrence) (st : batch)
    (w : world) :
  progress_log (snd (batch_step service (Some cb) total i item st w))
  = progress_log w ++ [record (i - 1)%Z total (Some (occ_raw item))].
Proof.
  rewrite batch_step_calls_first, quiet_geocode_with_cache.
  apply cb_recording.
Qed.

Lemma batch_loop_outcome (total : Z) (terms : list occurrence) (i : Z)
    (st : batch) (w : world) :
  cache_ok (b_cache st) ->
  exists st' features rejects,
    fst (batch_loop service (Some cb) total i terms st w) = Ok st'
    /\ progress_log
         (snd (batch_loop service (Some cb) total i terms st w))
       = progress_log w
         ++ records_of (notifications_before total i terms)
    /\ b_features st' = b_features st ++ features
    /\ b_rejects st' = b_rejects st ++ rejects
    /\ (length features + length rejects = length terms)%nat
    /\ Forall (fun row => row.1 ∈ List.map occ_raw terms) rejects.
Proof.
  revert i st w. induction terms as [|item terms IH]; intros i st w Hok.
  - exists st, [], []. simpl. rewrite !app_nil_r.
    do 5 (split; [done|]). constructor.
  - destruct (batch_step_outcome total i item st w Hok)
      as (data & reason & st1 & _ & Hr & Hok1 & Hnone & Hsome).
    pose proof (batch_step_records total i item st w) as Hlog.
    simpl. unfold bind_ok.
    destruct (batch_step _ _ _ _ _ _ w) as [r w1]. simpl in Hr, Hlog.
    subst r.
    destruct (IH (i + 1)%Z st1 w1 Hok1)
      as (st' & fs & rs & Hr' & Hlog' & Hfs & Hrs & Hlen & Hall).
    assert (Hall' : Forall (fun row : list N * pyval =>
                              row.1 ∈ occ_raw item
                                      :: List.map occ_raw terms) rs).
    { eapply Forall_impl; [exact Hall|]. intros row Hrow.
      by apply list_elem_of_further. }
    assert (Hdec : data = VNone \/ data <> VNone)
      by (destruct data; (by left) || (by right)).
    destruct Hdec as [Hd|Hd].
    + destruct (Hnone Hd) as [Hrj Hft].
      exists st', fs, ((occ_raw item, reject_reason reason) :: rs).
      split; [done|]. split.
      { rewrite Hlog', Hlog, <- app_assoc. done. }
      split; [by rewrite Hfs, Hft|].
      split; [by rewrite Hrs, Hrj, <- app_assoc|].
      split; [simpl; lia|].
      constructor; [apply list_elem_of_here|done].
    + destruct (Hsome Hd) as [Hrj [feat Hft]].
      exists st', (feat :: fs), rs.
      split; [done|]. split.
      { rewrite Hlog', Hlog, <- app_assoc. done. }
      split; [by rewrite Hfs, Hft, <- app_assoc|].
      split; [by rewrite Hrs, Hrj|].
      split; [simpl; lia|done].
Qed.
End Callback.

(** C9, as amended. Let the active table be readable, the cache hold
    only entries that answer with no data or with a result object, and
    the callback record each of its calls.  Then the batch driver
    calls it, for the [i]-th of the [N] terms, with [(i - 1, N, term)]
    before it looks the term up, and once more with [(N, N, None)]
    after the loop.  A term without data appends its reject row
    [(term, reason or "rejected")] and the loop goes on: the run ends
    normally, and the features and the reject rows written, one for
    each term, add up to [N]. *)
Theorem batch_notifies_before_each_step (cb : callback)
    (record : Z -> Z -> option (list N)
              -> progress_status * Z * Z * option (list N))
    (rows : list csv_row) (w : world) :
  recording cb record ->
  fst (read_active_csv w) = Ok rows ->
  cache_ok (default ∅ (w_cache_file w)) ->
  let terms := terms_of rows in
  let total := Z.of_nat (length terms) in
  let run := phase_geocode_grouped service (Some cb) w in
  fst run = Ok tt
  /\ progress_log (snd run)
     = progress_log w
       ++ List.map (fun n => record n.1.1.2 n.1.2 n.2)
                   (notifications_before total 1 terms)
       ++ [record total total None]
  /\ (exists features rejects,
        EvGroupedWritten features ∈ w_trace (snd run)
        /\ (rejects = [] \/ EvRejectsWritten rejects ∈ w_trace (snd run))
        /\ (length features + length rejects = length terms)%nat
        /\ Forall (fun row => row.1 ∈ List.map occ_raw terms) rejects)
  /\ (forall i item st w0,
        snd (batch_step service (Some cb) total i item st w0)
        = snd (geocode_with_cache service (occ_raw item) (b_cache st)
                 (snd (cb (i - 1)%Z total (Some (occ_raw item)) w0))))
  /\ (forall i item st w0,
        cache_ok (b_cache st) ->
        exists data reason st',
          fst (geocode_with_cache service (occ_raw item) (b_cache st)
                 (snd (cb (i - 1)%Z total (Some (occ_raw item)) w0)))
          = Ok (data, reason, b_cache st')
          /\ fst (batch_step service (Some cb) total i item st w0) = Ok st'
          /\ cache_ok (b_cache st')
          /\ (data = VNone ->
              b_rejects st'
              = b_rejects st ++ [(occ_raw item, reject_reason reason)]
              /\ b_features st' = b_features st)
          /\ (data <> VNone ->
              b_rejects st' = b_rejects st
              /\ exists feat, b_features st' = b_features st ++ [feat])).
Proof.
  intros Hcb Hrows Hok terms total run.
  assert (Hread : read_active_csv w = (Ok rows, w)).
  { revert Hrows. unfold read_active_csv.
    destruct (w_filtered_csv w); [by intros [= ->]|].
    destruct (w_base_csv w); [by intros [= ->]|done]. }
  destruct (batch_loop_outcome cb record Hcb total terms 1
              {| b_cache := default ∅ (w_cache_file w);
                 b_features := []; b_rejects := [] |} w Hok)
    as (st' & fs & rs & Hr & Hlog & Hfs & Hrs & Hlen & Hall).
  destruct (batch_loop _ _ _ _ _ _ w) as [r w1] eqn:Hloop.
  simpl in Hr, Hlog, Hfs, Hrs. subst r.
  assert (Hrun : run = phase_geocode_grouped service (Some cb) w) by done.
  rewrite (phase_geocode_grouped_run _ rows w w1 st' Hread Hloop) in Hrun.
  fold terms in Hrun. fold total in Hrun. unfold notify in Hrun.
  set (w3 := snd (match b_rejects st' with
                  | [] => ret tt
                  | p :: l => emit (EvRejectsWritten (p :: l))
                  end (snd (emit (EvGroupedWritten (b_features st')) w1))))
    in Hrun.
  destruct (Hcb total total None w3) as [Hlast Hkeep].
  rewrite Hrun. cbn [fst snd].
  split; [done|]. split; [|split; [|split]].
  - rewrite Hlast. subst w3.
    assert (Hq : quiet (match b_rejects st' with
                        | [] => ret tt
                        | rows => emit (EvRejectsWritten rows)
                        end)).
    { destruct (b_rejects st'); [apply quiet_ret|by apply quiet_emit]. }
    rewrite Hq, (quiet_emit (EvGroupedWritten _)) by done.
    by rewrite Hlog, <- app_assoc.
  - exists fs, rs. split; [|split; [|split; [exact Hlen|exact Hall]]].
    + apply Hkeep. subst w3. rewrite Hfs.
      destruct (b_rejects st'); unfold ret; cbn [snd];
        rewrite ?trace_emit; set_solver.
    + destruct rs as [|row rs']; [by left|right].
      apply Hkeep. subst w3. rewrite Hrs. cbn [app snd].
      rewrite trace_emit. set_solver.
  - intros. by apply batch_step_calls_first.
  - intros. by apply batch_step_outcome.
Qed.

(** X19. The progress records of a whole run of the worker on a
    well-formed cache: [starting], then for the [i]-th of the [N] terms
    a [running] record with [i - 1] terms done, then [running] with
    [N] of [N], then [done]. *)
Lemma worker_progress (rows : list csv_row) (w : world) :
  fst (read_active_csv w) = Ok rows ->
  cache_ok (default ∅ (w_cache_file w)) ->
  let terms := terms_of rows in
  let total := Z.of_nat (length terms) in
  progress_log (snd (_geocode_worker service w))
  = progress_log w
    ++ [(Starting, 0, 0, None)]%Z
    ++ notifications_before total 1 terms
    ++ [(Running, total, total, None); (Done, 1, 1, None)]%Z.
Proof.
  intros Hrows Hok terms total.
  unfold _geocode_worker, bind at 1.
  set (w0 := snd (_write_progress 0 0 None Starting w)).
  assert (Hw0 : _write_progress 0 0 None Starting w = (tt, w0)) by done.
  rewrite Hw0.
  destruct (phase_geocode_grouped_ok rows w0) as (Hr & Hlog & _).
  { subst w0. revert Hrows. unfold read_active_csv. simpl.
    by destruct (w_filtered_csv w), (w_base_csv w). }
  { subst w0. by simpl. }
  fold (@running_cb). unfold bind.
  change (fun done total current_term =>
            _write_progress done total current_term Running)
    with running_cb.
  destruct (phase_geocode_grouped service (Some running_cb) w0) as [r w1].
  simpl in Hr, Hlog. subst r.
  unfold _write_progress. rewrite progress_log_emit, Hlog.
  subst w0. unfold _write_progress. rewrite progress_log_emit.
  fold terms. fold total. by rewrite <- !app_assoc.
Qed.

End WithRuntime.
End BatchFacts.


(** * The filtered CSV of [processor/exclusions.py] *)

Module ExclusionsFacts.
Section WithRuntime.
Context {U : UnicodeData} {B : Builtins}.
Import Exclusions.

Section Row.
Variable global_excl : gset (list N).
Variables page_pairs_excl forced_include_pairs : gset (list N * Z).
Variable pagina_int : option Z.

Local Abbreviation filter_row :=
  (filter_terms global_excl page_pairs_excl forced_include_pairs
                pagina_int).
Local Abbreviation kept_row :=
  (kept global_excl page_pairs_excl forced_include_pairs pagina_int).
Local Abbreviation forced nm := (on_page pagina_int nm forced_include_pairs).
Local Abbreviation excluded_here nm :=
  (on_page pagina_int nm page_pairs_excl).

Lemma filter_terms_step (seen : list (list N)) (t : list N)
    (rest : list (list N)) :
  filter_row seen (t :: rest)
  = let nm := Utils._norm (Some t) in
    if bool_decide (nm ∈ seen) then filter_row seen rest
    else if kept_row nm then t :: filter_row (nm :: seen) rest
    else filter_row (nm :: seen) rest.
Proof.
  simpl. unfold kept.
  destruct (bool_decide (_ ∈ seen)); [done|].
  destruct (bool_decide (_ ∈ global_excl)), (forced _),
    (excluded_here _); done.
Qed.

(** What stays on the row passed both tests. *)
Lemma elem_of_filter_terms (seen terms : list (list N)) (t : list N) :
  t ∈ filter_row seen terms ->
  t ∈ terms /\ Utils._norm (Some t) ∉ seen
  /\ kept_row (Utils._norm (Some t)) = true.
Proof.
  revert seen. induction terms as [|u terms IH]; intros seen.
  - by intros ?%elem_of_nil.
  - rewrite filter_terms_step. cbv zeta.
    destruct (bool_decide (_ ∈ seen)) eqn:Hs.
    + intros (? & ? & ?)%IH. split; [by right|done].
    + apply bool_decide_eq_false in Hs.
      destruct (kept_row (Utils._norm (Some u))) eqn:Hk.
      * intros [->|H]%elem_of_cons; [by split; [left|]|].
        apply IH in H as (? & Hn & ?).
        split; [by right|]. split; [|done].
        intros ?. apply Hn. by right.
      * intros (? & Hn & ?)%IH. split; [by right|]. split; [|done].
        intros ?. apply Hn. by right.
Qed.

(** A name that passes the tests stays on the row, under the first of
    its display forms. *)
Lemma filter_terms_keeps (seen terms : list (list N)) (t : list N) :
  t ∈ terms -> Utils._norm (Some t) ∉ seen ->
  kept_row (Utils._norm (Some t)) = true ->
  exists t', t' ∈ filter_row seen terms
             /\ Utils._norm (Some t') = Utils._norm (Some t).
Proof.
  revert seen. induction terms as [|u terms IH]; intros seen.
  - by intros ?%elem_of_nil.
  - intros Ht Hs Hk. rewrite filter_terms_step. cbv zeta.
    destruct (decide (Utils._norm (Some u) = Utils._norm (Some t)))
      as [Heq|Hne].
    + rewrite Heq, bool_decide_eq_false_2, Hk by done.
      exists u. split; [by left|done].
    + apply elem_of_cons in Ht as [->|Ht]; [done|].
      destruct (bool_decide (_ ∈ seen)) eqn:Hu; [by apply IH|].
      destruct (IH (Utils._norm (Some u) :: seen) Ht) as (t' & Ht' & Hn).
      { intros [?|?]%elem_of_cons; [by apply Hne|done]. }
      { done. }
      exists t'. split; [|done].
      destruct (kept_row (Utils._norm (Some u))); [by right|done].
Qed.

(** The names on a row are pairwise distinct. *)
Lemma filter_terms_NoDup (seen terms : list (list N)) :
  NoDup (List.map (fun t => Utils._norm (Some t)) (filter_row seen terms)).
Proof.
  revert seen. induction terms as [|u terms IH]; intros seen.
  - apply NoDup_nil_2.
  - rewrite filter_terms_step. cbv zeta.
    destruct (bool_decide (_ ∈ seen)); [apply IH|].
    destruct (kept_row (Utils._norm (Some u))); [|apply IH].
    simpl. apply NoDup_cons. split; [|apply IH].
    intros Hin. apply list_elem_of_In, in_map_iff in Hin as (t' & He & Ht').
    apply list_elem_of_In, elem_of_filter_terms in Ht' as (_ & Hs & _).
    apply Hs. rewrite He. by left.
Qed.

(** The two tests, spelled out. *)
Lemma kept_spec (nm : list N) :
  kept_row nm = true <->
  forced nm = true \/ (nm ∉ global_excl /\ excluded_here nm = false).
Proof.
  unfold kept. destruct (forced nm), (excluded_here nm); simpl;
    rewrite ?andb_true_r, ?andb_false_r, ?negb_true_iff,
      ?bool_decide_eq_false; naive_solver.
Qed.

(** On the row of a page, a forced inclusion wins over the global and
    over the page-level exclusion of the name; without it, either
    exclusion removes every display form of the name. *)
Lemma filtered_row_precedence (terms : list (list N)) (t : list N) :
  let nm := Utils._norm (Some t) in
  (forced nm = true -> t ∈ terms ->
   exists t', t' ∈ filter_row [] terms /\ Utils._norm (Some t') = nm)
  /\ (forced nm = false ->
      nm ∈ global_excl \/ excluded_here nm = true ->
      forall t', t' ∈ filter_row [] terms -> Utils._norm (Some t') <> nm).
Proof.
  intros nm. split.
  - intros Hf Ht. apply filter_terms_keeps; [done|by intros ?%elem_of_nil|].
    unfold kept. fold nm. rewrite Hf. simpl.
    by rewrite !andb_false_r.
  - intros Hf Hex t' Ht' Heq.
    apply elem_of_filter_terms in Ht' as (_ & _ & Hk).
    rewrite Heq in Hk. unfold kept in Hk. rewrite Hf in Hk. simpl in Hk.
    rewrite !andb_true_r in Hk.
    apply andb_true_iff in Hk as [Hg Hp].
    apply negb_true_iff in Hg, Hp.
    destruct Hex as [Hex|Hex]; [|by rewrite Hex in Hp].
    by rewrite bool_decide_eq_true_2 in Hg.
Qed.
End Row.

(** ** The terms restored from the automatic filter *)

(** The row [e] of the rejected terms puts [t] back on the page with
    the label [l]. *)
Local Abbreviation restores forced_include_pairs e l t :=
  (PyStr.lower (PyStr.strip (Server.erow_stadio e)) = ustr "pre_filter"
   /\ PyStr.strip (Server.erow_termine e) = t /\ truthy_str t = true
   /\ PyStr.strip (Server.erow_pagina e) = l /\ truthy_str l = true
   /\ exists pagina_int, int_of_str l = Some pagina_int
        /\ (Utils._norm (Some t), pagina_int) ∈ forced_include_pairs).

Local Ltac skip_row :=
  split; [by left|];
  intros [?|(? & ? & ? & ? & ? & ? & ? & ?)]; [done|];
  exfalso;
  first [done | congruence | subst; congruence | simplify_eq; done].

Lemma elem_of_prefilter_forced (rows : list Server.excl_row)
    (forced_include_pairs : gset (list N * Z)) (l t : list N) :
  t ∈ default [] (_collect_prefilter_forced_inclusions
                    (Some rows) forced_include_pairs !! l)
  <-> exists e, e ∈ rows /\ restores forced_include_pairs e l t.
Proof.
  unfold _collect_prefilter_forced_inclusions.
  set (f := fun (out : gmap (list N) (list (list N))) row => _).
  assert (Hstep : forall out e,
             t ∈ default [] (f out e !! l)
             <-> t ∈ default [] (out !! l)
                 \/ restores forced_include_pairs e l t).
  { intros out e. subst f. cbv beta zeta.
    destruct (bool_decide (_ = ustr "pre_filter")) eqn:Hs; cbn [negb];
      [apply bool_decide_eq_true in Hs
      |apply bool_decide_eq_false in Hs; skip_row].
    destruct (truthy_str (PyStr.strip (Server.erow_termine e))) eqn:Ht;
      cbn [negb orb]; [|skip_row].
    destruct (truthy_str (PyStr.strip (Server.erow_pagina e))) eqn:Hl;
      cbn [negb orb]; [|skip_row].
    destruct (int_of_str (PyStr.strip (Server.erow_pagina e)))
      as [pi|] eqn:Hi; [|skip_row].
    destruct (bool_decide (_ ∈ forced_include_pairs)) eqn:Hf;
      [apply bool_decide_eq_true in Hf
      |apply bool_decide_eq_false in Hf; skip_row].
    destruct (decide (PyStr.strip (Server.erow_pagina e) = l)) as [<-|Hne].
    - rewrite lookup_insert_eq. cbn [from_option id]. rewrite elem_of_app.
      rewrite list_elem_of_singleton. split.
      + intros [?|Heq]; [by left|right]. subst t.
        repeat split; try done. by exists pi.
      + intros [?|(_ & ? & _)]; [by left|by right].
    - rewrite lookup_insert_ne by done. skip_row. }
  assert (Hfold : forall out,
             t ∈ default [] (fold_left f rows out !! l)
             <-> t ∈ default [] (out !! l)
                 \/ exists e, e ∈ rows
                             /\ restores forced_include_pairs e l t).
  { induction rows as [|e rows IH]; intros out; simpl.
    - split; [by left|]. intros [?|(e & ?%elem_of_nil & _)]; done.
    - rewrite IH, Hstep. split.
      + intros [[?|?]|(e' & ? & ?)]; [by left|right..].
        * exists e. split; [by left|done].
        * exists e'. split; [by right|done].
      + intros [?|(e' & [->|?]%elem_of_cons & ?)];
          [by left; left|by left; right|right; by exists e']. }
  rewrite Hfold, lookup_empty. simpl. rewrite elem_of_nil. naive_solver.
Qed.

Lemma Forall2_map_self {X Y} (P : X -> Y -> Prop) (f : X -> Y)
    (l : list X) :
  (forall x, x ∈ l -> P x (f x)) -> Forall2 P l (List.map f l).
Proof.
  induction l as [|x l IH]; intros H; simpl; constructor.
  - apply H. by left.
  - apply IH. intros y ?. apply H. by right.
Qed.

(** X12. The filtered table of [apply_exclusions_to_csv] has one row
    for each row of the raw table, under the same page label.  On a
    row no two terms have the same normalized name; every term on it
    is forced in on that page or is excluded neither globally nor on
    that page; and every raw term of the row that passes this test is
    on the row under one of the display forms of its name. *)
Theorem filtered_csv_rows (base_rows : list Server.base_row)
    (esclusi : option (list Server.excl_row)) (file : json_file)
    (global_excl : gset (list N))
    (page_pairs_excl forced_include_pairs : gset (list N * Z)) :
  load_user_exclusions_full file
  = Ok (global_excl, page_pairs_excl, forced_include_pairs) ->
  exists out,
    apply_exclusions_to_csv (Some base_rows) esclusi file = Ok out
    /\ Forall2
         (fun r o =>
            let pagina_int := int_of_str (PyStr.strip (Server.row_pagina r)) in
            let passes nm :=
              on_page pagina_int nm forced_include_pairs = true
              \/ (nm ∉ global_excl
                  /\ on_page pagina_int nm page_pairs_excl = false) in
            frow_pagina o = PyStr.strip (Server.row_pagina r)
            /\ NoDup (List.map (fun t => Utils._norm (Some t))
                               (frow_terms o))
            /\ (forall t, t ∈ frow_terms o ->
                          passes (Utils._norm (Some t)))
            /\ (forall t,
                  t ∈ Server.split_terms (PyStr.strip (Server.row_luogo r)) ->
                  passes (Utils._norm (Some t)) ->
                  exists t', t' ∈ frow_terms o
                             /\ Utils._norm (Some t')
                                = Utils._norm (Some t)))
         base_rows out.
Proof.
  intros Hload. unfold apply_exclusions_to_csv. rewrite Hload. simpl.
  eexists. split; [done|]. apply Forall2_map_self. intros r _. simpl.
  split; [done|]. split; [apply filter_terms_NoDup|]. split.
  - intros t (_ & _ & Hk)%elem_of_filter_terms. by apply kept_spec.
  - intros t Ht Hp. apply filter_terms_keeps.
    + apply elem_of_elements. set_solver.
    + by intros ?%elem_of_nil.
    + by apply kept_spec.
Qed.

(** X13. A term that the automatic filter rejected on a page and that
    the curator forced back in on that page is on the row of the page
    in the filtered table, whatever exclusions there are. *)
Theorem forced_prefilter_term_is_restored
    (base_rows : list Server.base_row) (rejected : list Server.excl_row)
    (file : json_file) (global_excl : gset (list N))
    (page_pairs_excl forced_include_pairs : gset (list N * Z)) :
  load_user_exclusions_full file
  = Ok (global_excl, page_pairs_excl, forced_include_pairs) ->
  exists out,
    apply_exclusions_to_csv (Some base_rows) (Some rejected) file = Ok out
    /\ Forall2
         (fun r o =>
            forall e pagina_int,
              e ∈ rejected ->
              PyStr.lower (PyStr.strip (Server.erow_stadio e))
              = ustr "pre_filter" ->
              PyStr.strip (Server.erow_pagina e)
              = PyStr.strip (Server.row_pagina r) ->
              truthy_str (PyStr.strip (Server.erow_pagina e)) = true ->
              truthy_str (PyStr.strip (Server.erow_termine e)) = true ->
              int_of_str (PyStr.strip (Server.erow_pagina e))
              = Some pagina_int ->
              (Utils._norm (Some (PyStr.strip (Server.erow_termine e))),
               pagina_int) ∈ forced_include_pairs ->
              exists t', t' ∈ frow_terms o
                         /\ Utils._norm (Some t')
                            = Utils._norm
                                (Some (PyStr.strip (Server.erow_termine e))))
         base_rows out.
Proof.
  intros Hload. unfold apply_exclusions_to_csv. rewrite Hload. simpl.
  eexists. split; [done|]. apply Forall2_map_self. intros r _. simpl.
  intros e pi He Hs Hl Htl Ht Hi Hf.
  apply filter_terms_keeps.
  - apply elem_of_elements, elem_of_union. right.
    apply elem_of_list_to_set, elem_of_prefilter_forced.
    exists e. split; [done|]. rewrite <- Hl. repeat split; try done.
    by exists pi.
  - by intros ?%elem_of_nil.
  - apply kept_spec. left. unfold on_page. rewrite <- Hl, Hi.
    by apply bool_decide_eq_true.
Qed.

End WithRuntime.
End ExclusionsFacts.


(** * The Basic Latin tables satisfy the laws *)

Module BasicLatinFacts.
Import BasicLatin NormalForm.

Ltac bools :=
  repeat match goal with
    | H : (_ && _) = true |- _ => apply andb_true_iff in H as [? ?]
    | H : (_ && _) = false |- _ => apply andb_false_iff in H as [?|?]
    | H : (_ || _) = true |- _ => apply orb_true_iff in H as [?|?]
    | H : (_ || _) = false |- _ => apply orb_false_iff in H as [? ?]
    | H : (_ <=? _) = true |- _ => apply N.leb_le in H
    | H : (_ <=? _) = false |- _ => apply N.leb_gt in H
    | H : (_ =? _) = true |- _ => apply N.eqb_eq in H
    | H : (_ =? _) = false |- _ => apply N.eqb_neq in H
    end.

Lemma lower_settled (c : N) :
  c <> CAPITAL_SIGMA -> bl_isspace c = false ->
  @settled unicode_data (if is_upper c then c + 32 else c).
Proof.
  intros Hsig Hsp. unfold settled, CAPITAL_SIGMA in *. simpl.
  unfold bl_lower_full, bl_isspace, is_upper in *.
  destruct ((65 <=? c) && (c <=? 90)) eqn:Hup.
  - split; [done|]. split; [done|].
    assert (97 <= c + 32 <= 122) as Hr by (bools; lia).
    repeat split.
    + apply orb_false_iff; split; apply andb_false_iff.
      * right. apply N.leb_gt. lia.
      * right. apply N.leb_gt. lia.
    + replace ((65 <=? c + 32) && (c + 32 <=? 90)) with false; [done|].
      symmetry. apply andb_false_iff. right. apply N.leb_gt. lia.
    + lia.
  - rewrite Hup. by repeat split.
Qed.

Lemma laws : UnicodeLaws unicode_data.
Proof.
  constructor; simpl; try reflexivity.
  - intros c Hsig _ _ Hsp. split; [done|].
    intros d ->%list_elem_of_singleton. by apply lower_settled.
  - by apply (lower_settled SMALL_SIGMA).
  - by apply (lower_settled SMALL_FINAL_SIGMA).
Qed.

End BasicLatinFacts.

Module Witnesses.
Import Server.
#[local] Existing Instance BasicLatin.unicode_data.
#[local] Existing Instance BasicLatin.builtins.

(** On the Basic Latin tables the normalizer folds case and white space
    of a display string, and a second pass changes nothing. *)
Lemma normalize_name_idempotent_witness :
  NormalForm.UnicodeLaws BasicLatin.unicode_data
  /\ Utils.normalize_name (Some (ustr "  Cerignola   di PUGLIA "))
     = ustr "cerignola di puglia"
  /\ Utils.normalize_name
       (Some (Utils.normalize_name (Some (ustr "  Cerignola   di PUGLIA "))))
     = Utils.normalize_name (Some (ustr "  Cerignola   di PUGLIA ")).
Proof.
  split; [exact BasicLatinFacts.laws|]. split; [reflexivity|].
  apply (NormalizerFacts.normalize_name_idempotent
           (L := BasicLatinFacts.laws)).
Defined.

Import Scenarios.

(** The "Cerignola" scenario. *)
Lemma forced_inclusion_beats_global_exclusion_witness :
  ustr "cerignola" ∈ exclude_global (annale_user_state cerignola_job)
  /\ included_pages (_compute_model cerignola_job) (ustr "cerignola")
     = [PInt 53]
  /\ excluded_pages (_compute_model cerignola_job) (ustr "cerignola")
     = [PInt 52]
  /\ (forall p,
        p ∈ included_pages (_compute_model cerignola_job) (ustr "cerignola")
        <-> (ustr "cerignola", p)
            ∈ pairs_set (include_pages (annale_user_state cerignola_job))).
Proof.
  assert (H : ustr "cerignola"
              ∈ exclude_global (annale_user_state cerignola_job))
    by (simpl; apply list_elem_of_here).
  split; [exact H|]. split; [reflexivity|]. split; [reflexivity|].
  exact (proj1 (ServerFacts.forced_inclusion_beats_global_exclusion
                  cerignola_job (ustr "cerignola") H)).
Defined.

(** Page 52 of "Bari" is excluded; page 60 is excluded and forced. *)
Lemma page_exclusion_unless_forced_witness :
  (ustr "bari", PInt 52)
    ∈ pairs_set (exclude_pages (annale_user_state bari_job))
  /\ (ustr "bari", PInt 52)
    ∉ pairs_set (include_pages (annale_user_state bari_job))
  /\ PInt 52 ∉ included_pages (_compute_model bari_job) (ustr "bari")
  /\ included_pages (_compute_model bari_job) (ustr "bari") = [PInt 60].
Proof.
  assert (H : (ustr "bari", PInt 52)
              ∈ pairs_set (exclude_pages (annale_user_state bari_job)))
    by (apply (bool_decide_unpack _); vm_compute; exact I).
  assert (Hn : (ustr "bari", PInt 52)
               ∉ pairs_set (include_pages (annale_user_state bari_job)))
    by (apply (bool_decide_unpack _); vm_compute; exact I).
  split; [exact H|]. split; [exact Hn|]. split; [|reflexivity].
  exact (proj1 (ServerFacts.page_exclusion_unless_forced
                  bari_job (ustr "bari") (PInt 52) H) Hn).
Defined.
End Witnesses.


(** * The geocoder on the scenarios *)

Module GeocodeWitnesses.
Import Geocode Scenarios.
#[local] Existing Instance BasicLatin.unicode_data.
#[local] Existing Instance BasicLatin.builtins.



(** C5 as stated fails: two results with the same key are selected by
    their position in the list, and so are results whose keys differ in
    a NaN. *)
Lemma selection_depends_on_order_of_ties :
  [paris_fr; paris_tx] ≡ₚ [paris_tx; paris_fr]
  /\ fst (select_best (ustr "Paris") [paris_fr; paris_tx] (fresh_world []))
     <> fst (select_best (ustr "Paris") [paris_tx; paris_fr]
               (fresh_world []))
  /\ [bari_low; bari_nan; bari_high] ≡ₚ [bari_high; bari_nan; bari_low]
  /\ fst (select_best (ustr "Bari") [bari_low; bari_nan; bari_high]
            (fresh_world []))
     = (Some (_normalize_hit_with_geom bari_low (ustr "Bari")), None)
  /\ fst (select_best (ustr "Bari") [bari_high; bari_nan; bari_low]
            (fresh_world []))
     = (Some (_normalize_hit_with_geom bari_high (ustr "Bari")), None)
  /\ _normalize_hit_with_geom bari_low (ustr "Bari")
     <> _normalize_hit_with_geom bari_high (ustr "Bari").
Proof.
  split; [apply Permutation_swap|].
  split; [vm_compute; discriminate|].
  split; [apply (Permutation_rev [bari_low; bari_nan; bari_high])|].
  split; [vm_compute; reflexivity|].
  split; [vm_compute; reflexivity|].
  vm_compute. discriminate.
Qed.

(** Three results with distinct keys and without NaN: the order of
    presentation does not matter, neither to the ranking step nor to
    the resolver. *)
Lemma selection_under_permutation_witness :
  [bari_low; nowhere; bari_high] ≡ₚ [bari_high; bari_low; nowhere]
  /\ Forall importance_not_nan [bari_low; nowhere; bari_high]
  /\ fst (select_best (ustr "Bari") [bari_low; nowhere; bari_high]
            (fresh_world []))
     = fst (select_best (ustr "Bari") [bari_high; bari_low; nowhere]
              (fresh_world []))
  /\ fst (select_best (ustr "Bari") [bari_low; nowhere; bari_high]
            (fresh_world []))
     = (Some (_normalize_hit_with_geom bari_high (ustr "Bari")), None)
  /\ fst (geocode_name_robust
            (bari_service [bari_low; nowhere; bari_high]) (ustr "Bari")
            (fresh_world []))
     = fst (geocode_name_robust
              (bari_service [bari_high; bari_low; nowhere]) (ustr "Bari")
              (fresh_world [])).
Proof.
  set (l1 := [bari_low; nowhere; bari_high]).
  set (l2 := [bari_high; bari_low; nowhere]).
  assert (Hp : l1 ≡ₚ l2).
  { change ([bari_low; nowhere] ++ [bari_high]
            ≡ₚ [bari_high] ++ [bari_low; nowhere]).
    apply Permutation_app_comm. }
  assert (Hnan : Forall importance_not_nan l1) by (repeat constructor).
  assert (Hinj : forall a b, a ∈ l1 -> b ∈ l1 ->
            key_eqv (_rank_key a (Utils._norm (Some (ustr "Bari"))))
                    (_rank_key b (Utils._norm (Some (ustr "Bari")))) ->
            a = b).
  { intros a b Ha Hb [H1 H2]. subst l1.
    repeat match goal with
      | H : _ ∈ _ :: _ |- _ => apply elem_of_cons in H as [->|H]
      | H : _ ∈ [] |- _ => by apply elem_of_nil in H
      end; try done; by vm_compute in H1, H2. }
  destruct (RankingFacts.selection_under_permutation
              (ustr "Bari") l1 l2 (fresh_world []) Hp Hnan)
    as (_ & _ & _ & Hsame & Hresolver).
  split; [exact Hp|]. split; [exact Hnan|].
  split; [exact (Hsame Hinj)|].
  split; [vm_compute; reflexivity|].
  apply (Hresolver (bari_service l1) (bari_service l2)
           (fresh_world []) (fresh_world []));
    [vm_compute; reflexivity|vm_compute; reflexivity|exact Hinj].
Defined.

(** A first call for "Parigi" on an empty cache resolves the name and
    writes the cache; the second call answers from it. *)
Lemma cache_hit_and_single_resolution_witness :
  (∅ : gmap (list N) pyval) !! Utils._norm (Some (ustr "Parigi")) = None
  /\ match geocode_with_cache paris_service (ustr "Parigi") ∅
             (fresh_world []) with
     | (Ok (data, reason, cache1), w1) =>
         geocode_with_cache paris_service (ustr "Parigi") cache1 w1
         = (Ok (data, reason, cache1), w1)
     | (Raise e, w1) =>
         w1 = fresh_world []
         /\ geocode_with_cache paris_service (ustr "Parigi") ∅ w1
            = (Raise e, w1)
     end
  /\ fst (geocode_with_cache paris_service (ustr "Parigi") ∅
            (fresh_world []))
     = Ok (_normalize_hit_with_geom paris_fr (ustr "Parigi"), VNone,
           {[ ustr "parigi" :=
                VDict [(ustr "ok", VBool true);
                       (ustr "data",
                        _normalize_hit_with_geom paris_fr
                          (ustr "Parigi"))] ]}).
Proof.
  assert (H : (∅ : gmap (list N) pyval)
              !! Utils._norm (Some (ustr "Parigi")) = None)
    by apply lookup_empty.
  split; [exact H|].
  destruct (CacheFacts.cache_hit_and_single_resolution
              paris_service (ustr "Parigi") ∅ (fresh_world []))
    as (_ & _ & Hmiss & Htwice).
  split; [exact Htwice|].
  rewrite (Hmiss H). reflexivity.
Defined.

(** C9 as stated fails: in a job of one term the only notification that
    carries the term is issued before the term is looked up and counts
    no term as done. *)
Lemma notification_precedes_the_step :
  progress_log
    (snd (phase_geocode_grouped paris_service (Some running_cb)
            (fresh_world parigi_rows)))
  = [(Running, 0, 1, Some (ustr "Parigi")); (Running, 1, 1, None)]%Z
  /\ progress_log
       (snd (phase_geocode_grouped paris_service (Some running_cb)
               (fresh_world parigi_rows)))
     <> notifications_after 1 1 (terms_of parigi_rows)
        ++ [(Running, 1, 1, None)]%Z.
Proof. split; [reflexivity|]. vm_compute. discriminate. Qed.

(** Two terms, the second of which is rejected, with the callback of
    the worker: three calls, a normal end, and the reject row of the
    second term. *)
Lemma batch_notifies_before_each_step_witness :
  recording running_cb (fun done total current =>
                          (Running, done, total, current))
  /\ fst (read_active_csv (fresh_world two_term_rows)) = Ok two_term_rows
  /\ cache_ok (default ∅ (w_cache_file (fresh_world two_term_rows)))
  /\ fst (phase_geocode_grouped paris_service (Some running_cb)
            (fresh_world two_term_rows)) = Ok tt
  /\ progress_log
       (snd (phase_geocode_grouped paris_service (Some running_cb)
               (fresh_world two_term_rows)))
     = [(Running, 0, 2, Some (ustr "Parigi"));
        (Running, 1, 2, Some (ustr "Atlantide"));
        (Running, 2, 2, None)]%Z
  /\ In (EvRejectsWritten
           [(ustr "Atlantide", VStr (ustr "no_results"))])
        (w_trace
           (snd (phase_geocode_grouped paris_service (Some running_cb)
                   (fresh_world two_term_rows)))).
Proof.
  assert (H0 : recording running_cb
                 (fun done total current =>
                    (Running, done, total, current))).
  { intros d t c w. split.
    - unfold running_cb, _write_progress.
      by rewrite BatchFacts.progress_log_emit.
    - intros e He. unfold running_cb, _write_progress.
      rewrite BatchFacts.trace_emit. apply elem_of_app. by left. }
  assert (H1 : fst (read_active_csv (fresh_world two_term_rows))
               = Ok two_term_rows) by reflexivity.
  assert (H2 : cache_ok
                 (default ∅ (w_cache_file (fresh_world two_term_rows)))).
  { intros k entry. simpl. by rewrite lookup_empty. }
  split; [exact H0|]. split; [exact H1|]. split; [exact H2|].
  destruct (BatchFacts.batch_notifies_before_each_step
              paris_service running_cb _ two_term_rows
              (fresh_world two_term_rows) H0 H1 H2)
    as (Hr & Hlog & _).
  split; [exact Hr|]. split; [rewrite Hlog; reflexivity|].
  vm_compute. repeat (first [left; reflexivity | right]).
Defined.

End GeocodeWitnesses.


(** * More on the resolved model *)

Module ModelFacts.

(** ** The order of the pages *)

Lemma str_leb_total (s t : list N) :
  Py.str_leb s t = true \/ Py.str_leb t s = true.
Proof.
  revert t. induction s as [|a s IH]; intros t; [by left|].
  destruct t as [|b t]; [by right|]. simpl.
  destruct (N.lt_trichotomy a b) as [H|[->|H]].
  - left. apply orb_true_iff. left. by apply N.ltb_lt.
  - rewrite N.ltb_irrefl, N.eqb_refl. simpl. apply IH.
  - right. apply orb_true_iff. left. by apply N.ltb_lt.
Qed.

Lemma str_leb_trans (s t u : list N) :
  Py.str_leb s t = true -> Py.str_leb t u = true -> Py.str_leb s u = true.
Proof.
  revert t u. induction s as [|a s IH]; intros t u; [done|].
  destruct t as [|b t]; [done|]. destruct u as [|c u]; [done|]. simpl.
  rewrite !orb_true_iff, !andb_true_iff, !N.ltb_lt, !N.eqb_eq.
  intros [H1|[-> H1]] [H2|[-> H2]].
  - left. lia.
  - by left.
  - by left.
  - right. split; [done|]. by eapply IH.
Qed.

#[local] Instance page_le_total : Total page_le.
Proof.
  intros [a|s] [b|t]; unfold page_le; simpl; auto.
  - destruct (Z.le_ge_cases a b); [left|right]; by apply Z.leb_le.
  - apply str_leb_total.
Qed.

#[local] Instance page_le_trans : Transitive page_le.
Proof.
  intros [a|s] [b|t] [c|u]; unfold page_le; simpl; try done.
  - rewrite !Z.leb_le. lia.
  - apply str_leb_trans.
Qed.

Lemma sorted_pages_sorted (s : gset page) :
  StronglySorted page_le (sorted_pages s).
Proof. apply StronglySorted_merge_sort; apply _. Qed.

Lemma sorted_pages_NoDup (s : gset page) : NoDup (sorted_pages s).
Proof.
  unfold sorted_pages. rewrite merge_sort_Permutation. apply NoDup_elements.
Qed.

Lemma sorted_pages_nil (s : gset page) : sorted_pages s = [] <-> s = ∅.
Proof.
  split.
  - intros H. apply set_eq. intros p. rewrite <- ServerFacts.elem_of_sorted_pages, H.
    rewrite elem_of_nil. set_solver.
  - intros ->. unfold sorted_pages. by rewrite elements_empty.
Qed.

Section WithRuntime.
Context {U : UnicodeData} {B : Builtins}.
Import Server Curation.

Section Job.
Variable job : job_files.

Local Abbreviation st := (annale_user_state job).
Local Abbreviation base := (_read_base_csv (annale_toponimi_csv job)).1.
Local Abbreviation auto := (_read_fallback_excluded
                              (annale_toponimi_esclusi_csv job)).1.
Local Abbreviation glob :=
  (list_to_set (exclude_global st) : gset (list N)).
Local Abbreviation ex_set := (pairs_set (exclude_pages st)).
Local Abbreviation in_set := (pairs_set (include_pages st)).
Local Abbreviation pinc := (pages_inc_of base glob ex_set in_set).
Local Abbreviation pexc := (pages_exc_of base auto in_set).
Local Abbreviation disp :=
  (display_of base auto (raw_dict (include_pages st))).

Lemma compute_model_bindings (k : list N) :
  loop_inv base auto glob ex_set in_set (raw_dict (include_pages st)) k
           (final_included (_compute_model job),
            final_excluded (_compute_model job))
           (all_norms_of job).
Proof.
  unfold _compute_model, all_norms_of.
  destruct (_read_base_csv _) as [b mb].
  destruct (_read_fallback_excluded _) as [a ma]. simpl.
  pose proof (ServerFacts.lookup_resolve_loop b a glob ex_set in_set
                (raw_dict (include_pages st))
                (dom b ∪ dom a ∪ set_map fst in_set ∪ glob
                 ∪ set_map fst ex_set) k) as H.
  by destruct (set_fold _ _ _) as [fi fe].
Qed.

Lemma lookup_final_included (k : list N) :
  final_included (_compute_model job) !! k
  = if decide (k ∈ all_norms_of job /\ pinc k <> ∅)
    then Some {| inc_display := disp k;
                 inc_pages := sorted_pages (pinc k) |}
    else None.
Proof. apply (compute_model_bindings k). Qed.

Lemma lookup_final_excluded (k : list N) :
  final_excluded (_compute_model job) !! k
  = if decide (k ∈ all_norms_of job
               /\ (k ∈ glob \/ pexc k (pinc k) <> ∅))
    then Some {| exc_display := disp k;
                 exc_is_global := bool_decide (k ∈ glob);
                 exc_pages := sorted_pages (pexc k (pinc k)) |}
    else None.
Proof. apply (compute_model_bindings k). Qed.

(** The pages that make [k] a name the resolver considers. *)
Lemma base_in_all_norms (k : list N) (info : term_info) :
  base !! k = Some info -> k ∈ all_norms_of job.
Proof.
  intros H. unfold all_norms_of.
  assert (k ∈ dom base) by (apply elem_of_dom; eauto). set_solver.
Qed.

Lemma auto_in_all_norms (k : list N) (info : term_info) :
  auto !! k = Some info -> k ∈ all_norms_of job.
Proof.
  intros H. unfold all_norms_of.
  assert (k ∈ dom auto) by (apply elem_of_dom; eauto). set_solver.
Qed.
End Job.

(** X1. An entry of [final_included] never has an empty page list; a
    name has an entry in [final_excluded] exactly when it is excluded
    globally or has an excluded page, and the flag [is_global] of the
    entry tells which. *)
Theorem emission_rule (job : job_files) (k : list N) :
  let m := _compute_model job in
  (is_Some (final_included m !! k) <-> included_pages m k <> [])
  /\ (is_Some (final_excluded m !! k)
      <-> k ∈ exclude_global (annale_user_state job)
          \/ excluded_pages m k <> [])
  /\ from_option
       (fun e => exc_is_global e
                 = bool_decide (k ∈ exclude_global (annale_user_state job)))
       True (final_excluded m !! k).
Proof.
  intros m. subst m. unfold included_pages, excluded_pages.
  rewrite lookup_final_included, lookup_final_excluded.
  split; [|split].
  - goal_decide as Hd; simpl.
    + rewrite sorted_pages_nil. split; [by intros _; apply Hd|eauto].
    + split; [by intros []|done].
  - goal_decide as Hd; simpl.
    + rewrite sorted_pages_nil. split; [|eauto]. intros _.
      destruct Hd as [_ [Hg|He]]; [left; set_solver|by right].
    + split; [by intros []|]. intros [Hg|He]; [|done].
      exfalso. apply Hd. split; [|left; set_solver].
      by apply ServerFacts.global_in_all_norms.
  - goal_decide as Hd; simpl; [|done].
    apply bool_decide_ext. set_solver.
Qed.

(** X2. The page lists of the model are in ascending order of the
    sort key (integers first, then strings) and hold no page twice. *)
Theorem page_lists_sorted (job : job_files) (k : list N) :
  let m := _compute_model job in
  StronglySorted page_le (included_pages m k)
  /\ NoDup (included_pages m k)
  /\ StronglySorted page_le (excluded_pages m k)
  /\ NoDup (excluded_pages m k).
Proof.
  intros m. subst m. unfold included_pages, excluded_pages.
  rewrite lookup_final_included, lookup_final_excluded.
  repeat split; goal_decide; simpl;
    auto using sorted_pages_sorted, sorted_pages_NoDup, NoDup_nil_2;
    constructor.
Qed.

(** X3. No page of the raw extraction is lost: every page on which the
    raw extraction has [k] is reported for [k], as included or as
    excluded. *)
Theorem raw_pages_accounted (job : job_files) (k : list N) :
  let m := _compute_model job in
  forall p, p ∈ raw_pages job k ->
    p ∈ included_pages m k \/ p ∈ excluded_pages m k.
Proof.
  intros m p Hp. subst m. unfold raw_pages in Hp.
  destruct ((_read_base_csv (annale_toponimi_csv job)).1 !! k)
    as [info|] eqn:Hb; [|set_solver].
  pose proof (base_in_all_norms job k info Hb) as Hk.
  rewrite ServerFacts.elem_of_included_pages,
    ServerFacts.elem_of_excluded_pages, ServerFacts.elem_of_pages_exc_of.
  destruct (decide (p ∈ pages_inc_of
                      (_read_base_csv (annale_toponimi_csv job)).1
                      (list_to_set (exclude_global (annale_user_state job)))
                      (pairs_set (exclude_pages (annale_user_state job)))
                      (pairs_set (include_pages (annale_user_state job))) k))
    as [Hi|Hi]; [by left|].
  right. split; [done|]. split; [done|]. left. eauto.
Qed.

(** X4. Without any decision of the curator the included pages of a
    name are the pages of the raw extraction, and its excluded pages
    are the pages of the automatic rejections that the raw extraction
    does not have. *)
Theorem untouched_model (base : option (list base_row))
    (esclusi : option (list excl_row)) (k : list N) (p : page) :
  let job := untouched_job base esclusi in
  let m := _compute_model job in
  (p ∈ included_pages m k <-> p ∈ raw_pages job k)
  /\ (p ∈ excluded_pages m k
      <-> p ∈ rejected_pages job k /\ p ∉ raw_pages job k).
Proof.
  intros job m. subst m.
  assert (Hinc : p ∈ pages_inc_of
                   (_read_base_csv (annale_toponimi_csv job)).1
                   (list_to_set (exclude_global (annale_user_state job)))
                   (pairs_set (exclude_pages (annale_user_state job)))
                   (pairs_set (include_pages (annale_user_state job))) k
                 <-> p ∈ raw_pages job k).
  { rewrite ServerFacts.elem_of_pages_inc_of. unfold raw_pages. simpl.
    rewrite decide_False by set_solver.
    destruct ((_read_base_csv base).1 !! k) as [info|]; set_solver. }
  rewrite ServerFacts.elem_of_included_pages,
    ServerFacts.elem_of_excluded_pages, ServerFacts.elem_of_pages_exc_of.
  rewrite Hinc. unfold raw_pages, rejected_pages. simpl.
  split.
  - split; [by intros [_ ?]|]. intros Hp. split; [|done].
    destruct ((_read_base_csv base).1 !! k) as [info|] eqn:Hb;
      [|set_solver].
    by eapply (base_in_all_norms job).
  - split.
    + intros (_ & Hn & [(info & Hb & Hp)|(info & Ha & Hp & _)]).
      * rewrite Hb in Hn. done.
      * rewrite Ha. done.
    + intros [Hr Hn].
      destruct ((_read_fallback_excluded esclusi).1 !! k) as [info|] eqn:Ha;
        [|set_solver].
      split; [by eapply (auto_in_all_norms job)|]. split; [done|].
      right. exists info. split; [done|]. split; [done|]. set_solver.
Qed.

(** ** One more forced inclusion *)

Lemma pairs_set_snoc (recs : list page_rec) (rec : page_rec) :
  pairs_set (recs ++ [rec])
  = pairs_set recs
    ∪ match rec_page rec with
      | Some pp =>
          if truthy_str (_norm (Some (default [] (rec_norm rec))))
          then {[(_norm (Some (default [] (rec_norm rec))), pp)]}
          else ∅
      | None => ∅
      end.
Proof.
  unfold pairs_set. rewrite fold_left_app. simpl.
  destruct (rec_page rec) as [pp|]; [|by rewrite union_empty_r_L].
  destruct (truthy_str _); [done|by rewrite union_empty_r_L].
Qed.

Lemma force_occurrence_sets (job : job_files) (rec : page_rec) :
  let job' := force_occurrence job rec in
  pairs_set (include_pages (annale_user_state job))
    ⊆ pairs_set (include_pages (annale_user_state job'))
  /\ all_norms_of job ⊆ all_norms_of job'.
Proof.
  simpl. unfold all_norms_of. simpl. rewrite pairs_set_snoc.
  split; [set_solver|].
  intros k. rewrite !elem_of_union, !elem_of_map.
  intros [[[[?|?]|(x & -> & ?)]|?]|?]; auto.
  left. left. right. exists x. split; [done|]. set_solver.
Qed.

(** X5. Forcing one more occurrence in never removes a page from the
    included pages of any name and never adds one to its excluded
    pages; the forced page itself is included for its name. *)
Theorem forcing_is_monotone (job : job_files) (rec : page_rec)
    (k : list N) (p : page) :
  let job' := force_occurrence job rec in
  (p ∈ included_pages (_compute_model job) k ->
   p ∈ included_pages (_compute_model job') k)
  /\ (p ∈ excluded_pages (_compute_model job') k ->
      p ∈ excluded_pages (_compute_model job) k)
  /\ (rec_page rec = Some p ->
      _norm (Some (default [] (rec_norm rec))) = k ->
      truthy_str k = true ->
      p ∈ included_pages (_compute_model job') k).
Proof.
  intros job'. destruct (force_occurrence_sets job rec) as [Hin Hall].
  fold job' in Hin, Hall.
  assert (Hinc : p ∈ included_pages (_compute_model job) k ->
                 p ∈ included_pages (_compute_model job') k).
  { rewrite !ServerFacts.elem_of_included_pages,
      !ServerFacts.elem_of_pages_inc_of.
    intros [Hk Hp]. split; [by apply Hall|]. simpl.
    repeat case_decide; try done; set_solver. }
  split; [exact Hinc|]. split.
  - rewrite !ServerFacts.elem_of_excluded_pages,
      !ServerFacts.elem_of_pages_exc_of.
    intros (_ & Hn & Hsrc). simpl in Hsrc.
    assert (Hk : k ∈ all_norms_of job).
    { destruct Hsrc as [(info & Hb & _)|(info & Ha & _)].
      - by eapply base_in_all_norms.
      - by eapply auto_in_all_norms. }
    split; [done|]. split.
    + intros Hp. apply Hn.
      pose proof (proj2 (ServerFacts.elem_of_included_pages job k p)
                    (conj Hk Hp)) as Hi.
      by apply Hinc, ServerFacts.elem_of_included_pages in Hi as [_ ?].
    + destruct Hsrc as [?|(info & Ha & Hp & Hf)]; [by left|right].
      exists info. split; [done|]. split; [done|]. set_solver.
  - intros Hp Hk Ht.
    assert (Hf : (k, p) ∈ pairs_set
                   (include_pages (annale_user_state job'))).
    { simpl. rewrite pairs_set_snoc, Hp, Hk, Ht. set_solver. }
    rewrite ServerFacts.elem_of_included_pages,
      ServerFacts.elem_of_pages_inc_of.
    split; [by eapply ServerFacts.forced_in_all_norms|].
    case_decide; [done|]. split; [by right|done].
Qed.

End WithRuntime.
End ModelFacts.


(** * Saving the override state *)

Module SaveFacts.
Section WithRuntime.
Context {U : UnicodeData} {B : Builtins}.
Import Server Curation.

Local Abbreviation norm_of rec :=
  (_norm (Some (default [] (rec_norm rec)))).

(** ** The pairs of a list of records *)

Lemma elem_of_pairs_set (recs : list page_rec) (k : list N) (p : page) :
  (k, p) ∈ pairs_set recs <->
  exists rec, rec ∈ recs /\ norm_of rec = k /\ truthy_str k = true
              /\ rec_page rec = Some p.
Proof.
  induction recs as [|rec recs IH] using rev_ind.
  - split; [set_solver|]. by intros (rec & ?%elem_of_nil & _).
  - rewrite ModelFacts.pairs_set_snoc, elem_of_union, IH. split.
    + intros [(r & Hr & ?)|Hnew].
      * exists r. split; [|done]. apply elem_of_app. by left.
      * destruct (rec_page rec) as [pp|] eqn:Hp; [|set_solver].
        destruct (truthy_str (norm_of rec)) eqn:Ht; [|set_solver].
        apply elem_of_singleton in Hnew as [= -> ->].
        exists rec. split; [|done]. apply elem_of_app. right. by left.
    + intros (r & Hr & Hk & Ht & Hp).
      apply elem_of_app in Hr as [Hr|Hr%list_elem_of_singleton].
      * left. by exists r.
      * subst r. right. rewrite Hp, Hk, Ht. set_solver.
Qed.

(** ** The names that are written *)

Lemma elem_of_save_names (seen names : list (list N)) (x : list N) :
  x ∈ save_names seen names <->
  truthy_str x = true /\ x ∉ seen
  /\ exists n, n ∈ names /\ _norm (Some n) = x.
Proof.
  revert seen. induction names as [|n names IH]; intros seen; simpl.
  - rewrite elem_of_nil. split; [done|]. by intros (_ & _ & ? & ?%elem_of_nil & _).
  - destruct (truthy_str (_norm (Some n))) eqn:Ht; simpl.
    + destruct (bool_decide (_norm (Some n) ∈ seen)) eqn:Hs; simpl.
      * apply bool_decide_eq_true in Hs. rewrite IH. split.
        -- intros (? & ? & m & ? & ?). repeat split; try done.
           exists m. split; [by right|done].
        -- intros (? & Hx & m & [->|?]%elem_of_cons & Hm).
           ++ by rewrite Hm in Hs.
           ++ repeat split; try done. by exists m.
      * apply bool_decide_eq_false in Hs. rewrite elem_of_cons, IH. split.
        -- intros [->|(? & Hx & m & ? & ?)].
           ++ repeat split; try done. exists n. split; [by left|done].
           ++ repeat split; try done.
              ** intros ?. apply Hx. by right.
              ** exists m. split; [by right|done].
        -- intros (? & Hx & m & [->|?]%elem_of_cons & Hm).
           ++ by left.
           ++ destruct (decide (x = _norm (Some n))) as [->|Hne];
                [by left|right].
              repeat split; try done.
              ** by intros [?|?]%elem_of_cons.
              ** by exists m.
    + rewrite IH. split.
      * intros (? & ? & m & ? & ?). repeat split; try done.
        exists m. split; [by right|done].
      * intros (Hx & ? & m & [->|?]%elem_of_cons & Hm).
        -- by rewrite Hm, Hx in Ht.
        -- repeat split; try done. by exists m.
Qed.

Lemma save_names_NoDup (seen names : list (list N)) :
  NoDup (save_names seen names).
Proof.
  revert seen. induction names as [|n names IH]; intros seen; simpl.
  - constructor.
  - destruct (truthy_str _ && negb _); [|apply IH].
    constructor; [|apply IH].
    rewrite elem_of_save_names. intros (_ & Hx & _). apply Hx. by left.
Qed.

(** ** The records that are written *)

Lemma elem_of_save_recs (b : bool) (seen : list (list N * page))
    (recs : list page_rec) (r : page_rec) :
  r ∈ save_recs b seen recs ->
  exists rec pp, rec ∈ recs /\ rec_page rec = Some pp
                 /\ truthy_str (norm_of rec) = true
                 /\ (norm_of rec, pp) ∉ seen
                 /\ r = written b rec (norm_of rec) pp.
Proof.
  revert seen. induction recs as [|rec recs IH]; intros seen; simpl.
  - by intros ?%elem_of_nil.
  - destruct (rec_page rec) as [pp|] eqn:Hp.
    + destruct (truthy_str (norm_of rec)) eqn:Ht; simpl.
      * destruct (bool_decide ((norm_of rec, pp) ∈ seen)) eqn:Hs; simpl.
        -- intros (r0 & p0 & ? & ?)%IH. exists r0, p0. split; [by right|done].
        -- apply bool_decide_eq_false in Hs.
           intros [->|(r0 & p0 & ? & ? & ? & Hn & ?)%IH]%elem_of_cons.
           ++ exists rec, pp. split; [by left|done].
           ++ exists r0, p0. split; [by right|]. repeat split; try done.
              intros ?. apply Hn. by right.
      * intros (r0 & p0 & ? & ?)%IH. exists r0, p0. split; [by right|done].
    + intros (r0 & p0 & ? & ?)%IH. exists r0, p0. split; [by right|done].
Qed.

Lemma save_recs_keeps (b : bool) (seen : list (list N * page))
    (recs : list page_rec) (rec : page_rec) (pp : page) :
  rec ∈ recs -> rec_page rec = Some pp ->
  truthy_str (norm_of rec) = true -> (norm_of rec, pp) ∉ seen ->
  exists r, r ∈ save_recs b seen recs
            /\ rec_norm r = Some (norm_of rec) /\ rec_page r = Some pp.
Proof.
  revert seen. induction recs as [|r0 recs IH]; intros seen; simpl.
  - by intros ?%elem_of_nil.
  - intros Hin Hp Ht Hs.
    destruct (decide (rec_page r0 = Some pp /\ norm_of r0 = norm_of rec))
      as [[Hp0 Hn0]|Hne].
    + rewrite Hp0, Hn0, Ht, bool_decide_eq_false_2 by done. simpl.
      eexists. split; [by left|done].
    + apply elem_of_cons in Hin as [->|Hin]; [by destruct Hne|].
      destruct (rec_page r0) as [p0|] eqn:Hp0; [|by apply IH].
      destruct (truthy_str (norm_of r0) && negb _) eqn:Hc; [|by apply IH].
      destruct (IH ((norm_of r0, p0) :: seen) Hin Hp Ht) as (r & Hr & ?).
      { intros [[= H1 H2]|?]%elem_of_cons; [|done].
        apply Hne. by rewrite H1, H2. }
      exists r. split; [by right|done].
Qed.

Lemma save_recs_NoDup (b : bool) (seen : list (list N * page))
    (recs : list page_rec) :
  NoDup (List.map (fun r => (rec_norm r, rec_page r))
                  (save_recs b seen recs)).
Proof.
  revert seen. induction recs as [|rec recs IH]; intros seen; simpl.
  - constructor.
  - destruct (rec_page rec) as [pp|]; [|apply IH].
    destruct (truthy_str _ && negb _); [|apply IH].
    simpl. constructor; [|apply IH].
    intros (r & Hr & Hin)%list_elem_of_In%in_map_iff.
    apply list_elem_of_In, elem_of_save_recs in Hin
      as (r0 & p0 & _ & _ & _ & Hs & ->).
    simpl in Hr. injection Hr as H1 H2. apply Hs. rewrite H1, H2. by left.
Qed.

(** X6. What [_save_user_state] writes is clean: the global exclusions
    are non-empty and pairwise distinct, and every record carries a
    non-empty name and a page, no pair of name and page occurring
    twice. *)
Theorem saved_state_is_clean (st : user_state) :
  let saved := _save_user_state st in
  Forall (fun x => truthy_str x = true) (exclude_global saved)
  /\ NoDup (exclude_global saved)
  /\ Forall (fun r => exists nn pp, rec_norm r = Some nn
                                    /\ truthy_str nn = true
                                    /\ rec_page r = Some pp)
            (exclude_pages saved ++ include_pages saved)
  /\ NoDup (List.map (fun r => (rec_norm r, rec_page r))
                     (exclude_pages saved))
  /\ NoDup (List.map (fun r => (rec_norm r, rec_page r))
                     (include_pages saved)).
Proof.
  simpl. split; [|split; [|split; [|split]]].
  - apply Forall_forall. by intros x (? & _)%elem_of_save_names.
  - apply save_names_NoDup.
  - apply Forall_app. split; apply Forall_forall; intros r Hr;
      apply elem_of_save_recs in Hr as (r0 & p0 & _ & _ & Ht & _ & ->);
      by eexists _, _.
  - apply save_recs_NoDup.
  - apply save_recs_NoDup.
Qed.

(** ** With the laws of the tables *)

Context {L : NormalForm.UnicodeLaws U}.

Lemma norm_idem (s : option (list N)) : _norm (Some (_norm s)) = _norm s.
Proof.
  change (Utils.normalize_name (Some (Utils.normalize_name s))
          = Utils.normalize_name s).
  destruct (NormalizerFacts.normalize_name_shape s) as [Hf Ht].
  by apply NormalizerFacts.normalize_name_fixed.
Qed.

Lemma pairs_set_save_recs (b : bool) (recs : list page_rec) :
  pairs_set (save_recs b [] recs) = pairs_set recs.
Proof.
  apply set_eq. intros [k p]. rewrite !elem_of_pairs_set. split.
  - intros (r & Hr & Hk & Ht & Hp).
    apply elem_of_save_recs in Hr as (rec & pp & Hin & Hpp & _ & _ & ->).
    simpl in Hk, Hp. rewrite norm_idem in Hk. injection Hp as ->.
    by exists rec.
  - intros (rec & Hin & Hk & Ht & Hp).
    destruct (save_recs_keeps b [] recs rec p Hin Hp) as (r & Hr & Hn & Hq).
    { by rewrite Hk. }
    { by intros ?%elem_of_nil. }
    exists r. split; [done|]. rewrite Hn. simpl.
    by rewrite norm_idem, Hk.
Qed.

Lemma save_names_fixed (seen names : list (list N)) :
  Forall (fun x => truthy_str x = true /\ _norm (Some x) = x) names ->
  NoDup names -> (forall x, x ∈ names -> x ∉ seen) ->
  save_names seen names = names.
Proof.
  intros Hall. revert seen.
  induction Hall as [|x names [Ht Hx] _ IH]; intros seen Hnd Hs; [done|].
  apply NoDup_cons in Hnd as [Hx' Hnd]. simpl.
  rewrite Hx, Ht, bool_decide_eq_false_2 by (apply Hs; by left). simpl.
  f_equal. apply IH; [done|].
  intros y Hy [->|?]%elem_of_cons; [done|].
  apply (Hs y); [by right|done].
Qed.

Lemma save_recs_fixed (b : bool) (seen : list (list N * page))
    (recs : list page_rec) :
  Forall (fun r => exists nn pp,
            r = {| rec_norm := Some nn; rec_page := Some pp;
                   rec_raw := if b then Some (default [] (rec_raw r))
                              else None |}
            /\ truthy_str nn = true /\ _norm (Some nn) = nn) recs ->
  NoDup (List.map (fun r => (rec_norm r, rec_page r)) recs) ->
  (forall r, r ∈ recs ->
     forall nn pp, rec_norm r = Some nn -> rec_page r = Some pp ->
                   (nn, pp) ∉ seen) ->
  save_recs b seen recs = recs.
Proof.
  intros Hall. revert seen.
  induction Hall as [|r recs (nn & pp & Hr & Ht & Hn) _ IH];
    intros seen Hnd Hs; [done|].
  simpl in Hnd. apply NoDup_cons in Hnd as [Hr' Hnd].
  assert (Hrn : rec_norm r = Some nn) by (by rewrite Hr).
  assert (Hrp : rec_page r = Some pp) by (by rewrite Hr).
  simpl. rewrite Hrn, Hrp. simpl. rewrite Hn, Ht.
  rewrite bool_decide_eq_false_2 by (eapply Hs; [by left|done..]).
  simpl. f_equal.
  - destruct r as [rn rp rr]. simpl in *. injection Hr as -> -> Hraw.
    f_equal. destruct b; [|done]. by rewrite Hraw.
  - apply IH; [done|].
    intros r0 Hr0 n0 p0 Hn0 Hp0 [[= -> ->]|?]%elem_of_cons.
    + apply Hr'. apply list_elem_of_In, in_map_iff. exists r0.
      split; [by rewrite Hn0, Hp0, Hrn, Hrp|by apply list_elem_of_In].
    + by eapply (Hs r0); [right|..].
Qed.

(** X7. Saving leaves the page-level decisions as the resolver reads
    them unchanged, and saving what has been saved changes nothing. *)
Theorem saving_keeps_the_decisions (st : user_state) :
  let saved := _save_user_state st in
  pairs_set (exclude_pages saved) = pairs_set (exclude_pages st)
  /\ pairs_set (include_pages saved) = pairs_set (include_pages st)
  /\ _save_user_state saved = saved.
Proof.
  simpl. split; [apply pairs_set_save_recs|].
  split; [apply pairs_set_save_recs|].
  unfold _save_user_state. simpl. f_equal.
  - apply save_names_fixed.
    + apply Forall_forall. intros x (Ht & _ & n & _ & <-)%elem_of_save_names.
      split; [done|apply norm_idem].
    + apply save_names_NoDup.
    + by intros x _ ?%elem_of_nil.
  - apply save_recs_fixed.
    + apply Forall_forall. intros r Hr.
      apply elem_of_save_recs in Hr as (r0 & p0 & _ & _ & Ht & _ & ->).
      exists (norm_of r0), p0. split; [done|]. split; [done|apply norm_idem].
    + apply save_recs_NoDup.
    + by intros r _ nn pp _ _ ?%elem_of_nil.
  - apply save_recs_fixed.
    + apply Forall_forall. intros r Hr.
      apply elem_of_save_recs in Hr as (r0 & p0 & _ & _ & Ht & _ & ->).
      exists (norm_of r0), p0. split; [done|]. split; [done|apply norm_idem].
    + apply save_recs_NoDup.
    + by intros r _ nn pp _ _ ?%elem_of_nil.
Qed.

End WithRuntime.
End SaveFacts.


(** * The curation request *)

Module ApiFacts.
Section WithRuntime.
Context {U : UnicodeData} {B : Builtins} {L : NormalForm.UnicodeLaws U}.
Import Server Curation.

Local Abbreviation norm_of rec := (_norm (Some (default [] (rec_norm rec)))).

Lemma same_occurrence_spec (nm : list N) (pg : page) (rec : page_rec) :
  same_occurrence nm pg rec = true <->
  norm_of rec = nm /\ rec_page rec = Some pg.
Proof.
  unfold same_occurrence.
  by rewrite andb_true_iff, !bool_decide_eq_true.
Qed.

Lemma elem_of_List_filter {A} (f : A -> bool) (l : list A) (x : A) :
  x ∈ List.filter f l <-> x ∈ l /\ f x = true.
Proof. rewrite !list_elem_of_In. apply filter_In. Qed.

(** ** Loop 4: forcing occurrences in *)

Lemma include_attestation_keeps (st : user_state) (att : attestation_req)
    (rec : page_rec) :
  rec ∈ include_pages st -> rec ∈ include_pages (include_attestation st att).
Proof.
  intros H. unfold include_attestation.
  destruct (att_req_page att) as [pg|]; [|done].
  destruct (truthy_str _); simpl; [|done].
  destruct (existsb _ _); [done|]. apply elem_of_app. by left.
Qed.

Lemma include_attestation_adds (st : user_state) (att : attestation_req)
    (pg : page) :
  att_req_page att = Some pg ->
  truthy_str (_norm (Some (att_term att))) = true ->
  exists rec, rec ∈ include_pages (include_attestation st att)
              /\ norm_of rec = _norm (Some (att_term att))
              /\ rec_page rec = Some (coerce_page pg).
Proof.
  intros Hp Ht. unfold include_attestation. rewrite Hp, Ht. simpl.
  destruct (existsb _ _) eqn:He.
  - apply existsb_exists in He as (rec & Hin & Hs).
    apply same_occurrence_spec in Hs. exists rec.
    split; [by apply list_elem_of_In|done].
  - eexists. split; [apply elem_of_app; right; apply list_elem_of_here|].
    simpl. split; [apply SaveFacts.norm_idem|done].
Qed.

Lemma include_attestations_keep (atts : list attestation_req)
    (st : user_state) (rec : page_rec) :
  rec ∈ include_pages st ->
  rec ∈ include_pages (fold_left include_attestation atts st).
Proof.
  revert st. induction atts as [|a atts IH]; intros st H; [done|].
  simpl. apply IH. by apply include_attestation_keeps.
Qed.

Lemma include_attestations_add (atts : list attestation_req)
    (st : user_state) (att : attestation_req) (pg : page) :
  att ∈ atts -> att_req_page att = Some pg ->
  truthy_str (_norm (Some (att_term att))) = true ->
  exists rec, rec ∈ include_pages (fold_left include_attestation atts st)
              /\ norm_of rec = _norm (Some (att_term att))
              /\ rec_page rec = Some (coerce_page pg).
Proof.
  revert st. induction atts as [|a atts IH]; intros st Hin Hp Ht.
  - by apply elem_of_nil in Hin.
  - simpl. apply elem_of_cons in Hin as [<-|Hin]; [|by apply IH].
    destruct (include_attestation_adds st att pg Hp Ht) as (rec & Hr & ?).
    exists rec. split; [by apply include_attestations_keep|done].
Qed.

(** X8. Whatever else a request asks for, an occurrence it forces in
    is among the included pages of its name in the model computed
    after the request. *)
Theorem forced_occurrence_is_included (job : job_files) (req : request)
    (att : attestation_req) (pg : page) :
  att ∈ include_attestations req ->
  att_req_page att = Some pg ->
  truthy_str (_norm (Some (att_term att))) = true ->
  coerce_page pg
    ∈ included_pages (_compute_model (api_exclusions job req))
                     (_norm (Some (att_term att))).
Proof.
  intros Hin Hp Ht.
  set (nm := _norm (Some (att_term att))) in *.
  set (job' := api_exclusions job req).
  assert (Hf : (nm, coerce_page pg)
               ∈ pairs_set (include_pages (annale_user_state job'))).
  { simpl. rewrite SaveFacts.pairs_set_save_recs.
    apply SaveFacts.elem_of_pairs_set.
    destruct (include_attestations_add (include_attestations req)
                (fold_left include_toponym (include_toponyms req)
                   (fold_left exclude_attestation (exclude_attestations req)
                      (fold_left exclude_toponym (exclude_toponyms req)
                         (annale_user_state job))))
                att pg Hin Hp Ht) as (rec & Hr & Hn & Hq).
    exists rec. by repeat split. }
  apply ServerFacts.elem_of_included_pages.
  split; [by eapply ServerFacts.forced_in_all_norms|].
  apply ServerFacts.elem_of_pages_inc_of. case_decide; [done|].
  split; [by right|done].
Qed.

(** ** Loops 3 and 4: taking a name back in *)

(** No exclusion of [nm] is left in [st]. *)
Local Abbreviation unwound nm st :=
  ((forall x, x ∈ exclude_global st -> _norm (Some x) <> nm)
   /\ (forall rec, rec ∈ exclude_pages st -> norm_of rec <> nm)).

Lemma include_toponym_unwinds (st : user_state) (t : list N) :
  truthy_str (_norm (Some t)) = true ->
  unwound (_norm (Some t)) (include_toponym st t).
Proof.
  intros Ht. unfold include_toponym. rewrite Ht. simpl. split.
  - intros x [_ Hx]%elem_of_List_filter.
    by apply negb_true_iff, bool_decide_eq_false in Hx.
  - intros rec [_ Hx]%elem_of_List_filter.
    by apply negb_true_iff, bool_decide_eq_false in Hx.
Qed.

Lemma include_toponym_keeps (nm : list N) (st : user_state) (t : list N) :
  unwound nm st -> unwound nm (include_toponym st t).
Proof.
  intros [Hg Hp]. unfold include_toponym.
  destruct (truthy_str _); simpl; [|done]. split.
  - intros x [Hx _]%elem_of_List_filter. by apply Hg.
  - intros rec [Hx _]%elem_of_List_filter. by apply Hp.
Qed.

Lemma include_attestation_keeps_unwound (nm : list N) (st : user_state)
    (att : attestation_req) :
  unwound nm st -> unwound nm (include_attestation st att).
Proof.
  intros [Hg Hp]. unfold include_attestation.
  destruct (att_req_page att) as [pg|]; [|done].
  destruct (truthy_str _); simpl; [|done]. split; [done|].
  intros rec [Hx _]%elem_of_List_filter. by apply Hp.
Qed.

Lemma include_toponyms_keep (nm : list N) (ts : list (list N))
    (st : user_state) :
  unwound nm st -> unwound nm (fold_left include_toponym ts st).
Proof.
  revert st. induction ts as [|a ts IH]; intros st H; [done|].
  simpl. apply IH. by apply include_toponym_keeps.
Qed.

Lemma include_toponyms_unwind (ts : list (list N)) (st : user_state)
    (t : list N) :
  t ∈ ts -> truthy_str (_norm (Some t)) = true ->
  unwound (_norm (Some t)) (fold_left include_toponym ts st).
Proof.
  revert st. induction ts as [|a ts IH]; intros st Hin Ht.
  - by apply elem_of_nil in Hin.
  - simpl. apply elem_of_cons in Hin as [<-|Hin]; [|by apply IH].
    apply include_toponyms_keep. by apply include_toponym_unwinds.
Qed.

Lemma include_attestations_keep_unwound (nm : list N)
    (atts : list attestation_req) (st : user_state) :
  unwound nm st -> unwound nm (fold_left include_attestation atts st).
Proof.
  revert st. induction atts as [|a atts IH]; intros st H; [done|].
  simpl. apply IH. by apply include_attestation_keeps_unwound.
Qed.

(** X9. Taking a name back in undoes every exclusion of it: after a
    request that lists the name under [include_toponyms] the name is
    not excluded globally, none of its pages is excluded by the
    curator, and every page on which the raw extraction has it is
    included. *)
Theorem reincluded_toponym_is_unwound (job : job_files) (req : request)
    (t : list N) :
  t ∈ include_toponyms req ->
  truthy_str (_norm (Some t)) = true ->
  let nm := _norm (Some t) in
  let job' := api_exclusions job req in
  nm ∉ exclude_global (annale_user_state job')
  /\ (forall p, (nm, p) ∉ pairs_set (exclude_pages (annale_user_state job')))
  /\ (forall p, p ∈ raw_pages job nm ->
                p ∈ included_pages (_compute_model job') nm).
Proof.
  intros Hin Ht nm job'.
  pose proof (include_attestations_keep_unwound nm
                (include_attestations req) _
                (include_toponyms_unwind (include_toponyms req)
                   (fold_left exclude_attestation (exclude_attestations req)
                      (fold_left exclude_toponym (exclude_toponyms req)
                         (annale_user_state job)))
                   t Hin Ht)) as [Hg Hp].
  fold (apply_request (annale_user_state job) req) in Hg, Hp.
  assert (H1 : nm ∉ exclude_global (annale_user_state job')).
  { simpl. intros (_ & _ & n & Hn & He)%SaveFacts.elem_of_save_names.
    by apply (Hg n). }
  assert (H2 : forall p,
             (nm, p) ∉ pairs_set (exclude_pages (annale_user_state job'))).
  { intros p. simpl. rewrite SaveFacts.pairs_set_save_recs.
    intros (rec & Hr & He & _)%SaveFacts.elem_of_pairs_set.
    by apply (Hp rec). }
  split; [done|]. split; [done|].
  intros p Hraw. unfold raw_pages in Hraw.
  destruct ((_read_base_csv (annale_toponimi_csv job)).1 !! nm)
    as [info|] eqn:Hb; [|set_solver].
  apply ServerFacts.elem_of_included_pages.
  split; [by apply (ModelFacts.base_in_all_norms job' nm info)|].
  apply ServerFacts.elem_of_pages_inc_of. case_decide as Hd.
  - exfalso. apply H1. by apply elem_of_list_to_set in Hd.
  - split; [left; by exists info|]. intros He. by apply H2 in He.
Qed.

(** ** Loops 1 and 2: excluding a name *)

(** [nm] is excluded everywhere and has no forced page in [st]. *)
Local Abbreviation banned nm st :=
  (nm ∈ exclude_global st
   /\ (forall rec, rec ∈ include_pages st -> norm_of rec <> nm)).

Lemma exclude_toponym_bans (st : user_state) (t : list N) :
  truthy_str (_norm (Some t)) = true ->
  banned (_norm (Some t)) (exclude_toponym st t).
Proof.
  intros Ht. unfold exclude_toponym. rewrite Ht. simpl. split.
  - destruct (bool_decide _) eqn:Hd; simpl.
    + by apply bool_decide_eq_true in Hd.
    + apply elem_of_app. right. apply list_elem_of_here.
  - intros rec [_ Hx]%elem_of_List_filter.
    by apply negb_true_iff, bool_decide_eq_false in Hx.
Qed.

Lemma exclude_toponym_keeps (nm : list N) (st : user_state) (t : list N) :
  banned nm st -> banned nm (exclude_toponym st t).
Proof.
  intros [Hg Hp]. unfold exclude_toponym. simpl. split.
  - destruct (_ && _); [|done]. apply elem_of_app. by left.
  - intros rec [Hx _]%elem_of_List_filter. by apply Hp.
Qed.

Lemma exclude_attestation_keeps (nm : list N) (st : user_state)
    (att : attestation_req) :
  banned nm st -> banned nm (exclude_attestation st att).
Proof.
  intros [Hg Hp]. unfold exclude_attestation.
  destruct (att_req_page att) as [pg|]; [|done].
  destruct (truthy_str _); simpl; [|done]. split; [done|].
  intros rec [Hx _]%elem_of_List_filter. by apply Hp.
Qed.

Lemma exclude_toponyms_keep (nm : list N) (ts : list (list N))
    (st : user_state) :
  banned nm st -> banned nm (fold_left exclude_toponym ts st).
Proof.
  revert st. induction ts as [|a ts IH]; intros st H; [done|].
  simpl. apply IH. by apply exclude_toponym_keeps.
Qed.

Lemma exclude_toponyms_ban (ts : list (list N)) (st : user_state)
    (t : list N) :
  t ∈ ts -> truthy_str (_norm (Some t)) = true ->
  banned (_norm (Some t)) (fold_left exclude_toponym ts st).
Proof.
  revert st. induction ts as [|a ts IH]; intros st Hin Ht.
  - by apply elem_of_nil in Hin.
  - simpl. apply elem_of_cons in Hin as [<-|Hin]; [|by apply IH].
    apply exclude_toponyms_keep. by apply exclude_toponym_bans.
Qed.

Lemma exclude_attestations_keep (nm : list N)
    (atts : list attestation_req) (st : user_state) :
  banned nm st -> banned nm (fold_left exclude_attestation atts st).
Proof.
  revert st. induction atts as [|a atts IH]; intros st H; [done|].
  simpl. apply IH. by apply exclude_attestation_keeps.
Qed.

(** X10. Excluding a name everywhere takes all its pages out: after a
    request that lists the name under [exclude_toponyms] and includes
    nothing, the name has no included page and is reported as
    excluded with [is_global] set. *)
Theorem excluded_toponym_has_no_page (job : job_files) (req : request)
    (t : list N) :
  t ∈ exclude_toponyms req ->
  truthy_str (_norm (Some t)) = true ->
  include_toponyms req = [] -> include_attestations req = [] ->
  let m := _compute_model (api_exclusions job req) in
  included_pages m (_norm (Some t)) = []
  /\ exists e, final_excluded m !! _norm (Some t) = Some e
               /\ exc_is_global e = true.
Proof.
  intros Hin Ht Hit Hia m. subst m.
  set (nm := _norm (Some t)) in *. set (job' := api_exclusions job req).
  pose proof (exclude_attestations_keep nm (exclude_attestations req) _
                (exclude_toponyms_ban (exclude_toponyms req)
                   (annale_user_state job) t Hin Ht)) as [Hg Hp].
  assert (H1 : nm ∈ exclude_global (annale_user_state job')).
  { simpl. apply SaveFacts.elem_of_save_names. split; [done|].
    split; [by intros ?%elem_of_nil|]. exists nm.
    split; [|apply SaveFacts.norm_idem].
    unfold apply_request. by rewrite Hit, Hia. }
  assert (H2 : forall p,
             (nm, p) ∉ pairs_set (include_pages (annale_user_state job'))).
  { intros p. simpl. rewrite SaveFacts.pairs_set_save_recs.
    intros (rec & Hr & He & _)%SaveFacts.elem_of_pairs_set.
    unfold apply_request in Hr. rewrite Hit, Hia in Hr.
    by apply (Hp rec). }
  assert (Hgs : nm ∈ (list_to_set (exclude_global (annale_user_state job'))
                      : gset (list N))) by by apply elem_of_list_to_set.
  split.
  - apply elem_of_nil_inv. intros p.
    rewrite ServerFacts.elem_of_included_pages,
      ServerFacts.elem_of_pages_inc_of.
    intros [_ Hf]. rewrite decide_True in Hf by done. by apply H2 in Hf.
  - rewrite ModelFacts.lookup_final_excluded. rewrite decide_True.
    + eexists. split; [done|]. simpl. by apply bool_decide_eq_true.
    + split; [by apply ServerFacts.global_in_all_norms|by left].
Qed.

End WithRuntime.
End ApiFacts.


(** * The filtered table *)

Module CsvFacts.
Section WithRuntime.
Context {U : UnicodeData} {B : Builtins}.
Import Server Curation.

Local Abbreviation add_display d :=
  (fun (page_map : gmap page (gset (list N))) p =>
     <[p := default ∅ (page_map !! p) ∪ {[d]}]> page_map).

Lemma lookup_add_displays (d : list N) (pages : list page)
    (pm : gmap page (gset (list N))) (q : page) :
  fold_left (add_display d) pages pm !! q
  = if decide (q ∈ pages) then Some (default ∅ (pm !! q) ∪ {[d]})
    else pm !! q.
Proof.
  revert pm. induction pages as [|p pages IH]; intros pm.
  - destruct (decide (q ∈ [])) as [H|_]; [by apply elem_of_nil in H|done].
  - change (fold_left (add_display d) (p :: pages) pm)
      with (fold_left (add_display d) pages (add_display d pm p)).
    rewrite IH. destruct (decide (q = p)) as [->|Hne].
    + rewrite lookup_insert_eq.
      destruct (decide (p ∈ p :: pages)) as [_|H];
        [|exfalso; apply H, list_elem_of_here].
      destruct (decide (p ∈ pages)); [|done]. simpl. f_equal. set_solver.
    + rewrite lookup_insert_ne by done.
      destruct (decide (q ∈ pages)) as [Hq|Hq];
        destruct (decide (q ∈ p :: pages)) as [Hq'|Hq']; try done.
      * exfalso. apply Hq'. by right.
      * by apply elem_of_cons in Hq' as [?|?].
Qed.

(** What [page_map] holds once the loops are over. *)
Lemma page_map_of_spec (fi : gmap (list N) included_entry) (p : page) :
  (is_Some (page_map_of fi !! p) <->
     exists k e, fi !! k = Some e /\ p ∈ inc_pages e)
  /\ (forall d, d ∈ default ∅ (page_map_of fi !! p) <->
        exists k e, fi !! k = Some e /\ inc_display e = d
                    /\ p ∈ inc_pages e).
Proof.
  unfold page_map_of.
  apply (map_fold_weak_ind
           (fun (pm : gmap page (gset (list N))) fi =>
              (is_Some (pm !! p) <->
                 exists k e, fi !! k = Some e /\ p ∈ inc_pages e)
              /\ (forall d, d ∈ default ∅ (pm !! p) <->
                    exists k e, fi !! k = Some e /\ inc_display e = d
                                /\ p ∈ inc_pages e))).
  - split.
    + rewrite lookup_empty. split; [by intros [? ?]|].
      by intros (k & e & ?%lookup_empty_Some & _).
    + intros d. rewrite lookup_empty. simpl. split; [set_solver|].
      by intros (k & e & ?%lookup_empty_Some & _).
  - intros k e m pm Hk [IH1 IH2]. rewrite lookup_add_displays.
    assert (Hex : forall (Q : included_entry -> Prop),
               (exists k0 e0, <[k:=e]> m !! k0 = Some e0 /\ Q e0)
               <-> Q e \/ exists k0 e0, m !! k0 = Some e0 /\ Q e0).
    { intros Q. split.
      - intros (k0 & e0 & Hl & HQ).
        apply lookup_insert_Some in Hl as [[-> ->]|[_ Hl]];
          [by left|right; eauto].
      - intros [HQ|(k0 & e0 & Hl & HQ)].
        + exists k, e. by rewrite lookup_insert_eq.
        + exists k0, e0. split; [|done]. rewrite lookup_insert_ne; [done|].
          intros ->. congruence. }
    split.
    + rewrite (Hex (fun e0 => p ∈ inc_pages e0)), <- IH1.
      case_decide; [|tauto]. split; [by left|by eexists].
    + intros d.
      rewrite (Hex (fun e0 => inc_display e0 = d /\ p ∈ inc_pages e0)),
        <- IH2.
      case_decide as Hp; simpl; [set_solver|tauto].
Qed.

#[local] Instance lower_le_total : Total lower_le.
Proof. intros x y. apply ModelFacts.str_leb_total. Qed.

#[local] Instance lower_le_trans : Transitive lower_le.
Proof. intros x y z. apply ModelFacts.str_leb_trans. Qed.

Lemma out_pages_of_rows (fi : gmap (list N) included_entry)
    (pm : gmap page page_meta_rec) :
  List.map out_page (_write_filtered_csv fi pm)
  = sorted_pages (dom (page_map_of fi)).
Proof.
  unfold _write_filtered_csv. rewrite map_map. simpl. apply map_id.
Qed.

(** X11. The filtered table has one row for each page on which some
    name is still included, in the order of the pages; the row of a
    page lists, once each and in the order of their lower-case forms,
    the display forms of the names included on that page. *)
Theorem filtered_rows (job : job_files) :
  let m := _compute_model job in
  let rows := _rebuild_filtered_csv job in
  StronglySorted page_le (List.map out_page rows)
  /\ NoDup (List.map out_page rows)
  /\ (forall p, p ∈ List.map out_page rows <->
                exists k, p ∈ included_pages m k)
  /\ Forall (fun row =>
               NoDup (out_terms row)
               /\ StronglySorted lower_le (out_terms row)
               /\ forall d, d ∈ out_terms row <->
                    exists k e, final_included m !! k = Some e
                                /\ inc_display e = d
                                /\ out_page row ∈ inc_pages e) rows.
Proof.
  intros m rows. subst rows. unfold _rebuild_filtered_csv. fold m.
  rewrite out_pages_of_rows.
  split; [apply ModelFacts.sorted_pages_sorted|].
  split; [apply ModelFacts.sorted_pages_NoDup|]. split.
  - intros p. rewrite ServerFacts.elem_of_sorted_pages, elem_of_dom.
    rewrite (proj1 (page_map_of_spec (final_included m) p)).
    unfold included_pages. split.
    + intros (k & e & Hl & Hp). exists k. by rewrite Hl.
    + intros (k & Hp). destruct (final_included m !! k) as [e|] eqn:Hl;
        [by exists k, e|by apply elem_of_nil in Hp].
  - apply Forall_forall. intros row Hrow.
    apply list_elem_of_In, in_map_iff in Hrow as (p & <- & _). simpl.
    split; [|split].
    + rewrite merge_sort_Permutation. apply NoDup_elements.
    + apply StronglySorted_merge_sort; apply _.
    + intros d. rewrite merge_sort_Permutation, elem_of_elements.
      apply page_map_of_spec.
Qed.

End WithRuntime.
End CsvFacts.


(** * The resolver and the service *)

Module ResolverFacts.
Section WithRuntime.
Context {U : UnicodeData} {B : Builtins}.
Variable service : list event -> list N -> option (list N) -> http_outcome.
Import Geocode.

(** ** What a resolution sends *)

Lemma requests_of_app (t1 t2 : list event) :
  requests_of (t1 ++ t2) = requests_of t1 ++ requests_of t2.
Proof. apply List.filter_app. Qed.

(** One search: the request, and at most a note for the debugging. *)
Lemma nominatim_search_effects q cc label (w : world) :
  let w' := snd (nominatim_search service q cc label w) in
  requests_of (w_trace w')
  = requests_of (w_trace w) ++ [EvSearch label q cc]
  /\ files_of w' = files_of w.
Proof.
  unfold nominatim_search, bind, _dump_debug, emit, ret, files_of.
  destruct (service (w_trace w) q cc) as [|status body]; simpl.
  - by rewrite !requests_of_app, <- app_assoc, app_nil_r.
  - destruct (status =? 200)%Z; simpl;
      [|by rewrite !requests_of_app, <- app_assoc, app_nil_r].
    destruct body; simpl;
      rewrite !requests_of_app; simpl; by rewrite ?app_nil_r.
Qed.

Lemma for_each_cons {X S} (x : X) (l : list X) (body : X -> S -> M S)
    (acc : S) (w : world) :
  for_each (x :: l) body acc w
  = for_each l body (fst (body x acc w)) (snd (body x acc w)).
Proof. simpl. unfold bind. by destruct (body x acc w). Qed.

Local Abbreviation gather_step :=
  (fun '(label, q, cc) (acc : list hit * list (option (list N) * option Z)) =>
     let* arr := nominatim_search service q cc label in
     let* _ := emit EvSleep in
     match arr with
     | HttpErrorMarker :: _ => ret acc
     | _ => ret (collect_new arr acc)
     end).

Lemma gather_step_effects label q cc acc (w : world) :
  let w' := snd (gather_step (label, q, cc) acc w) in
  requests_of (w_trace w')
  = requests_of (w_trace w) ++ [EvSearch label q cc; EvSleep]
  /\ files_of w' = files_of w.
Proof.
  cbv zeta. unfold bind.
  destruct (nominatim_search_effects q cc label w) as [Ht Hf].
  destruct (nominatim_search service q cc label w) as [arr w1].
  simpl in Ht, Hf. unfold emit, ret.
  assert (Hgoal :
    requests_of (w_trace w1 ++ [EvSleep])
    = requests_of (w_trace w) ++ [EvSearch label q cc; EvSleep]).
  { rewrite requests_of_app, Ht, <- app_assoc. done. }
  unfold files_of in *.
  destruct arr as [|[|h] arr]; simpl; (split; [exact Hgoal|exact Hf]).
Qed.

Lemma gather_loop_effects
    (vs : list (list N * list N * option (list N))) acc (w : world) :
  let w' := snd (for_each vs gather_step acc w) in
  requests_of (w_trace w')
  = requests_of (w_trace w)
    ++ flat_map (fun '(label, q, cc) => [EvSearch label q cc; EvSleep]) vs
  /\ files_of w' = files_of w.
Proof.
  revert acc w. induction vs as [|[[label q] cc] vs IH]; intros acc w.
  - simpl. by rewrite app_nil_r.
  - cbv zeta. rewrite for_each_cons.
    destruct (gather_step_effects label q cc acc w) as [Ht Hf].
    destruct (gather_step (label, q, cc) acc w) as [acc1 w1].
    simpl in Ht, Hf.
    destruct (IH acc1 w1) as [Ht' Hf']. cbv zeta in Ht', Hf'.
    cbn [fst snd]. rewrite Ht', Ht, Hf', Hf. split; [|done].
    by rewrite <- app_assoc.
Qed.

Lemma select_best_effects (name : list N) (l : list hit) (w : world) :
  let w' := snd (select_best name l w) in
  requests_of (w_trace w') = requests_of (w_trace w)
  /\ files_of w' = files_of w.
Proof.
  unfold select_best. destruct l as [|h l]; [done|].
  destruct (9 <=? _)%Z; [|done].
  unfold bind, _dump_debug, emit, ret, files_of. simpl.
  by rewrite requests_of_app, app_nil_r.
Qed.

Lemma gather_hits_run (name : list N) (w : world) :
  gather_hits service name w
  = let r := for_each (variants_of name) gather_step ([], []) w in
    (fst (fst r), snd r).
Proof.
  unfold gather_hits, bind, ret.
  by destruct (for_each (variants_of name) _ _ w).
Qed.

Lemma geocode_name_robust_run (name : list N) (w : world) :
  geocode_name_robust service name w
  = let r := gather_hits service name w in select_best name (fst r) (snd r).
Proof.
  unfold geocode_name_robust, bind.
  by destruct (gather_hits service name w).
Qed.

Lemma geocode_name_robust_effects (name : list N) (w : world) :
  let w' := snd (geocode_name_robust service name w) in
  requests_of (w_trace w')
  = requests_of (w_trace w) ++ requests_for name
  /\ files_of w' = files_of w.
Proof.
  cbv zeta. rewrite geocode_name_robust_run, gather_hits_run. cbv zeta.
  cbn [fst snd].
  destruct (gather_loop_effects (variants_of name) ([], []) w) as [Ht Hf].
  destruct (for_each (variants_of name) _ _ w) as [acc w1].
  cbv zeta in Ht, Hf. cbn [fst snd] in *.
  destruct (select_best_effects name acc.1 w1) as [Ht' Hf'].
  cbv zeta in Ht', Hf'. by rewrite Ht', Hf', Ht, Hf.
Qed.

(** X14. As long as the service answers within its result format (a
    failure of the network, a status other than 200, a body that is
    not a JSON list, or a list of result objects), resolving a name
    sends one request for each of its variants, in their order and
    each followed by one pause, and nothing else: three requests, or
    four for a name with an exonym.  It leaves the files of the job
    alone. *)
Theorem one_pause_after_each_search (name : list N) (w : world) :
  let w' := snd (geocode_name_robust service name w) in
  requests_of (w_trace w')
  = requests_of (w_trace w) ++ requests_for name
  /\ (length (requests_for name) = 6 \/ length (requests_for name) = 8)%nat
  /\ files_of w' = files_of w.
Proof.
  destruct (geocode_name_robust_effects name w) as [Ht Hf].
  split; [done|]. split; [|done].
  unfold requests_for, variants_of.
  destruct (Py.assoc _ EXONYMS_IT) as [alias|]; [|by left].
  destruct (truthy_str alias && _); [by right|by left].
Qed.

(** ** What a resolution collects *)

(** The results collected so far have distinct keys, all marked as
    seen. *)
Local Abbreviation distinct_so_far acc :=
  (NoDup (List.map seen_key (fst acc))
   /\ forall h : hit, h ∈ fst acc -> seen_key h ∈ snd acc).

Lemma collect_new_distinct (arr : list search_item)
    (acc : list hit * list (option (list N) * option Z)) :
  distinct_so_far acc -> distinct_so_far (collect_new arr acc).
Proof.
  revert acc. induction arr as [|[|h] arr IH]; intros [hits seen] Hacc;
    simpl; [done|by apply IH|].
  destruct (bool_decide _) eqn:Hd; [by apply IH|].
  apply bool_decide_eq_false in Hd. apply IH.
  destruct Hacc as [Hnd Hseen]. simpl in *. split.
  - rewrite map_app. simpl. apply NoDup_app. split; [done|].
    split; [|apply NoDup_singleton].
    intros k Hk ->%list_elem_of_singleton. apply Hd.
    apply list_elem_of_In, in_map_iff in Hk as (h' & Heq & Hh').
    change (seen_key h ∈ seen). rewrite <- Heq.
    by apply Hseen, list_elem_of_In.
  - intros h' [Hh'|Hh']%elem_of_app.
    + right. by apply Hseen.
    + apply list_elem_of_singleton in Hh' as ->. by left.
Qed.

Lemma gather_step_distinct label q cc acc (w : world) :
  distinct_so_far acc ->
  distinct_so_far (fst (gather_step (label, q, cc) acc w)).
Proof.
  intros Hacc. unfold bind.
  destruct (nominatim_search service q cc label w) as [arr w1].
  unfold emit, ret.
  destruct arr as [|[|h] arr]; cbn [fst]; try done;
    by apply collect_new_distinct.
Qed.

Lemma gather_loop_distinct
    (vs : list (list N * list N * option (list N))) acc (w : world) :
  distinct_so_far acc ->
  distinct_so_far (fst (for_each vs gather_step acc w)).
Proof.
  revert acc w. induction vs as [|[[label q] cc] vs IH]; intros acc w Hacc.
  - done.
  - rewrite for_each_cons. apply IH. by apply gather_step_distinct.
Qed.

(** X15. The resolver never weighs the same place twice: the results
    it collects over all the variants of a name have pairwise distinct
    pairs of [osm_type] and [osm_id]. *)
Theorem collected_hits_are_distinct (name : list N) (w : world) :
  NoDup (List.map seen_key (fst (gather_hits service name w))).
Proof.
  rewrite gather_hits_run. cbv zeta. cbn [fst].
  apply (gather_loop_distinct (variants_of name) ([], []) w).
  split; [apply NoDup_nil_2|]. by intros h ?%elem_of_nil.
Qed.

(** ** What a resolution accepts *)

Lemma rank_tier_with_coordinates (h : hit) :
  is_Some (h_lat h) -> is_Some (h_lon h) -> (_rank_tier h < 9)%Z.
Proof.
  intros Hlat Hlon. unfold _rank_tier.
  rewrite (bool_decide_eq_true_2 _ Hlat), (bool_decide_eq_true_2 _ Hlon).
  change (true && true) with true. cbv zeta.
  repeat match goal with
         | |- context [if ?b then _ else _] => destruct b
         end; lia.
Qed.

(** X16. A name with an acceptable candidate is never rejected: when
    one of the collected results has a tier below 9 (as every result
    with both coordinates has), the resolver returns a collected
    result, of that tier or a better one. *)
Theorem acceptable_candidate_is_never_rejected (name : list N) (w : world)
    (h : hit) :
  h ∈ fst (gather_hits service name w) ->
  (_rank_tier h < 9)%Z \/ (is_Some (h_lat h) /\ is_Some (h_lon h)) ->
  exists best,
    best ∈ fst (gather_hits service name w)
    /\ (_rank_tier best <= _rank_tier h)%Z
    /\ fst (geocode_name_robust service name w)
       = (Some (_normalize_hit_with_geom best name), None).
Proof.
  intros Hin Hacc.
  assert (Ht : (_rank_tier h < 9)%Z).
  { destruct Hacc as [?|[? ?]]; [done|by apply rank_tier_with_coordinates]. }
  rewrite RankingFacts.geocode_name_robust_outcome.
  set (hits := fst (gather_hits service name w)) in *.
  set (q := Utils._norm (Some name)).
  assert (Hne : hits <> []) by (intros E; rewrite E in Hin; by apply elem_of_nil in Hin).
  destruct (RankingFacts.sort_hits_head_tier q h hits Hne) as [Hb Hle].
  destruct (sort_hits q hits) as [|best s] eqn:Hs.
  { by apply RankingFacts.sort_hits_nil in Hs. }
  simpl in Hb, Hle. exists best. split; [done|].
  assert (Hbh : (_rank_tier best <= _rank_tier h)%Z) by (by apply Hle).
  split; [done|]. unfold outcome_of.
  destruct (9 <=? _rank_tier best)%Z eqn:H9; [|done].
  apply Z.leb_le in H9. lia.
Qed.

End WithRuntime.
End ResolverFacts.


(** * The terms of a batch *)

Module GroupingFacts.

(** ** Insertion-ordered dictionaries *)

Section Dict.
Context {V : Type}.

Lemma assoc_dict_set (k k' : list N) (v : V) (d : list (list N * V)) :
  Py.assoc k' (Py.dict_set k v d)
  = if decide (k = k') then Some v else Py.assoc k' d.
Proof.
  induction d as [|[k0 v0] d IH]; simpl.
  - by repeat case_decide.
  - destruct (decide (k0 = k)) as [->|Hne]; simpl.
    + by repeat case_decide.
    + rewrite IH. repeat case_decide; congruence.
Qed.

Lemma dict_set_keys (k : list N) (v : V) (d : list (list N * V)) (k' : list N) :
  k' ∈ List.map fst (Py.dict_set k v d) <-> k' = k \/ k' ∈ List.map fst d.
Proof.
  induction d as [|[k0 v0] d IH]; simpl.
  - rewrite list_elem_of_singleton, elem_of_nil. tauto.
  - destruct (decide (k0 = k)) as [->|Hne]; simpl.
    + rewrite !elem_of_cons. tauto.
    + rewrite !elem_of_cons, IH. tauto.
Qed.

Lemma dict_set_NoDup (k : list N) (v : V) (d : list (list N * V)) :
  NoDup (List.map fst d) -> NoDup (List.map fst (Py.dict_set k v d)).
Proof.
  induction d as [|[k0 v0] d IH]; simpl; intros Hnd.
  - apply NoDup_singleton.
  - apply NoDup_cons in Hnd as [Hk0 Hnd].
    destruct (decide (k0 = k)) as [->|Hne]; simpl.
    + by apply NoDup_cons.
    + apply NoDup_cons. split; [|by apply IH].
      rewrite dict_set_keys. intros [?|?]; [by apply Hne|done].
Qed.

Lemma elem_of_dict (k : list N) (v : V) (d : list (list N * V)) :
  NoDup (List.map fst d) -> (k, v) ∈ d <-> Py.assoc k d = Some v.
Proof.
  induction d as [|[k0 v0] d IH]; simpl; intros Hnd.
  - by rewrite elem_of_nil.
  - apply NoDup_cons in Hnd as [Hk0 Hnd]. rewrite elem_of_cons, IH by done.
    destruct (decide (k0 = k)) as [->|Hne].
    + split; [|intros [= ->]; by left].
      intros [[= ->]|Ha]; [done|]. exfalso. apply Hk0.
      apply IH in Ha; [|done].
      apply list_elem_of_In, in_map_iff. exists (k, v).
      split; [done|by apply list_elem_of_In].
    + split; [|by right]. intros [[= ? ?]|?]; [congruence|done].
Qed.
End Dict.

Section WithRuntime.
Context {U : UnicodeData} {B : Builtins}.
Import Geocode.

Local Abbreviation norm t := (Utils._norm (Some t)).

(** The body of the inner loop. *)
Local Abbreviation add_mention :=
  (fun (occ : list (list N * occurrence)) (m : list N * list N) =>
     let k := norm (fst m) in
     let d := default {| occ_raw := fst m; occ_pages := ∅ |}
                      (Py.assoc k occ) in
     Py.dict_set k
       {| occ_raw := if (length (occ_raw d) <=? length (fst m))%nat
                     then occ_raw d else fst m;
          occ_pages := occ_pages d ∪ {[snd m]} |}
       occ).

Lemma collect_by_mentions (rows : list csv_row)
    (occ : list (list N * occurrence)) :
  fold_left
    (fun occ r =>
       let pagina := PyStr.strip (csv_pagina r) in
       let luoghi := PyStr.strip (csv_luogo r) in
       if negb (truthy_str luoghi) then occ
       else
         fold_left
           (fun occ t =>
              let k := Utils._norm (Some t) in
              let d := default {| occ_raw := t; occ_pages := ∅ |}
                               (Py.assoc k occ) in
              Py.dict_set k
                {| occ_raw := if (length (occ_raw d) <=? length t)%nat
                              then occ_raw d else t;
                   occ_pages := occ_pages d ∪ {[pagina]} |}
                occ)
           (_split_semicolon luoghi) occ)
    rows occ
  = fold_left add_mention (mentions rows) occ.
Proof.
  revert occ. induction rows as [|r rows IH]; intros occ; [done|].
  unfold mentions. simpl. rewrite fold_left_app. fold (mentions rows).
  rewrite IH. f_equal. cbv zeta.
  destruct (PyStr.strip (csv_luogo r)) as [|c l] eqn:Hl; [done|].
  cbn [truthy_str negb]. generalize (_split_semicolon (c :: l)).
  intros ts. revert occ. induction ts as [|t ts IHt]; intros occ; [done|].
  simpl. by rewrite IHt.
Qed.

(** What the entry [d] filed under [k] tells about the mentions [l]. *)
Local Abbreviation files k d l :=
  (norm (occ_raw d) = k
   /\ (exists p, (occ_raw d, p) ∈ l)
   /\ (forall p, p ∈ occ_pages d <-> exists t, (t, p) ∈ l /\ norm t = k)
   /\ (forall t p, (t, p) ∈ l -> norm t = k ->
                   (length (occ_raw d) <= length t)%nat)).

Local Abbreviation grouped occ l :=
  (NoDup (List.map fst occ)
   /\ forall k, match Py.assoc k occ with
                | Some d => files k d l
                | None => forall t p, (t, p) ∈ l -> norm t <> k
                end).

Lemma add_mention_grouped (occ : list (list N * occurrence))
    (l : list (list N * list N)) (m : list N * list N) :
  grouped occ l -> grouped (add_mention occ m) (l ++ [m]).
Proof.
  destruct m as [t0 p0]. intros [Hnd Hk]. cbn [fst snd]. cbv zeta.
  split; [by apply dict_set_NoDup|].
  intros k. rewrite assoc_dict_set.
  destruct (decide (norm t0 = k)) as [<-|Hne].
  - specialize (Hk (norm t0)).
    destruct (Py.assoc (norm t0) occ) as [d|]; cbn [default from_option id
      occ_raw occ_pages].
    + destruct Hk as (H1 & [p1 H2] & H3 & H4).
      refine (conj _ (conj _ (conj _ _))).
      * by destruct (_ <=? _)%nat.
      * destruct (_ <=? _)%nat.
        -- exists p1. apply elem_of_app. by left.
        -- exists p0. apply elem_of_app. right. apply list_elem_of_here.
      * intros p. split.
        -- intros [Hp|Hp]%elem_of_union.
           ++ apply H3 in Hp as (t & ? & ?). exists t.
              split; [apply elem_of_app; by left|done].
           ++ apply elem_of_singleton in Hp as ->. exists t0.
              split; [apply elem_of_app; right; apply list_elem_of_here
                     |done].
        -- intros (t & [Ht|Ht]%elem_of_app & Hn).
           ++ apply elem_of_union. left. apply H3. by exists t.
           ++ apply list_elem_of_singleton in Ht. injection Ht as -> ->.
              set_solver.
      * intros t p [Ht|Ht]%elem_of_app Hn.
        -- specialize (H4 t p Ht Hn).
           destruct (_ <=? _)%nat eqn:Hc; [done|].
           apply Nat.leb_gt in Hc. lia.
        -- apply list_elem_of_singleton in Ht. injection Ht as -> ->.
           destruct (_ <=? _)%nat eqn:Hc; [by apply Nat.leb_le in Hc|done].
    + rewrite Nat.leb_refl. refine (conj _ (conj _ (conj _ _))).
      * done.
      * exists p0. apply elem_of_app. right. apply list_elem_of_here.
      * intros p. split.
        -- intros Hp. exists t0. rewrite union_empty_l_L in Hp.
           apply elem_of_singleton in Hp as ->.
           split; [apply elem_of_app; right; apply list_elem_of_here|done].
        -- intros (t & [Ht|Ht]%elem_of_app & Hn);
             [by destruct (Hk t p Ht)|].
           apply list_elem_of_singleton in Ht. injection Ht as -> ->.
           set_solver.
      * intros t p [Ht|Ht]%elem_of_app Hn; [by destruct (Hk t p Ht)|].
        apply list_elem_of_singleton in Ht. by injection Ht as -> ->.
  - specialize (Hk k). destruct (Py.assoc k occ) as [d|].
    + destruct Hk as (H1 & [p1 H2] & H3 & H4).
      refine (conj _ (conj _ (conj _ _))).
      * done.
      * exists p1. apply elem_of_app. by left.
      * intros p. split.
        -- intros Hp. apply H3 in Hp as (t & ? & ?). exists t.
           split; [apply elem_of_app; by left|done].
        -- intros (t & [Ht|Ht]%elem_of_app & Hn); [apply H3; by exists t|].
           apply list_elem_of_singleton in Ht. injection Ht as -> ->. done.
      * intros t p [Ht|Ht]%elem_of_app Hn; [by eapply H4|].
        apply list_elem_of_singleton in Ht. injection Ht as -> ->. done.
    + intros t p [Ht|Ht]%elem_of_app; [by eapply Hk|].
      apply list_elem_of_singleton in Ht. by injection Ht as -> ->.
Qed.

Lemma collect_grouped (rows : list csv_row) :
  grouped (_collect_occurrences_by_term rows) (mentions rows).
Proof.
  unfold _collect_occurrences_by_term. rewrite collect_by_mentions.
  induction (mentions rows) as [|m l IH] using rev_ind.
  - split; [apply NoDup_nil_2|]. intros k t p Ht. by apply elem_of_nil in Ht.
  - rewrite fold_left_app. cbn [fold_left]. by apply add_mention_grouped.
Qed.

(** X17. The batch looks every name up once: the terms of a run have
    pairwise distinct normalized names.  The entry of a name carries
    a shortest one of the forms under which the table mentions the
    name, and exactly the page labels of the rows that mention it; and
    every name that the table mentions has an entry. *)
Theorem terms_are_grouped_by_name (rows : list csv_row) :
  let occ := _collect_occurrences_by_term rows in
  NoDup (List.map (fun d => norm (occ_raw d)) (terms_of rows))
  /\ NoDup (List.map fst occ)
  /\ (forall k d, (k, d) ∈ occ ->
        norm (occ_raw d) = k
        /\ (exists p, (occ_raw d, p) ∈ mentions rows)
        /\ (forall p, p ∈ occ_pages d <->
                      exists t, (t, p) ∈ mentions rows /\ norm t = k)
        /\ (forall t p, (t, p) ∈ mentions rows -> norm t = k ->
                        (length (occ_raw d) <= length t)%nat))
  /\ (forall t p, (t, p) ∈ mentions rows ->
        exists d, (norm t, d) ∈ occ).
Proof.
  intros occ. destruct (collect_grouped rows) as [Hnd Hk]. fold occ in Hnd, Hk.
  assert (Hfiled : forall k d, (k, d) ∈ occ -> files k d (mentions rows)).
  { intros k d Hin. apply elem_of_dict in Hin; [|done].
    specialize (Hk k). by rewrite Hin in Hk. }
  split; [|split; [done|split; [done|]]].
  - unfold terms_of. fold occ. rewrite map_map.
    erewrite map_ext_in; [exact Hnd|].
    intros [k d] Hin. simpl. apply list_elem_of_In in Hin.
    by destruct (Hfiled k d Hin) as [-> _].
  - intros t p Ht. specialize (Hk (norm t)).
    destruct (Py.assoc (norm t) occ) as [d|] eqn:Ha.
    + exists d. by apply elem_of_dict.
    + by destruct (Hk t p Ht).
Qed.

End WithRuntime.
End GroupingFacts.


(** * Running the batch again *)

Module RerunFacts.
Section WithRuntime.
Context {U : UnicodeData} {B : Builtins}.
Variable service : list event -> list N -> option (list N) -> http_outcome.
Import Geocode.

(** What the cache answers for [name], if it answers. *)
Local Abbreviation answers cache name :=
  (cache !! Utils._norm (Some name) ≫= cached_outcome).

(** The state after the step of [item], once [data] and [reason] are
    known. *)
Local Abbreviation step_result item st data reason cache :=
  (match data with
   | VNone =>
       Ok {| b_cache := cache;
             b_features := b_features st;
             b_rejects := b_rejects st
                          ++ [(occ_raw item, reject_reason reason)] |}
   | _ =>
       rbind (feature_props item data) (fun props =>
       rbind (make_feature_from_hit data props) (fun feat =>
       Ok {| b_cache := cache;
             b_features := b_features st ++ [feat];
             b_rejects := b_rejects st |}))
   end).

(** The job as a step or a loop leaves it: the cache on disk is the
    one in memory, the tables are those of [w]. *)
Local Abbreviation in_step st w' w :=
  (b_cache st = default ∅ (w_cache_file w')
   /\ w_filtered_csv w' = w_filtered_csv w
   /\ w_base_csv w' = w_base_csv w).

Local Ltac step_cases H :=
  repeat first
    [ done
    | discriminate H
    | by injection H as <-
    | match type of H with
      | context [feature_props ?i ?d] =>
          destruct (feature_props i d); simpl in H |- *
      | context [make_feature_from_hit ?d ?p] =>
          destruct (make_feature_from_hit d p); simpl in H |- *
      end ].

Lemma batch_step_none (total i : Z) (item : occurrence) (st : batch)
    (w : world) :
  batch_step service None total i item st w
  = match geocode_with_cache service (occ_raw item) (b_cache st) w with
    | (Ok (data, reason, cache), w1) =>
        (step_result item st data reason cache, w1)
    | (Raise e, w1) => (Raise e, w1)
    end.
Proof.
  unfold batch_step, notify, bind, bind_ok, ret.
  destruct (geocode_with_cache _ _ _ w) as [[[[data reason] cache]|e] w1];
    [|done].
  by destruct data.
Qed.

Lemma batch_step_hit (total i : Z) (item : occurrence) (st : batch)
    (w : world) (data reason : pyval) :
  answers (b_cache st) (occ_raw item) = Some (Ok (data, reason)) ->
  batch_step service None total i item st w
  = (step_result item st data reason (b_cache st), w).
Proof.
  intros Ha. rewrite batch_step_none.
  destruct (b_cache st !! Utils._norm (Some (occ_raw item)))
    as [entry|] eqn:Hk; [|done].
  simpl in Ha.
  by rewrite (CacheFacts.geocode_with_cache_hit service _ _ w entry
                data reason Hk Ha).
Qed.

Lemma stored_entry_answers (name : list N) (w : world) :
  let outcome := fst (geocode_name_robust service name w) in
  cached_outcome (stored_entry outcome)
  = Some (Ok (default VNone (fst outcome), opt_str (snd outcome))).
Proof.
  cbv zeta.
  destruct (CacheFacts.resolver_outcome_shape service name w)
    as [[d Hd]|(r & Hr & Ht)].
  - by rewrite Hd.
  - rewrite Hr. unfold stored_entry. simpl. by rewrite Ht.
Qed.

(** A step that ends normally leaves an answer for its term in the
    cache, keeps the answers that were there, and keeps the cache on
    disk equal to the one in memory. *)
Lemma batch_step_first (total i : Z) (item : occurrence) (st st1 : batch)
    (w w1 : world) :
  batch_step service None total i item st w = (Ok st1, w1) ->
  b_cache st = default ∅ (w_cache_file w) ->
  (exists data reason,
      answers (b_cache st1) (occ_raw item) = Some (Ok (data, reason))
      /\ step_result item st data reason (b_cache st1) = Ok st1)
  /\ (forall n x, answers (b_cache st) n = Some x ->
                  answers (b_cache st1) n = Some x)
  /\ in_step st1 w1 w
  /\ requests_of (w_trace w1) = requests_of (w_trace w)
     ++ match answers (b_cache st) (occ_raw item) with
        | Some _ => []
        | None => requests_for (occ_raw item)
        end.
Proof.
  intros Hstep Hinv.
  destruct (answers (b_cache st) (occ_raw item))
    as [[[data reason]|e]|] eqn:Ha.
  - rewrite (batch_step_hit total i item st w data reason Ha) in Hstep.
    injection Hstep as Hst <-.
    assert (Hc : b_cache st1 = b_cache st).
    { destruct data; simpl in Hst; step_cases Hst. }
    rewrite Hc. split; [by exists data, reason|].
    split; [done|]. split; [done|]. by rewrite app_nil_r.
  - rewrite batch_step_none in Hstep. unfold geocode_with_cache in Hstep.
    by rewrite Ha in Hstep.
  - rewrite batch_step_none in Hstep.
    rewrite (CacheFacts.geocode_with_cache_miss service _ _ w Ha) in Hstep.
    cbv zeta in Hstep.
    set (outcome := fst (geocode_name_robust service (occ_raw item) w)) in *.
    set (key := Utils._norm (Some (occ_raw item))) in *.
    set (cache1 := <[key := stored_entry outcome]> (b_cache st)) in *.
    injection Hstep as Hst <-.
    assert (Hc : b_cache st1 = cache1).
    { destruct (default VNone (fst outcome)); simpl in Hst;
        step_cases Hst. }
    destruct (ResolverFacts.geocode_name_robust_effects service
                (occ_raw item) w) as [Ht Hf].
    cbv zeta in Ht, Hf. unfold files_of in Hf. injection Hf as _ Hf1 Hf2.
    rewrite Hc. split; [|split; [|split]].
    + exists (default VNone (fst outcome)), (opt_str (snd outcome)).
      split; [|done]. subst cache1. rewrite lookup_insert_eq. simpl.
      apply stored_entry_answers.
    + intros n x Hn. subst cache1.
      rewrite lookup_insert_ne; [done|]. intros Heq.
      rewrite <- Heq in Hn. fold key in Ha. by rewrite Ha in Hn.
    + by simpl.
    + unfold write_cache. simpl.
      rewrite ResolverFacts.requests_of_app, Ht. simpl.
      by rewrite app_nil_r.
Qed.

(** The same data and reason give the same feature or reject row,
    whatever the cache is. *)
Lemma step_result_replay (item : occurrence) (st st1 st2 : batch)
    (data reason : pyval) (c1 c2 : gmap (list N) pyval) :
  step_result item st data reason c1 = Ok st1 ->
  b_features st2 = b_features st -> b_rejects st2 = b_rejects st ->
  step_result item st2 data reason c2
  = Ok {| b_cache := c2; b_features := b_features st1;
          b_rejects := b_rejects st1 |}.
Proof.
  intros Hst -> ->.
  destruct data; simpl in *; step_cases Hst.
Qed.

Lemma batch_loop_cons (cb : option callback) (total i : Z)
    (item : occurrence) (rest : list occurrence) (st : batch) (w : world) :
  batch_loop service cb total i (item :: rest) st w
  = match batch_step service cb total i item st w with
    | (Ok st1, w1) => batch_loop service cb total (i + 1) rest st1 w1
    | (Raise e, w1) => (Raise e, w1)
    end.
Proof. done. Qed.

(** A loop that ends normally can be replayed from any cache that
    keeps the answers of the one it leaves: the replay touches
    nothing and produces the same features and reject rows. *)
Lemma batch_loop_first (total : Z) (terms : list occurrence) (i : Z)
    (st st' : batch) (w w' : world) :
  batch_loop service None total i terms st w = (Ok st', w') ->
  b_cache st = default ∅ (w_cache_file w) ->
  in_step st' w' w
  /\ (forall n x, answers (b_cache st) n = Some x ->
                  answers (b_cache st') n = Some x)
  /\ (forall (C : gmap (list N) pyval) (st2 : batch) (w2 : world) (j : Z),
        (forall n x, answers (b_cache st') n = Some x ->
                     answers C n = Some x) ->
        b_cache st2 = C -> b_features st2 = b_features st ->
        b_rejects st2 = b_rejects st ->
        batch_loop service None total j terms st2 w2
        = (Ok {| b_cache := C; b_features := b_features st';
                 b_rejects := b_rejects st' |}, w2)).
Proof.
  revert i st w. induction terms as [|item rest IH]; intros i st w Hloop Hinv.
  - injection Hloop as <- <-. split; [done|]. split; [done|].
    intros C st2 w2 j _ <- <- <-. simpl. unfold ret. by destruct st2.
  - rewrite batch_loop_cons in Hloop.
    destruct (batch_step service None total i item st w) as [[st1|e] w1]
      eqn:Hstep; [|done].
    destruct (batch_step_first total i item st st1 w w1 Hstep Hinv)
      as ((data & reason & Ha & Hres) & Hmono & (Hc1 & Hf1 & Hb1) & _).
    destruct (IH (i + 1)%Z st1 w1 Hloop Hc1) as ((Hc & Hf & Hb) & Hmono' & Hrep).
    split; [by rewrite Hf, Hb|]. split; [by auto|].
    intros C st2 w2 j HC Hst2 Hfs Hrs.
    rewrite batch_loop_cons.
    assert (HaC : answers (b_cache st2) (occ_raw item)
                  = Some (Ok (data, reason))).
    { rewrite Hst2. by apply HC, Hmono'. }
    rewrite (batch_step_hit total j item st2 w2 data reason HaC).
    rewrite (step_result_replay item st st1 st2 data reason
               (b_cache st1) (b_cache st2) Hres Hfs Hrs).
    by apply Hrep.
Qed.

Lemma read_active_csv_ok (rows : list csv_row) (w : world) :
  fst (read_active_csv w) = Ok rows -> read_active_csv w = (Ok rows, w).
Proof.
  unfold read_active_csv.
  destruct (w_filtered_csv w); [by intros [= ->]|].
  destruct (w_base_csv w); [by intros [= ->]|done].
Qed.

Lemma read_active_csv_same (w w' : world) :
  w_filtered_csv w' = w_filtered_csv w -> w_base_csv w' = w_base_csv w ->
  fst (read_active_csv w') = fst (read_active_csv w).
Proof.
  intros Hf Hb. unfold read_active_csv. rewrite Hf, Hb.
  destruct (w_filtered_csv w); [done|]. by destruct (w_base_csv w).
Qed.

Lemma phase_geocode_grouped_loop (cb : option callback)
    (rows : list csv_row) (w : world) :
  read_active_csv w = (Ok rows, w) ->
  fst (phase_geocode_grouped service cb w) = Ok tt ->
  exists st' w',
    batch_loop service cb (Z.of_nat (length (terms_of rows))) 1
      (terms_of rows)
      {| b_cache := default ∅ (w_cache_file w);
         b_features := []; b_rejects := [] |} w = (Ok st', w').
Proof.
  intros Hread. unfold phase_geocode_grouped, bind_ok at 1. rewrite Hread.
  unfold bind at 1, load_cache at 1. unfold bind_ok. fold (terms_of rows).
  destruct (batch_loop _ _ _ _ _ _ w) as [[st'|e] w']; [eauto|done].
Qed.

(** X18. A second run of the batch answers everything from the cache:
    after a run that ended normally, running the batch again on the
    same tables sends no request, leaves the cache file alone and
    writes the same features and the same reject rows. *)
Theorem rerun_answers_from_the_cache (rows : list csv_row) (w : world) :
  fst (read_active_csv w) = Ok rows ->
  fst (phase_geocode_grouped service None w) = Ok tt ->
  let w1 := snd (phase_geocode_grouped service None w) in
  exists features rejects,
    let output :=
      EvGroupedWritten features
      :: match rejects with
         | [] => []
         | _ => [EvRejectsWritten rejects]
         end in
    (exists before, w_trace w1 = before ++ output)
    /\ phase_geocode_grouped service None w1
       = (Ok tt,
          {| w_trace := w_trace w1 ++ output;
             w_cache_file := w_cache_file w1;
             w_filtered_csv := w_filtered_csv w1;
             w_base_csv := w_base_csv w1 |}).
Proof.
  intros Hrows Hok w1.
  pose proof (read_active_csv_ok rows w Hrows) as Hread.
  destruct (phase_geocode_grouped_loop None rows w Hread Hok)
    as (st' & w' & Hloop).
  destruct (batch_loop_first _ _ _ _ _ _ _ Hloop eq_refl)
    as ((Hc & Hf & Hb) & _ & Hrep).
  assert (Hw1 : w1 = snd (match b_rejects st' with
                          | [] => ret tt
                          | rows => emit (EvRejectsWritten rows)
                          end
                            (snd (emit (EvGroupedWritten (b_features st'))
                                    w')))).
  { subst w1.
    by rewrite (BatchFacts.phase_geocode_grouped_run service None rows w w'
                  st' Hread Hloop). }
  assert (Hfiles : w_cache_file w1 = w_cache_file w'
                   /\ w_filtered_csv w1 = w_filtered_csv w
                   /\ w_base_csv w1 = w_base_csv w).
  { rewrite Hw1. by destruct (b_rejects st'). }
  destruct Hfiles as (Hc1 & Hf1 & Hb1).
  exists (b_features st'), (b_rejects st'). cbv zeta. split.
  - exists (w_trace w'). rewrite Hw1.
    destruct (b_rejects st'); simpl; [done|by rewrite <- app_assoc].
  - assert (Hread1 : read_active_csv w1 = (Ok rows, w1)).
    { apply read_active_csv_ok.
      by rewrite (read_active_csv_same w w1 Hf1 Hb1). }
    assert (Hloop1 :
      batch_loop service None (Z.of_nat (length (terms_of rows))) 1
        (terms_of rows)
        {| b_cache := default ∅ (w_cache_file w1);
           b_features := []; b_rejects := [] |} w1
      = (Ok {| b_cache := b_cache st'; b_features := b_features st';
               b_rejects := b_rejects st' |}, w1)).
    { apply Hrep; try done. simpl. by rewrite Hc1. }
    rewrite (BatchFacts.phase_geocode_grouped_run service None rows w1 w1
               _ Hread1 Hloop1).
    simpl. destruct (b_rejects st'); [done|].
    unfold emit. simpl. by rewrite <- app_assoc.
Qed.

End WithRuntime.
End RerunFacts.


(** * The worker thread *)

Module WorkerFacts.
Section WithRuntime.
Context {U : UnicodeData} {B : Builtins}.
Variable service : list event -> list N -> option (list N) -> http_outcome.
Import Geocode.

Local Abbreviation is_running :=
  (fun r : progress_status * Z * Z * option (list N) =>
     r.1.1.1 = Running).

Lemma batch_step_log (total i : Z) (item : occurrence) (st : batch)
    (w : world) :
  progress_log
    (snd (batch_step service (Some running_cb) total i item st w))
  = progress_log w ++ [(Running, (i - 1)%Z, total, Some (occ_raw item))].
Proof.
  rewrite BatchFacts.batch_step_order, BatchFacts.quiet_geocode_with_cache.
  unfold running_cb, _write_progress.
  by rewrite BatchFacts.progress_log_emit.
Qed.

Lemma batch_loop_log (total : Z) (terms : list occurrence) (i : Z)
    (st : batch) (w : world) :
  exists mid,
    progress_log
      (snd (batch_loop service (Some running_cb) total i terms st w))
    = progress_log w ++ mid
    /\ Forall is_running mid.
Proof.
  revert i st w. induction terms as [|item terms IH]; intros i st w.
  - exists []. by rewrite app_nil_r.
  - simpl. unfold bind_ok.
    pose proof (batch_step_log total i item st w) as Hlog.
    destruct (batch_step _ _ _ _ _ _ w) as [[st1|e] w1]; simpl in Hlog.
    + destruct (IH (i + 1)%Z st1 w1) as (mid & Hmid & Hrun).
      exists ((Running, (i - 1)%Z, total, Some (occ_raw item)) :: mid).
      split; [by rewrite Hmid, Hlog, <- app_assoc|].
      by constructor.
    + eexists. split; [exact Hlog|]. by repeat constructor.
Qed.

Lemma phase_geocode_grouped_log (w : world) :
  exists mid,
    progress_log (snd (phase_geocode_grouped service (Some running_cb) w))
    = progress_log w ++ mid
    /\ Forall is_running mid
    /\ (w_filtered_csv w = None -> w_base_csv w = None ->
        mid = []
        /\ fst (phase_geocode_grouped service (Some running_cb) w)
           = Raise FileNotFoundError).
Proof.
  unfold phase_geocode_grouped, bind_ok at 1.
  destruct (read_active_csv w) as [[rows|e] w0] eqn:Hread.
  - assert (w0 = w) as ->.
    { revert Hread. unfold read_active_csv.
      destruct (w_filtered_csv w); [by intros [= _ ->]|].
      destruct (w_base_csv w); [by intros [= _ ->]|done]. }
    unfold bind at 1, load_cache at 1. unfold bind_ok.
    destruct (batch_loop_log (Z.of_nat (length (List.map snd
                (_collect_occurrences_by_term rows)))) (List.map snd
                (_collect_occurrences_by_term rows)) 1
                {| b_cache := default ∅ (w_cache_file w);
                   b_features := []; b_rejects := [] |} w)
      as (mid & Hmid & Hrun).
    destruct (batch_loop _ _ _ _ _ _ w) as [[st'|e] w1]; simpl in Hmid.
    + eexists (mid ++ [_]). split; [|split].
      * unfold bind. simpl.
        destruct (b_rejects st') as [|row rs]; unfold ret, emit;
          unfold progress_log in *; simpl;
          rewrite ?omap_app; simpl; rewrite ?app_nil_r;
          rewrite Hmid, <- ?app_assoc; reflexivity.
      * apply Forall_app. split; [done|]. by repeat constructor.
      * intros Hf Hb. revert Hread. unfold read_active_csv.
        by rewrite Hf, Hb.
    + exists mid. split; [done|]. split; [done|].
      intros Hf Hb. revert Hread. unfold read_active_csv.
      by rewrite Hf, Hb.
  - assert (w0 = w /\ e = FileNotFoundError) as [-> ->].
    { revert Hread. unfold read_active_csv.
      destruct (w_filtered_csv w); [done|].
      destruct (w_base_csv w); [done|]. by intros [= <- <-]. }
    exists []. rewrite app_nil_r. split; [done|]. split; [constructor|].
    intros _ _. split; [done|]. unfold bind_ok. by rewrite Hread.
Qed.

(** X20. The worker never leaves the progress file in the running
    state: it writes [starting] first and, after the records of the
    loop, one last record, which is [done] when the batch ended
    normally and [error] with the name of the exception when it
    raised.  Without any table of terms the batch raises at once, so
    that nothing comes between [starting] and [error]. *)
Theorem worker_reports_the_end (w : world) :
  let w0 := snd (_write_progress 0 0 None Starting w) in
  exists mid last,
    progress_log (snd (_geocode_worker service w))
    = progress_log w ++ [(Starting, 0, 0, None)]%Z ++ mid ++ [last]
    /\ Forall is_running mid
    /\ last = match fst (phase_geocode_grouped service
                           (Some running_cb) w0) with
              | Ok _ => (Done, 1, 1, None)%Z
              | Raise e =>
                  (Failed, 0, 0, Some (ustr "error: " ++ exn_name e))%Z
              end
    /\ (w_filtered_csv w = None -> w_base_csv w = None ->
        mid = []
        /\ last = (Failed, 0, 0,
                   Some (ustr "error: FileNotFoundError"))%Z).
Proof.
  intros w0.
  destruct (phase_geocode_grouped_log w0) as (mid & Hmid & Hrun & Hnone).
  exists mid. eexists. split; [|split; [done|split; [reflexivity|]]].
  - unfold _geocode_worker, bind at 1.
    assert (Hw0 : _write_progress 0 0 None Starting w = (tt, w0)) by done.
    rewrite Hw0. unfold bind. fold (@running_cb).
    change (fun done total current_term =>
              _write_progress done total current_term Running)
      with running_cb.
    destruct (phase_geocode_grouped service (Some running_cb) w0)
      as [[[]|e] w1]; cbn [fst snd] in Hmid |- *;
      unfold _write_progress; rewrite BatchFacts.progress_log_emit, Hmid;
      subst w0; unfold _write_progress;
      rewrite BatchFacts.progress_log_emit; by rewrite <- !app_assoc.
  - intros Hf Hb. destruct (Hnone Hf Hb) as [-> ->]. done.
Qed.

End WithRuntime.
End WorkerFacts.


(** * The helpers of [processor/utils.py] *)

Module ToolboxFacts.

(** ** First occurrences *)

Section Unique.
Context {A : Type} `{EqDecision A}.

Lemma elem_of_ordered_unique_go (seen l : list A) (x : A) :
  x ∈ Utils.ordered_unique_go seen l <-> x ∈ l /\ x ∉ seen.
Proof.
  revert seen. induction l as [|y l IH]; intros seen; simpl.
  - rewrite elem_of_nil. tauto.
  - destruct (decide (y ∈ seen)) as [Hy|Hy].
    + rewrite IH, elem_of_cons. split; [tauto|].
      intros [[->|?] ?]; [done|tauto].
    + rewrite !elem_of_cons, IH, elem_of_cons.
      destruct (decide (x = y)) as [->|?]; tauto.
Qed.

Lemma ordered_unique_go_NoDup (seen l : list A) :
  NoDup (Utils.ordered_unique_go seen l).
Proof.
  revert seen. induction l as [|y l IH]; intros seen; simpl.
  - apply NoDup_nil_2.
  - destruct (decide (y ∈ seen)); [apply IH|].
    apply NoDup_cons. split; [|apply IH].
    rewrite elem_of_ordered_unique_go, elem_of_cons. tauto.
Qed.

Lemma ordered_unique_go_sublist (seen l : list A) :
  sublist (Utils.ordered_unique_go seen l) l.
Proof.
  revert seen. induction l as [|y l IH]; intros seen; simpl.
  - constructor.
  - destruct (decide (y ∈ seen)).
    + apply sublist_cons. apply IH.
    + apply sublist_skip. apply IH.
Qed.

Lemma ordered_unique_go_fixed (seen l : list A) :
  NoDup l -> (forall x, x ∈ l -> x ∉ seen) ->
  Utils.ordered_unique_go seen l = l.
Proof.
  revert seen. induction l as [|y l IH]; intros seen Hnd Hs; simpl; [done|].
  apply NoDup_cons in Hnd as [Hy Hnd].
  rewrite decide_False by (apply Hs; by left). f_equal.
  apply IH; [done|]. intros x Hx [->|?]%elem_of_cons; [done|].
  apply (Hs x); [by right|done].
Qed.

(** X21. [ordered_unique] keeps one copy of every element, in the
    order of the input, and changes nothing in a list without
    repetitions. *)
Theorem ordered_unique_spec (l : list A) :
  NoDup (Utils.ordered_unique l)
  /\ (forall x, x ∈ Utils.ordered_unique l <-> x ∈ l)
  /\ sublist (Utils.ordered_unique l) l
  /\ (NoDup l -> Utils.ordered_unique l = l)
  /\ Utils.ordered_unique (Utils.ordered_unique l) = Utils.ordered_unique l.
Proof.
  unfold Utils.ordered_unique.
  split; [apply ordered_unique_go_NoDup|].
  split; [intros x; rewrite elem_of_ordered_unique_go, elem_of_nil; tauto|].
  split; [apply ordered_unique_go_sublist|].
  split.
  - intros Hnd. apply ordered_unique_go_fixed; [done|].
    by intros x _ ?%elem_of_nil.
  - apply ordered_unique_go_fixed; [apply ordered_unique_go_NoDup|].
    by intros x _ ?%elem_of_nil.
Qed.
End Unique.

(** ** Page ranges *)

Section Ranges.
Import Toolbox.

Local Abbreviation ordered := (fun r : Z * Z => (r.1 <= r.2)%Z).

Lemma covered_nil (idx : Z) : ~ covered idx [].
Proof. by intros (a & b & ?%elem_of_nil & _). Qed.

Lemma covered_app (idx : Z) (l1 l2 : list (Z * Z)) :
  covered idx (l1 ++ l2) <-> covered idx l1 \/ covered idx l2.
Proof.
  unfold covered. setoid_rewrite elem_of_app. naive_solver.
Qed.

Lemma covered_singleton (idx a b : Z) :
  covered idx [(a, b)] <-> (a <= idx <= b)%Z.
Proof.
  unfold covered. setoid_rewrite list_elem_of_singleton. naive_solver.
Qed.

Lemma covered_Permutation (idx : Z) (l1 l2 : list (Z * Z)) :
  l1 ≡ₚ l2 -> covered idx l1 <-> covered idx l2.
Proof. intros Hp. unfold covered. by setoid_rewrite Hp. Qed.

#[local] Instance pair_le_total : Total pair_le.
Proof. intros [a b] [c d]. unfold pair_le. simpl. lia. Qed.

#[local] Instance pair_le_trans : Transitive pair_le.
Proof. intros [a b] [c d] [e f]. unfold pair_le. simpl. lia. Qed.

Local Abbreviation merge_step :=
  (fun (merged : list (Z * Z)) '(a, b) =>
     match last merged with
     | None => merged ++ [(a, b)]
     | Some (la, lb) =>
         if (lb + 1 <? a)%Z then merged ++ [(a, b)]
         else removelast merged ++ [(la, Z.max lb b)]
     end).

(** The state of the second loop: [merged] stands for the ranges
    [seen], and its last range starts before everything to come. *)
Local Abbreviation merging merged seen rest :=
  (StronglySorted apart (merged : list (Z * Z))
   /\ Forall ordered merged
   /\ (forall idx, covered idx merged <-> covered idx seen)
   /\ (merged = [] <-> seen = [])
   /\ (forall la lb : Z, last (merged : list (Z * Z)) = Some (la, lb) ->
                     Forall (fun r : Z * Z => (la <= r.1)%Z) rest)).

Lemma merge_step_keeps (merged seen rest : list (Z * Z)) (a b : Z) :
  merging merged seen ((a, b) :: rest) ->
  (a <= b)%Z -> Forall (pair_le (a, b)) rest ->
  merging (merge_step merged (a, b)) (seen ++ [(a, b)]) rest.
Proof.
  intros (Hs & Ho & Hc & He & Hl) Hab Hrest.
  assert (Hfrom_a : Forall (fun r : Z * Z => (a <= r.1)%Z) rest).
  { eapply Forall_impl; [exact Hrest|]. intros [c d]. unfold pair_le.
    simpl. lia. }
  destruct (last merged) as [[la lb]|] eqn:Hlast.
  - apply last_Some in Hlast as [M0 ->].
    specialize (Hl la lb eq_refl).
    apply Forall_cons in Hl as [Hla Hl]. simpl in Hla.
    apply StronglySorted_app in Hs as (Hs1 & Hs2 & _).
    apply Forall_app in Ho as [Ho1 Ho2].
    rewrite Forall_singleton in Ho2. simpl in Ho2.
    destruct (lb + 1 <? a)%Z eqn:Hgap.
    + apply Z.ltb_lt in Hgap. refine (conj _ (conj _ (conj _ (conj _ _)))).
      * apply StronglySorted_app_2.
        -- intros x1 x2 Hx1 ->%list_elem_of_singleton. unfold apart. simpl.
           apply elem_of_app in Hx1 as [Hx1|Hx1].
           ++ specialize (Hs1 x1 (la, lb) Hx1 (list_elem_of_here _ _)).
              unfold apart in Hs1. simpl in Hs1. lia.
           ++ apply list_elem_of_singleton in Hx1 as ->. simpl. lia.
        -- apply StronglySorted_app_2;
             [exact Hs1|exact Hs2|repeat constructor].
        -- repeat constructor.
      * apply Forall_app. split; [apply Forall_app; split; [done|]|];
          by apply Forall_singleton.
      * intros idx. rewrite covered_app, (covered_app idx seen), Hc. tauto.
      * split; intros H; by apply app_eq_nil in H as [_ ?].
      * intros la' lb'. rewrite last_snoc. by intros [= <- <-].
    + apply Z.ltb_ge in Hgap. rewrite removelast_last.
      refine (conj _ (conj _ (conj _ (conj _ _)))).
      * apply StronglySorted_app_2; [|done|].
        -- intros x1 x2 Hx1 ->%list_elem_of_singleton.
           specialize (Hs1 x1 (la, lb) Hx1 (list_elem_of_here _ _)).
           unfold apart in *. simpl in *. lia.
        -- repeat constructor.
      * apply Forall_app. split; [done|]. apply Forall_singleton. simpl. lia.
      * intros idx. rewrite covered_app, (covered_app idx seen), <- Hc.
        rewrite covered_app, !covered_singleton.
        assert ((la <= idx <= Z.max lb b)%Z
                <-> (la <= idx <= lb)%Z \/ (a <= idx <= b)%Z) by lia.
        tauto.
      * split; intros H; by apply app_eq_nil in H as [_ ?].
      * intros la' lb'. rewrite last_snoc. intros [= <- <-].
        eapply Forall_impl; [exact Hl|]. done.
  - apply last_None in Hlast as ->. simpl.
    assert (seen = []) as -> by by apply He.
    refine (conj _ (conj _ (conj _ (conj _ _)))).
    + repeat constructor.
    + by apply Forall_singleton.
    + done.
    + done.
    + intros la lb [= <- <-]. done.
Qed.

Lemma merge_loop_keeps (rest merged seen : list (Z * Z)) :
  merging merged seen rest ->
  StronglySorted pair_le rest -> Forall ordered rest ->
  merging (fold_left merge_step rest merged) (seen ++ rest) [].
Proof.
  revert merged seen. induction rest as [|[a b] rest IH];
    intros merged seen Hm Hs Ho.
  - simpl. rewrite app_nil_r. destruct Hm as (? & ? & ? & ? & ?).
    refine (conj _ (conj _ (conj _ (conj _ _)))); done.
  - apply StronglySorted_inv in Hs as [Hs Hab].
    apply Forall_cons in Ho as [Hord Ho].
    change (fold_left merge_step ((a, b) :: rest) merged)
      with (fold_left merge_step rest (merge_step merged (a, b))).
    replace (seen ++ (a, b) :: rest) with ((seen ++ [(a, b)]) ++ rest)
      by by rewrite <- app_assoc.
    apply IH; [|done|done]. by apply merge_step_keeps.
Qed.

Lemma merge_ranges_spec (out : list (Z * Z)) :
  StronglySorted pair_le out -> Forall ordered out ->
  StronglySorted apart (merge_ranges out)
  /\ Forall ordered (merge_ranges out)
  /\ (forall idx, covered idx (merge_ranges out) <-> covered idx out)
  /\ (merge_ranges out = [] <-> out = []).
Proof.
  intros Hs Ho.
  assert (H0 : merging ([] : list (Z * Z)) ([] : list (Z * Z)) out).
  { split; [constructor|]. split; [constructor|]. split; [done|].
    split; [done|]. by intros la lb ?. }
  destruct (merge_loop_keeps out [] [] H0 Hs Ho) as (H1 & H2 & H3 & H4 & _).
  by refine (conj _ (conj _ (conj _ _))).
Qed.

Context {U : UnicodeData} {B : Builtins}.

Lemma parse_chunk_ordered (total_pages : Z) (chunk : list N) (r : Z * Z) :
  parse_chunk total_pages chunk = Some r -> (r.1 <= r.2)%Z.
Proof.
  unfold parse_chunk.
  destruct (split_first 45 chunk) as [[a b]|].
  - destruct (int_of_str a) as [x|]; [|done].
    destruct (int_of_str b) as [y|]; [|done]. cbv zeta.
    destruct (_ <? _)%Z eqn:Hc; intros [= <-]; simpl;
      [apply Z.ltb_lt in Hc|apply Z.ltb_ge in Hc]; lia.
  - destruct (int_of_str chunk) as [k|]; [|done].
    intros [= <-]. simpl. lia.
Qed.

Lemma collect_loop_ordered (total_pages : Z) (chunks : list (list N))
    (out : list (Z * Z)) :
  Forall ordered out ->
  Forall ordered
    (fold_left
       (fun out chunk =>
          if negb (truthy_str chunk) then out
          else match parse_chunk total_pages chunk with
               | Some r => out ++ [r]
               | None => out
               end)
       chunks out).
Proof.
  revert out. induction chunks as [|c chunks IH]; intros out Hout; [done|].
  simpl. apply IH. destruct (truthy_str c); simpl; [|done].
  destruct (parse_chunk total_pages c) as [r|] eqn:Hr; [|done].
  apply Forall_app. split; [done|]. apply Forall_singleton.
  by eapply parse_chunk_ordered.
Qed.

Lemma collect_ranges_ordered (ranges : list N) (total_pages : Z) :
  Forall ordered (collect_ranges ranges total_pages).
Proof. apply collect_loop_ordered. constructor. Qed.

Lemma sorted_ranges (ranges : list N) (total_pages : Z) :
  let out := merge_sort pair_le (collect_ranges ranges total_pages) in
  StronglySorted pair_le out /\ Forall ordered out
  /\ out ≡ₚ collect_ranges ranges total_pages.
Proof.
  cbv zeta. split; [apply StronglySorted_merge_sort; apply _|].
  split; [|apply merge_sort_Permutation].
  rewrite merge_sort_Permutation. apply collect_ranges_ordered.
Qed.

(** X22. The ranges that [parse_include_ranges] returns are in
    ascending order and separated by gaps, none of them is empty, and
    together they cover exactly the page indices that the ranges read
    from the input cover. *)
Theorem merged_ranges (ranges : list N) (total_pages : Z) :
  truthy_str ranges = true ->
  exists merged,
    parse_include_ranges ranges total_pages = Some merged
    /\ StronglySorted apart merged
    /\ Forall (fun r : Z * Z => (r.1 <= r.2)%Z) merged
    /\ forall idx, covered idx merged
                   <-> covered idx (collect_ranges ranges total_pages).
Proof.
  intros Ht. unfold parse_include_ranges. rewrite Ht. simpl.
  eexists. split; [done|].
  destruct (sorted_ranges ranges total_pages) as (Hs & Ho & Hp).
  destruct (merge_ranges_spec _ Hs Ho) as (H1 & H2 & H3 & _).
  split; [done|]. split; [done|].
  intros idx. rewrite H3. by apply covered_Permutation.
Qed.

(** X23. A page index passes [index_in_includes] on the parsed ranges
    exactly when one of the ranges read from the input covers it, or
    when no range could be read at all: an input without any readable
    range selects every page. *)
Theorem index_in_parsed_ranges (ranges : list N) (total_pages idx : Z) :
  index_in_includes idx (parse_include_ranges ranges total_pages) = true
  <-> collect_ranges ranges total_pages = []
      \/ covered idx (collect_ranges ranges total_pages).
Proof.
  unfold parse_include_ranges.
  destruct ranges as [|c ranges]; [simpl|].
  - split; [intros _; left|done]. by vm_compute.
  - cbn [truthy_str negb].
    destruct (sorted_ranges (c :: ranges) total_pages) as (Hs & Ho & Hp).
    destruct (merge_ranges_spec _ Hs Ho) as (_ & _ & H3 & H4).
    set (merged := merge_ranges _) in *.
    assert (He : merged = [] <-> collect_ranges (c :: ranges) total_pages = []).
    { rewrite H4. split; intros H.
      - rewrite H in Hp. by apply Permutation_nil_l in Hp.
      - by rewrite H. }
    assert (Hc : existsb (fun '(a, b) => (a <=? idx)%Z && (idx <=? b)%Z)
                   merged = true
                 <-> covered idx (collect_ranges (c :: ranges) total_pages)).
    { rewrite <- (covered_Permutation idx _ _ Hp), <- H3.
      rewrite existsb_exists. unfold covered. split.
      - intros ([a b] & Hin & Hab). exists a, b.
        split; [by apply list_elem_of_In|]. lia.
      - intros (a & b & Hin & Hab). exists (a, b).
        split; [by apply list_elem_of_In|]. lia. }
    unfold index_in_includes. destruct merged as [|r merged'] eqn:Hm.
    + split; [intros _; left; by apply He|done].
    + rewrite Hc. split; [by right|].
      intros [H|H]; [|done]. by apply He in H.
Qed.

End Ranges.

(** ** Counting the toponyms *)

Section Counts.
Context {U : UnicodeData}.
Import Toolbox.

Local Abbreviation add_term :=
  (fun (counts : list (list N * Z)) (m : list N * list N) =>
     Py.dict_set (fst m) (default 0 (Py.assoc (fst m) counts) + 1)%Z counts).

Local Abbreviation hits_of t l :=
  (length (List.filter (fun m : list N * list N => bool_decide (fst m = t))
                       l)).

Lemma count_by_mentions (rows : list csv_row) (counts : list (list N * Z)) :
  fold_left
    (fun counts r =>
       let luoghi := PyStr.strip (csv_luogo r) in
       if negb (truthy_str luoghi) then counts
       else
         fold_left
           (fun counts t =>
              Py.dict_set t (default 0 (Py.assoc t counts) + 1)%Z counts)
           (Geocode._split_semicolon luoghi) counts)
    rows counts
  = fold_left add_term (Geocode.mentions rows) counts.
Proof.
  revert counts. induction rows as [|r rows IH]; intros counts; [done|].
  unfold Geocode.mentions. simpl. rewrite fold_left_app.
  fold (Geocode.mentions rows). rewrite IH. f_equal. cbv zeta.
  destruct (PyStr.strip (csv_luogo r)) as [|c l] eqn:Hl; [done|].
  cbn [truthy_str negb]. generalize (Geocode._split_semicolon (c :: l)).
  intros ts. revert counts.
  induction ts as [|t ts IHt]; intros counts; [done|].
  simpl. by rewrite IHt.
Qed.

Local Abbreviation counted counts l :=
  (NoDup (List.map fst counts)
   /\ forall t, match Py.assoc t counts with
                | Some n => n = Z.of_nat (hits_of t l) /\ (0 < n)%Z
                | None => forall p, (t, p) ∉ l
                end).

Lemma add_term_counted (counts : list (list N * Z))
    (l : list (list N * list N)) (m : list N * list N) :
  counted counts l -> counted (add_term counts m) (l ++ [m]).
Proof.
  destruct m as [t0 p0]. intros [Hnd Hk]. cbn [fst].
  split; [by apply GroupingFacts.dict_set_NoDup|].
  intros t. rewrite GroupingFacts.assoc_dict_set, List.filter_app, length_app.
  cbn [List.filter fst].
  destruct (decide (t0 = t)) as [->|Hne].
  - rewrite bool_decide_eq_true_2 by done. specialize (Hk t).
    destruct (Py.assoc t counts) as [n|]; simpl.
    + destruct Hk as [-> Hpos]. lia.
    + assert (hits_of t l = 0%nat) as ->; [|lia].
      clear -Hk. induction l as [|[t' p'] l IH]; [done|]. simpl.
      destruct (decide (t' = t)) as [->|Hne].
      * exfalso. apply (Hk p'). by left.
      * rewrite bool_decide_eq_false_2 by done. apply IH.
        intros p Hp. apply (Hk p). by right.
  - rewrite bool_decide_eq_false_2 by done. simpl. rewrite Nat.add_0_r.
    specialize (Hk t). destruct (Py.assoc t counts) as [n|]; [done|].
    intros p [Hp|Hp]%elem_of_app; [by apply (Hk p)|].
    apply list_elem_of_singleton in Hp. congruence.
Qed.

Lemma count_terms_counted (rows : list csv_row) :
  counted (count_terms rows) (Geocode.mentions rows).
Proof.
  unfold count_terms. rewrite count_by_mentions.
  induction (Geocode.mentions rows) as [|m l IH] using rev_ind.
  - split; [apply NoDup_nil_2|]. intros t p Hp. by apply elem_of_nil in Hp.
  - rewrite fold_left_app. cbn [fold_left]. by apply add_term_counted.
Qed.

Lemma sorted_weaken {X} (R S : X -> X -> Prop) (l : list X) :
  (forall x y, R x y -> S x y) -> StronglySorted R l -> StronglySorted S l.
Proof.
  intros HRS. induction 1 as [|x l _ IH Hx]; constructor; [done|].
  eapply Forall_impl; [exact Hx|]. apply HRS.
Qed.

Lemma item_lt_asym (x y : item) : item_lt x y = true -> item_lt y x = false.
Proof.
  unfold item_lt, str_ltb.
  rewrite orb_true_iff, andb_true_iff, orb_false_iff, andb_false_iff,
    Z.ltb_lt, Z.eqb_eq, negb_true_iff, Z.ltb_ge, Z.eqb_neq, negb_false_iff.
  intros [H|[H1 H2]]; [split; [lia|left; lia]|].
  split; [lia|]. right.
  by destruct (ModelFacts.str_leb_total (PyStr.lower (name x))
                 (PyStr.lower (name y))) as [?|?]; [|congruence].
Qed.

Lemma item_lt_trans (x y z : item) :
  item_lt x y = true -> item_lt y z = true -> item_lt x z = true.
Proof.
  unfold item_lt, str_ltb.
  rewrite !orb_true_iff, !andb_true_iff, !Z.ltb_lt, !Z.eqb_eq,
    !negb_true_iff.
  intros [H|[H1 H2]] [H'|[H1' H2']]; [left; lia..|].
  right. split; [lia|].
  destruct (Py.str_leb (PyStr.lower (name z)) (PyStr.lower (name x)))
    eqn:Hzx; [|done].
  destruct (ModelFacts.str_leb_total (PyStr.lower (name x))
              (PyStr.lower (name y))) as [Hxy|?]; [|congruence].
  by rewrite (ModelFacts.str_leb_trans _ _ _ Hzx Hxy) in H2'.
Qed.

(** X24. The list of [group_toponyms] has one item for each term that
    the table mentions, with the number of its mentions as count, and
    runs from the most mentioned term to the least mentioned one. *)
Theorem toponym_counts (rows : list csv_row) :
  let items := group_toponyms (Some rows) in
  NoDup (List.map name items)
  /\ (forall it, it ∈ items ->
        count it = Z.of_nat (times rows (name it)) /\ (0 < count it)%Z)
  /\ (forall t p, (t, p) ∈ Geocode.mentions rows ->
        exists it, it ∈ items /\ name it = t)
  /\ StronglySorted (fun x y => (count y <= count x)%Z) items.
Proof.
  intros items. destruct (count_terms_counted rows) as [Hnd Hk].
  assert (Hp : items ≡ₚ List.map (fun kv => {| name := fst kv;
                                               count := snd kv |})
                         (count_terms rows)).
  { apply RankingFacts.sort_by_Permutation. }
  assert (Hin : forall it, it ∈ items <->
                  Py.assoc (name it) (count_terms rows) = Some (count it)).
  { intros it. rewrite Hp, <- GroupingFacts.elem_of_dict by done.
    rewrite !list_elem_of_In, in_map_iff. split.
    - intros ([k v] & <- & Hkv). done.
    - intros Hkv. exists (name it, count it). by destruct it. }
  split; [|split; [|split]].
  - rewrite Hp, map_map. simpl. exact Hnd.
  - intros it Hit. apply Hin in Hit. specialize (Hk (name it)).
    by rewrite Hit in Hk.
  - intros t p Htp. specialize (Hk t).
    destruct (Py.assoc t (count_terms rows)) as [n|] eqn:Ha.
    + exists {| name := t; count := n |}. split; [|done]. by apply Hin.
    + by destruct (Hk p).
  - apply (RankingFacts.sort_by_sorted item_lt
             (fun x y => (count y <= count x)%Z) (fun _ => True));
      [intros; lia| | |by apply Forall_true].
    + intros x y _ _. unfold item_lt.
      rewrite orb_true_iff, andb_true_iff, Z.ltb_lt, Z.eqb_eq. lia.
    + intros x y _ _. unfold item_lt.
      rewrite orb_false_iff, Z.ltb_ge. lia.
Qed.

End Counts.

End ToolboxFacts.


(** * Reading the tables *)

Module ReaderFacts.
Section WithRuntime.
Context {U : UnicodeData} {B : Builtins}.
Import Server Curation.

Local Abbreviation norm t := (_norm (Some t)).

Local Abbreviation record :=
  (fun (out : gmap (list N) term_info) (m : list N * page) =>
     add_occurrence (snd m) (fst m) out).

(** What the entry [info] of [k] tells about the mentions [l]. *)
Local Abbreviation reads k info l :=
  ((forall p, p ∈ ti_pages info <-> exists t, (t, p) ∈ l /\ norm t = k)
   /\ norm (ti_display info) = k
   /\ (exists p, (ti_display info, p) ∈ l)
   /\ (forall t p, (t, p) ∈ l -> norm t = k ->
                   (length (ti_display info) <= length t)%nat)).

Local Abbreviation read_so_far out l :=
  (forall k, match (out : gmap (list N) term_info) !! k with
             | Some info => reads k info l
             | None => forall t p, (t, p) ∈ l -> norm t <> k
             end).

Lemma best_display_cases (a b : list N) :
  truthy_str a = true -> truthy_str b = true ->
  (_best_display a b = a /\ (length a <= length b)%nat)
  \/ (_best_display a b = b /\ (length b < length a)%nat).
Proof.
  intros Ha Hb. unfold _best_display. rewrite Ha, Hb. simpl.
  destruct (_ <=? _)%nat eqn:Hc;
    [left; by apply Nat.leb_le in Hc|right; by apply Nat.leb_gt in Hc].
Qed.

Lemma record_read (out : gmap (list N) term_info)
    (l : list (list N * page)) (m : list N * page) :
  Forall (fun m => truthy_str (fst m) = true) (l ++ [m]) ->
  read_so_far out l -> read_so_far (record out m) (l ++ [m]).
Proof.
  destruct m as [t0 p0]. intros Htr Hk k. cbn [fst snd].
  apply Forall_app in Htr as [Htl Ht0]. rewrite Forall_singleton in Ht0.
  simpl in Ht0. unfold add_occurrence.
  pose proof (Hk (norm t0)) as Hk0.
  destruct (out !! norm t0) as [info|] eqn:Ho.
  - destruct Hk0 as (H1 & H2 & [p1 H3] & H4).
    assert (Htd : truthy_str (ti_display info) = true).
    { rewrite Forall_forall in Htl. apply (Htl (ti_display info, p1) H3). }
    rewrite lookup_insert. destruct (decide (norm t0 = k)) as [<-|Hne].
    + cbn [ti_pages ti_display]. refine (conj _ (conj _ (conj _ _))).
      * intros p. rewrite elem_of_union, elem_of_singleton, H1. split.
        -- intros [(t & ? & ?)|Hp].
           ++ exists t. split; [apply elem_of_app; by left|done].
           ++ subst p. exists t0. split; [|done]. apply elem_of_app. right.
              apply list_elem_of_here.
        -- intros (t & [Ht|Ht]%elem_of_app & Hn); [left; by exists t|].
           apply list_elem_of_singleton in Ht. injection Ht as -> ->.
           by right.
      * by destruct (best_display_cases _ t0 Htd Ht0) as [[-> _]|[-> _]].
      * destruct (best_display_cases _ t0 Htd Ht0) as [[-> _]|[-> _]].
        -- exists p1. apply elem_of_app. by left.
        -- exists p0. apply elem_of_app. right. apply list_elem_of_here.
      * intros t p [Ht|Ht]%elem_of_app Hn.
        -- specialize (H4 t p Ht Hn).
           destruct (best_display_cases _ t0 Htd Ht0) as [[-> ?]|[-> ?]];
             lia.
        -- apply list_elem_of_singleton in Ht. injection Ht as -> ->.
           destruct (best_display_cases _ t0 Htd Ht0) as [[-> ?]|[-> ?]];
             lia.
    + specialize (Hk k). destruct (out !! k) as [info'|].
      * destruct Hk as (H1' & H2' & [p1' H3'] & H4').
        refine (conj _ (conj _ (conj _ _))).
        -- intros p. rewrite H1'. split.
           ++ intros (t & ? & ?). exists t.
              split; [apply elem_of_app; by left|done].
           ++ intros (t & [Ht|Ht]%elem_of_app & Hn); [by exists t|].
              apply list_elem_of_singleton in Ht. injection Ht as -> ->.
              done.
        -- done.
        -- exists p1'. apply elem_of_app. by left.
        -- intros t p [Ht|Ht]%elem_of_app Hn; [by eapply H4'|].
           apply list_elem_of_singleton in Ht. injection Ht as -> ->. done.
      * intros t p [Ht|Ht]%elem_of_app; [by eapply Hk|].
        apply list_elem_of_singleton in Ht. by injection Ht as -> ->.
  - rewrite lookup_insert. destruct (decide (norm t0 = k)) as [<-|Hne].
    + cbn [ti_pages ti_display]. refine (conj _ (conj _ (conj _ _))).
      * intros p. rewrite elem_of_singleton. split.
        -- intros ->. exists t0. split; [|done]. apply elem_of_app. right.
           apply list_elem_of_here.
        -- intros (t & [Ht|Ht]%elem_of_app & Hn);
             [by destruct (Hk0 t p Ht)|].
           apply list_elem_of_singleton in Ht. by injection Ht as -> ->.
      * done.
      * exists p0. apply elem_of_app. right. apply list_elem_of_here.
      * intros t p [Ht|Ht]%elem_of_app Hn; [by destruct (Hk0 t p Ht)|].
        apply list_elem_of_singleton in Ht. by injection Ht as -> ->.
    + specialize (Hk k). destruct (out !! k) as [info'|].
      * destruct Hk as (H1' & H2' & [p1' H3'] & H4').
        refine (conj _ (conj _ (conj _ _))).
        -- intros p. rewrite H1'. split.
           ++ intros (t & ? & ?). exists t.
              split; [apply elem_of_app; by left|done].
           ++ intros (t & [Ht|Ht]%elem_of_app & Hn); [by exists t|].
              apply list_elem_of_singleton in Ht. injection Ht as -> ->.
              done.
        -- done.
        -- exists p1'. apply elem_of_app. by left.
        -- intros t p [Ht|Ht]%elem_of_app Hn; [by eapply H4'|].
           apply list_elem_of_singleton in Ht. injection Ht as -> ->. done.
      * intros t p [Ht|Ht]%elem_of_app; [by eapply Hk|].
        apply list_elem_of_singleton in Ht. by injection Ht as -> ->.
Qed.

Lemma record_all_read (l : list (list N * page)) :
  Forall (fun m => truthy_str (fst m) = true) l ->
  read_so_far (fold_left record l ∅) l.
Proof.
  induction l as [|m l IH] using rev_ind; intros Htr.
  - intros k. cbn [fold_left]. rewrite lookup_empty.
    intros t p Ht. by apply elem_of_nil in Ht.
  - rewrite fold_left_app. cbn [fold_left]. apply record_read; [done|].
    apply IH. by apply Forall_app in Htr as [? _].
Qed.

Lemma record_terms (page_key : page) (terms : list (list N))
    (out : gmap (list N) term_info) :
  fold_left (fun out t => add_occurrence page_key t out) terms out
  = fold_left record (List.map (fun t => (t, page_key)) terms) out.
Proof.
  revert out. induction terms as [|t terms IH]; intros out; [done|].
  simpl. apply IH.
Qed.

Lemma split_terms_truthy (luoghi t : list N) :
  t ∈ split_terms luoghi -> truthy_str t = true.
Proof.
  unfold split_terms. rewrite list_elem_of_In, filter_In. by intros [_ ?].
Qed.

Lemma base_mentions_truthy (rows : list base_row) :
  Forall (fun m => truthy_str (fst m) = true) (base_mentions rows).
Proof.
  apply Forall_forall. intros [t p] Hin. simpl.
  unfold base_mentions in Hin.
  apply list_elem_of_In, in_flat_map in Hin as (r & _ & Hin).
  cbv zeta in Hin. destruct (truthy_str (PyStr.strip (row_pagina r)));
    [|done].
  apply in_map_iff in Hin as (t' & [= <- _] & Ht').
  eapply split_terms_truthy. by apply list_elem_of_In.
Qed.

Lemma rejected_mentions_truthy (rows : list excl_row) :
  Forall (fun m => truthy_str (fst m) = true) (rejected_mentions rows).
Proof.
  apply Forall_forall. intros [t p] Hin. simpl.
  unfold rejected_mentions in Hin.
  apply list_elem_of_In, in_flat_map in Hin as (r & _ & Hin).
  cbv zeta in Hin.
  destruct (truthy_str (PyStr.strip (erow_pagina r))); [|done].
  destruct (truthy_str (PyStr.strip (erow_termine r))) eqn:Ht; [|done].
  simpl in Hin. by destruct Hin as [[= <- _]|[]].
Qed.

(** The page under which a row is filed, if it has a page label. *)
Local Abbreviation page_of row :=
  (if truthy_str (PyStr.strip (row_pagina row))
   then Some (page_key_of (PyStr.strip (row_pagina row))) else None).

(** The entry of [p] in [page_meta] comes from the first row of [p]. *)
Local Abbreviation first_meta rows p meta :=
  (match (meta : gmap page page_meta_rec) !! p with
   | Some m =>
       exists l1 r l2,
         rows = l1 ++ r :: l2 /\ page_of r = Some p
         /\ (forall r', r' ∈ l1 -> page_of r' <> Some p)
         /\ m = {| pm_anno := PyStr.strip (row_anno r);
                   pm_id := PyStr.strip (row_id r) |}
   | None => forall r, r ∈ rows -> page_of r <> Some p
   end).

Local Abbreviation base_step :=
  (fun '(out, page_meta) row =>
     let page_raw := PyStr.strip (row_pagina row) in
     let ano := PyStr.strip (row_anno row) in
     let pid := PyStr.strip (row_id row) in
     let luoghi := PyStr.strip (row_luogo row) in
     if negb (truthy_str page_raw) then (out, page_meta)
     else
       let page_key := page_key_of page_raw in
       let page_meta := keep_first_meta page_key ano pid page_meta in
       if negb (truthy_str luoghi) then (out, page_meta)
       else
         (fold_left (fun out t => add_occurrence page_key t out)
                    (split_terms luoghi) out,
          page_meta)).

Lemma read_base_rows (rows : list base_row) (p : page) :
  let r := fold_left base_step rows (∅, ∅) in
  fst r = fold_left record (base_mentions rows) ∅
  /\ first_meta rows p (snd r).
Proof.
  induction rows as [|row rows IH] using rev_ind.
  - split; [done|]. simpl. rewrite lookup_empty.
    intros r Hr. by apply elem_of_nil in Hr.
  - cbv zeta in IH |- *. rewrite fold_left_app. cbn [fold_left].
    destruct (fold_left base_step rows (∅, ∅)) as [out meta].
    destruct IH as [Hout Hmeta]. simpl in Hout, Hmeta.
    unfold base_mentions. rewrite flat_map_app. fold (base_mentions rows).
    rewrite fold_left_app, <- Hout. cbn [flat_map]. rewrite app_nil_r.
    cbv zeta.
    destruct (truthy_str (PyStr.strip (row_pagina row))) eqn:Hp;
      cbn [negb].
    + split.
      * destruct (PyStr.strip (row_luogo row)) as [|c l] eqn:Hl;
          cbn [truthy_str negb fst]; [done|].
        apply record_terms.
      * assert (Hm : first_meta (rows ++ [row]) p
                       (keep_first_meta
                          (page_key_of (PyStr.strip (row_pagina row)))
                          (PyStr.strip (row_anno row))
                          (PyStr.strip (row_id row)) meta)).
        { unfold keep_first_meta.
          destruct (decide (page_key_of (PyStr.strip (row_pagina row)) = p))
            as [Heq|Hne].
          - rewrite Heq. destruct (meta !! p) as [m|] eqn:Hmp.
            + rewrite Hmp. destruct Hmeta as (l1 & r & l2 & -> & ? & ? & ?).
              exists l1, r, (l2 ++ [row]).
              by rewrite <- app_assoc.
            + rewrite lookup_insert_eq. exists rows, row, [].
              split; [done|]. rewrite Hp, Heq. done.
          - assert (Hlk : (match meta !! page_key_of
                                   (PyStr.strip (row_pagina row)) with
                           | Some _ => meta
                           | None =>
                               <[page_key_of (PyStr.strip (row_pagina row))
                                 := {| pm_anno := PyStr.strip (row_anno row);
                                       pm_id := PyStr.strip (row_id row) |}]>
                                 meta
                           end) !! p = meta !! p).
            { destruct (meta !! page_key_of _); [done|].
              by rewrite lookup_insert_ne. }
            rewrite Hlk. destruct (meta !! p) as [m|].
            + destruct Hmeta as (l1 & r & l2 & -> & ? & ? & ?).
              exists l1, r, (l2 ++ [row]). by rewrite <- app_assoc.
            + intros r [Hr|Hr]%elem_of_app; [by apply Hmeta|].
              apply list_elem_of_singleton in Hr as ->. rewrite Hp.
              congruence. }
        by destruct (truthy_str (PyStr.strip (row_luogo row))).
    + split; [done|]. simpl. destruct (meta !! p) as [m|].
      * destruct Hmeta as (l1 & r & l2 & -> & ? & ? & ?).
        exists l1, r, (l2 ++ [row]). by rewrite <- app_assoc.
      * intros r [Hr|Hr]%elem_of_app; [by apply Hmeta|].
        apply list_elem_of_singleton in Hr as ->. by rewrite Hp.
Qed.

(** X25. What [_read_base_csv] makes of the raw table.  A name has an
    entry exactly when a row with a page label mentions it; the entry
    holds the pages of these rows and, as display form, a shortest one
    of the forms under which the name is mentioned.  The meta data of
    a page are those of the first row filed under the page. *)
Theorem base_table_is_read (rows : list base_row) (k : list N) (p : page) :
  let table := _read_base_csv (Some rows) in
  match fst table !! k with
  | Some info =>
      (forall p, p ∈ ti_pages info <->
                 exists t, (t, p) ∈ base_mentions rows /\ norm t = k)
      /\ norm (ti_display info) = k
      /\ (exists p, (ti_display info, p) ∈ base_mentions rows)
      /\ (forall t p, (t, p) ∈ base_mentions rows -> norm t = k ->
                      (length (ti_display info) <= length t)%nat)
  | None => forall t p, (t, p) ∈ base_mentions rows -> norm t <> k
  end
  /\ match snd table !! p with
     | Some m =>
         exists l1 r l2,
           rows = l1 ++ r :: l2 /\ page_of r = Some p
           /\ (forall r', r' ∈ l1 -> page_of r' <> Some p)
           /\ m = {| pm_anno := PyStr.strip (row_anno r);
                     pm_id := PyStr.strip (row_id r) |}
     | None => forall r, r ∈ rows -> page_of r <> Some p
     end.
Proof.
  cbv zeta. unfold _read_base_csv.
  destruct (read_base_rows rows p) as [Hout Hmeta]. cbv zeta in Hout, Hmeta.
  split; [|exact Hmeta]. rewrite Hout.
  apply (record_all_read (base_mentions rows) (base_mentions_truthy rows) k).
Qed.

Lemma read_rejected_rows (rows : list excl_row) :
  fst (_read_fallback_excluded (Some rows))
  = fold_left record (rejected_mentions rows) ∅.
Proof.
  unfold _read_fallback_excluded.
  induction rows as [|row rows IH] using rev_ind; [done|].
  rewrite fold_left_app. cbn [fold_left].
  unfold rejected_mentions. rewrite flat_map_app.
  fold (rejected_mentions rows). rewrite fold_left_app, <- IH.
  destruct (fold_left _ rows (∅, ∅)) as [out meta].
  cbn [flat_map fst]. rewrite app_nil_r. cbv zeta.
  destruct (truthy_str (PyStr.strip (erow_pagina row))); [|done].
  by destruct (truthy_str (PyStr.strip (erow_termine row))).
Qed.

(** X26. What [_read_fallback_excluded] makes of the table of the
    rejected terms: a name has an entry exactly when a row with a page
    label and a term mentions it, and the entry holds the pages of
    these rows and a shortest one of the forms of the name. *)
Theorem rejected_table_is_read (rows : list excl_row) (k : list N) :
  match fst (_read_fallback_excluded (Some rows)) !! k with
  | Some info =>
      (forall p, p ∈ ti_pages info <->
                 exists t, (t, p) ∈ rejected_mentions rows /\ norm t = k)
      /\ norm (ti_display info) = k
      /\ (exists p, (ti_display info, p) ∈ rejected_mentions rows)
      /\ (forall t p, (t, p) ∈ rejected_mentions rows -> norm t = k ->
                      (length (ti_display info) <= length t)%nat)
  | None => forall t p, (t, p) ∈ rejected_mentions rows -> norm t <> k
  end.
Proof.
  rewrite read_rejected_rows.
  apply (record_all_read (rejected_mentions rows)
           (rejected_mentions_truthy rows) k).
Qed.

End WithRuntime.
End ReaderFacts.


(** * Saving and loading the exclusions *)

Module StoreFacts.
Section WithRuntime.
Context {U : UnicodeData} {B : Builtins} {L : NormalForm.UnicodeLaws U}.
Import Exclusions ExclusionsStore.

Local Abbreviation norm t := (Utils._norm (Some t)).

Lemma norm_norm (s : list N) : norm (norm s) = norm s.
Proof.
  unfold Utils._norm.
  destruct (NormalizerFacts.normalize_name_shape (Some s)) as [Hf Ht].
  by apply NormalizerFacts.normalize_name_fixed.
Qed.

Lemma strip_norm (s : list N) : PyStr.strip (norm s) = norm s.
Proof.
  unfold Utils._norm.
  destruct (NormalizerFacts.normalize_name_shape (Some s)) as [_ Ht].
  by apply NormalizerFacts.strip_tidy.
Qed.

(** ** The sets of pairs *)

Lemma elem_of_pairs_of (rows : list attestation) (k : list N) (pg : Z) :
  (k, pg) ∈ pairs_of rows <->
  exists a, a ∈ rows /\ norm (name_norm a) = k /\ truthy_str k = true
            /\ att_page a = pg /\ pg <> 0%Z.
Proof.
  unfold pairs_of.
  assert (H : forall acc : gset (list N * Z),
             (k, pg) ∈ fold_left
               (fun acc row =>
                  let nm := norm (name_norm row) in
                  let pg := att_page row in
                  if truthy_str nm && negb (pg =? 0)%Z
                  then acc ∪ {[(nm, pg)]} else acc) rows acc
             <-> (k, pg) ∈ acc
                 \/ exists a, a ∈ rows /\ norm (name_norm a) = k
                              /\ truthy_str k = true
                              /\ att_page a = pg /\ pg <> 0%Z).
  { induction rows as [|a rows IH]; intros acc; cbn [fold_left].
    - split; [by left|]. intros [?|(a & ?%elem_of_nil & _)]; done.
    - rewrite IH. setoid_rewrite elem_of_cons. cbv zeta.
      destruct (truthy_str (norm (name_norm a))) eqn:Ht;
        destruct (Z.eqb_spec (att_page a) 0) as [Hz|Hz]; cbn [andb negb].
      + split; [naive_solver|].
        intros [?|(a' & [->|?] & <- & ? & <- & ?)]; naive_solver.
      + rewrite elem_of_union, elem_of_singleton. split.
        * intros [[?|[= -> ->]]|?]; [by left| |naive_solver].
          right. exists a. naive_solver.
        * intros [?|(a' & [->|?] & <- & ? & <- & ?)]; naive_solver.
      + split; [naive_solver|].
        intros [?|(a' & [->|?] & <- & ? & <- & ?)];
          [by left|congruence|naive_solver].
      + split; [naive_solver|].
        intros [?|(a' & [->|?] & <- & ? & <- & ?)];
          [by left|congruence|naive_solver]. }
  rewrite H. set_solver.
Qed.

(** The row asks for the name [n] on the page [pg]. *)
Local Abbreviation asks row n pg :=
  (exists r, row = VDict r
             /\ Py.to_int (default VNone (Py.assoc (ustr "page") r))
                = Some pg
             /\ default VNone (Py.assoc (ustr "name_norm") r) = VStr n
             /\ truthy_str (PyStr.strip n) = true).

Lemma elem_of_wanted_pairs (rows : list pyval) (k : list N) (pg : Z) :
  (k, pg) ∈ wanted_pairs rows <->
  exists row n, row ∈ rows /\ asks row n pg /\ truthy_str (norm n) = true
                /\ pg <> 0%Z /\ k = norm n.
Proof.
  unfold wanted_pairs. rewrite elem_of_list_to_set, list_elem_of_omap.
  split.
  - intros (row & Hin & Hrow). destruct row as [| | | | | |r]; try done.
    destruct (Py.to_int _) as [pg'|] eqn:Hpg; [|done].
    destruct (default VNone (Py.assoc (ustr "name_norm") r))
      as [| | | |n| |] eqn:Hn; try done.
    destruct (truthy_str (PyStr.strip n)) eqn:Hs; [|done].
    destruct (truthy_str (norm n)) eqn:Ht; [|done].
    destruct (Z.eqb_spec pg' 0) as [Hz|Hz]; [done|].
    simpl in Hrow. injection Hrow as <- <-.
    exists (VDict r), n. split; [done|]. split; [|done].
    exists r. by rewrite Hpg, Hn, Hs.
  - intros (row & n & Hin & (r & -> & Hpg & Hn & Hs) & Ht & Hz & ->).
    exists (VDict r). split; [done|]. rewrite Hpg, Hn, Hs, Ht. simpl.
    by destruct (Z.eqb_spec pg 0).
Qed.

Lemma elem_of_clean_rows (seen : list (list N * Z)) (rows : list pyval)
    (d : pyval) :
  d ∈ clean_rows seen rows ->
  exists row n pg, row ∈ rows /\ asks row n pg /\ (norm n, pg) ∉ seen
                   /\ d = pair_dict (norm n) pg.
Proof.
  revert seen. induction rows as [|row rows IH]; intros seen; simpl.
  - by intros ?%elem_of_nil.
  - assert (Hskip : forall seen', seen' = seen \/ (exists x, seen' = x :: seen) ->
              d ∈ clean_rows seen' rows ->
              exists row' n pg, row' ∈ row :: rows /\ asks row' n pg
                                /\ (norm n, pg) ∉ seen
                                /\ d = pair_dict (norm n) pg).
    { intros seen' Hs Hd.
      destruct (IH seen' Hd) as (row' & n & pg & Hin & Ha & Hns & ->).
      exists row', n, pg. split; [by right|]. split; [done|].
      split; [|done]. destruct Hs as [->|[x ->]]; [done|].
      intros ?. apply Hns. by right. }
    destruct row as [| | | | | |r]; try (apply Hskip; by left).
    destruct (Py.to_int _) as [pg|] eqn:Hpg; [|apply Hskip; by left].
    destruct (default VNone (Py.assoc (ustr "name_norm") r))
      as [| | | |n| |] eqn:Hn; try (apply Hskip; by left).
    destruct (truthy_str (PyStr.strip n)) eqn:Hs; [|apply Hskip; by left].
    destruct (bool_decide _) eqn:Hd; [apply Hskip; by left|].
    apply bool_decide_eq_false in Hd.
    intros [->|Hin]%elem_of_cons.
    + exists (VDict r), n, pg. split; [by left|]. split; [|done].
      exists r. by rewrite Hpg, Hn, Hs.
    + apply (Hskip ((norm n, pg) :: seen)); [right; by eexists|done].
Qed.

Lemma clean_rows_keeps (seen : list (list N * Z)) (rows : list pyval)
    (row : pyval) (n : list N) (pg : Z) :
  row ∈ rows -> asks row n pg -> (norm n, pg) ∉ seen ->
  pair_dict (norm n) pg ∈ clean_rows seen rows.
Proof.
  revert seen. induction rows as [|row0 rows IH]; intros seen Hin Ha Hns.
  - by apply elem_of_nil in Hin.
  - simpl. apply elem_of_cons in Hin as [<-|Hin].
    + destruct Ha as (r & -> & Hpg & Hn & Hs). rewrite Hpg, Hn, Hs.
      rewrite bool_decide_eq_false_2 by done. by left.
    + destruct row0 as [| | | | | |r0]; try by apply IH.
      destruct (Py.to_int _) as [pg0|]; [|by apply IH].
      destruct (default VNone (Py.assoc (ustr "name_norm") r0))
        as [| | | |n0| |]; try by apply IH.
      destruct (truthy_str (PyStr.strip n0)); [|by apply IH].
      destruct (bool_decide _) eqn:Hd; [by apply IH|].
      destruct (decide ((norm n0, pg0) = (norm n, pg))) as [Heq|Hne].
      * injection Heq as -> ->. by left.
      * right. apply IH; [done..|].
        intros [?|?]%elem_of_cons; [congruence|done].
Qed.

(** What the loader makes of a pair that was saved. *)
Lemma load_pair_dict (n : list N) (pg : Z) :
  Exclusions._clean_pairs (VList [pair_dict n pg])
  = Ok (if truthy_str (PyStr.strip n)
        then [{| name_norm := norm n; att_page := pg |}] else []).
Proof.
  unfold Exclusions._clean_pairs, pair_dict. simpl.
  by destruct (truthy_str (PyStr.strip n)).
Qed.

Lemma load_pair_dicts (ds : list pyval) :
  exists atts,
    Exclusions._clean_pairs (VList ds) = Ok atts
    /\ forall a, a ∈ atts <->
                 exists d, d ∈ ds
                           /\ Exclusions._clean_pairs (VList [d]) = Ok [a].
Proof.
  unfold Exclusions._clean_pairs. cbn [Py.iter rbind].
  set (g := fun row : pyval => _).
  exists (omap g ds). split; [done|]. intros a.
  rewrite list_elem_of_omap. split.
  - intros (d & Hd & Hg). exists d. split; [done|].
    cbn [omap list_omap]. by rewrite Hg.
  - intros (d & Hd & Hg). exists d. split; [done|].
    cbn [omap list_omap] in Hg.
    destruct (g d) as [a'|]; [by injection Hg as ->|done].
Qed.

(** What is saved for the rows of a request is loaded as the pairs
    that the rows ask for. *)
Lemma saved_pairs_load (rows : list pyval) :
  exists atts,
    Exclusions._clean_pairs (VList (clean_rows [] rows)) = Ok atts
    /\ pairs_of atts = wanted_pairs rows.
Proof.
  destruct (load_pair_dicts (clean_rows [] rows)) as (atts & Hl & Hin).
  exists atts. split; [done|]. apply set_eq. intros [k pg].
  rewrite elem_of_pairs_of, elem_of_wanted_pairs. split.
  - intros (a & Ha & <- & Ht & <- & Hz).
    apply Hin in Ha as (d & Hd & Hg).
    apply elem_of_clean_rows in Hd as (row & n & pg & Hrow & Hasks & _ & ->).
    rewrite load_pair_dict in Hg.
    destruct (truthy_str (PyStr.strip (norm n))); [|done].
    injection Hg as <-. simpl in *. rewrite !norm_norm in *.
    by exists row, n.
  - intros (row & n & Hrow & Hasks & Ht & Hz & ->).
    exists {| name_norm := norm (norm n); att_page := pg |}. simpl.
    rewrite !norm_norm. split; [|done]. apply Hin.
    exists (pair_dict (norm n) pg).
    split; [by eapply clean_rows_keeps; [..|apply not_elem_of_nil]|].
    rewrite load_pair_dict, strip_norm, Ht. by rewrite ?norm_norm.
Qed.

Lemma por_list (l : list pyval) : Py.por (VList l) (VList []) = VList l.
Proof. by destruct l. Qed.

Lemma omap_strings (l : list (list N)) :
  omap (fun x => match x with VStr t => Some t | _ => None end)
       (List.map VStr l) = l.
Proof. induction l as [|x l IH]; [done|]. simpl. f_equal. exact IH. Qed.

(** X27. Saving and loading the exclusions is a round trip: what
    [load_user_exclusions_full] reads from the file that
    [save_user_exclusions] writes are the normalized names of the
    toponyms that are not blank, and the pairs that the rows of the
    two lists ask for. *)
Theorem exclusions_round_trip (file : json_file) (prev : raw_exclusions)
    (excluded_toponyms : list (list N))
    (excluded_attestations forced_include_attestations : list pyval) :
  _load_raw_exclusions file = Ok prev ->
  exists written,
    save_user_exclusions file excluded_toponyms
      (VList excluded_attestations) (VList forced_include_attestations)
    = Ok written
    /\ load_user_exclusions_full (Parsed written)
       = Ok (list_to_set
               (List.map (fun x => norm x)
                  (List.filter (fun x => truthy_str (PyStr.strip x))
                               excluded_toponyms)),
             wanted_pairs excluded_attestations,
             wanted_pairs forced_include_attestations).
Proof.
  intros Hprev. unfold save_user_exclusions. rewrite Hprev.
  cbn [rbind]. cbv zeta. unfold _clean_pairs. rewrite !por_list.
  cbn [Py.iter rbind]. eexists. split; [done|].
  destruct (saved_pairs_load excluded_attestations) as (ex & Hex & Hexs).
  destruct (saved_pairs_load forced_include_attestations)
    as (inc & Hinc & Hincs).
  unfold load_user_exclusions_full, _load_raw_exclusions.
  cbn [Py.contains Py.assoc]. simpl.
  rewrite !por_list. rewrite Hex, Hinc. simpl. rewrite omap_strings.
  rewrite Hexs, Hincs. do 3 f_equal.
  apply set_eq. intros k. rewrite !elem_of_list_to_set.
  rewrite !list_elem_of_In, !in_map_iff.
  setoid_rewrite <- list_elem_of_In.
  unfold Utils.ordered_unique.
  setoid_rewrite ToolboxFacts.elem_of_ordered_unique_go.
  setoid_rewrite elem_of_nil. naive_solver.
Qed.

End WithRuntime.
End StoreFacts.


(** * The curation and the batch on the scenarios *)

Module CurationWitnesses.
Import Server Curation Scenarios CurationScenarios.
#[local] Existing Instance BasicLatin.unicode_data.
#[local] Existing Instance BasicLatin.builtins.

(** Page 52 of "Cerignola" is in the raw table; the global exclusion
    moves it to the excluded pages. *)
Lemma raw_pages_accounted_witness :
  PInt 52 ∈ raw_pages cerignola_job (ustr "cerignola")
  /\ (PInt 52 ∈ included_pages (_compute_model cerignola_job)
                 (ustr "cerignola")
      \/ PInt 52 ∈ excluded_pages (_compute_model cerignola_job)
                    (ustr "cerignola")).
Proof.
  assert (H : PInt 52 ∈ raw_pages cerignola_job (ustr "cerignola"))
    by (apply (bool_decide_unpack _); vm_compute; exact I).
  split; [exact H|].
  exact (ModelFacts.raw_pages_accounted cerignola_job (ustr "cerignola")
           (PInt 52) H).
Defined.

(** Forcing "Bari" in on page 52, where it is excluded, includes the
    page. *)
Lemma forcing_is_monotone_witness :
  rec_page bari_52 = Some (PInt 52)
  /\ _norm (Some (default [] (rec_norm bari_52))) = ustr "bari"
  /\ truthy_str (ustr "bari") = true
  /\ PInt 52 ∉ included_pages (_compute_model bari_job) (ustr "bari")
  /\ PInt 52 ∈ included_pages
                (_compute_model (force_occurrence bari_job bari_52))
                (ustr "bari").
Proof.
  split; [reflexivity|]. split; [reflexivity|]. split; [reflexivity|].
  split; [apply (bool_decide_unpack _); vm_compute; exact I|].
  exact (proj2 (proj2 (ModelFacts.forcing_is_monotone bari_job bari_52
                         (ustr "bari") (PInt 52)))
           eq_refl eq_refl eq_refl).
Defined.

(** Saving the state of the "Bari" job, whose first record is not
    normalized. *)
Lemma saving_keeps_the_decisions_witness :
  NormalForm.UnicodeLaws BasicLatin.unicode_data
  /\ pairs_set (exclude_pages (_save_user_state (annale_user_state bari_job)))
     = pairs_set (exclude_pages (annale_user_state bari_job))
  /\ _save_user_state (_save_user_state (annale_user_state bari_job))
     = _save_user_state (annale_user_state bari_job).
Proof.
  split; [exact BasicLatinFacts.laws|].
  destruct (SaveFacts.saving_keeps_the_decisions
              (L := BasicLatinFacts.laws) (annale_user_state bari_job))
    as (H1 & _ & H3).
  split; [exact H1|exact H3].
Defined.

(** Forcing "Cerignola" in on page 52 of a job that excludes the name
    everywhere. *)
Lemma forced_occurrence_is_included_witness :
  cerignola_52 ∈ include_attestations force_cerignola_52
  /\ att_req_page cerignola_52 = Some (PStr (ustr "52"))
  /\ truthy_str (_norm (Some (att_term cerignola_52))) = true
  /\ PInt 52 ∈ included_pages
                (_compute_model
                   (api_exclusions cerignola_job force_cerignola_52))
                (ustr "cerignola").
Proof.
  assert (H : cerignola_52 ∈ include_attestations force_cerignola_52)
    by apply list_elem_of_here.
  split; [exact H|]. split; [reflexivity|]. split; [reflexivity|].
  exact (ApiFacts.forced_occurrence_is_included
           (L := BasicLatinFacts.laws) cerignola_job force_cerignola_52
           cerignola_52 (PStr (ustr "52")) H eq_refl eq_refl).
Defined.

(** Taking "Cerignola" back in everywhere. *)
Lemma reincluded_toponym_is_unwound_witness :
  ustr "Cerignola" ∈ include_toponyms reinclude_cerignola
  /\ truthy_str (_norm (Some (ustr "Cerignola"))) = true
  /\ ustr "cerignola"
     ∉ exclude_global
         (annale_user_state
            (api_exclusions cerignola_job reinclude_cerignola))
  /\ (forall p, p ∈ raw_pages cerignola_job (ustr "cerignola") ->
        p ∈ included_pages
              (_compute_model
                 (api_exclusions cerignola_job reinclude_cerignola))
              (ustr "cerignola")).
Proof.
  assert (H : ustr "Cerignola" ∈ include_toponyms reinclude_cerignola)
    by apply list_elem_of_here.
  split; [exact H|]. split; [reflexivity|].
  destruct (ApiFacts.reincluded_toponym_is_unwound
              (L := BasicLatinFacts.laws) cerignola_job reinclude_cerignola
              (ustr "Cerignola") H eq_refl) as (H1 & _ & H3).
  split; [exact H1|exact H3].
Defined.

(** Excluding "Bari" everywhere removes its forced page as well. *)
Lemma excluded_toponym_has_no_page_witness :
  ustr "Bari" ∈ exclude_toponyms exclude_bari
  /\ truthy_str (_norm (Some (ustr "Bari"))) = true
  /\ included_pages (_compute_model (api_exclusions bari_job exclude_bari))
                    (ustr "bari") = [].
Proof.
  assert (H : ustr "Bari" ∈ exclude_toponyms exclude_bari)
    by apply list_elem_of_here.
  split; [exact H|]. split; [reflexivity|].
  exact (proj1 (ApiFacts.excluded_toponym_has_no_page
                  (L := BasicLatinFacts.laws) bari_job exclude_bari
                  (ustr "Bari") H eq_refl eq_refl eq_refl)).
Defined.

Import Exclusions ExclusionsStore.

Lemma exclusions_file_loaded :
  load_user_exclusions_full exclusions_file
  = Ok ({[ ustr "bari" ]}, {[ (ustr "cerignola", 53%Z) ]},
        {[ (ustr "circolo", 52%Z) ]}).
Proof. vm_compute. reflexivity. Qed.

(** The filtered table of the job keeps the two rows of the raw
    table. *)
Lemma filtered_csv_rows_witness :
  load_user_exclusions_full exclusions_file
  = Ok ({[ ustr "bari" ]}, {[ (ustr "cerignola", 53%Z) ]},
        {[ (ustr "circolo", 52%Z) ]})
  /\ exists out,
       apply_exclusions_to_csv (Some annale_rows) (Some rejected_rows)
         exclusions_file = Ok out
       /\ length out = 2%nat.
Proof.
  split; [exact exclusions_file_loaded|].
  destruct (ExclusionsFacts.filtered_csv_rows annale_rows
              (Some rejected_rows) exclusions_file _ _ _
              exclusions_file_loaded) as (out & Hout & Hrows).
  exists out. split; [exact Hout|].
  symmetry. exact (Forall2_length _ _ _ Hrows).
Defined.

(** "Circolo", rejected on page 52 and forced back in, is restored on
    the row of page 52. *)
Lemma forced_prefilter_term_is_restored_witness :
  load_user_exclusions_full exclusions_file
  = Ok ({[ ustr "bari" ]}, {[ (ustr "cerignola", 53%Z) ]},
        {[ (ustr "circolo", 52%Z) ]})
  /\ exists out,
       apply_exclusions_to_csv (Some annale_rows) (Some rejected_rows)
         exclusions_file = Ok out
       /\ length out = 2%nat.
Proof.
  split; [exact exclusions_file_loaded|].
  destruct (ExclusionsFacts.forced_prefilter_term_is_restored annale_rows
              rejected_rows exclusions_file _ _ _
              exclusions_file_loaded) as (out & Hout & Hrows).
  exists out. split; [exact Hout|].
  symmetry. exact (Forall2_length _ _ _ Hrows).
Defined.

(** Saving one global exclusion and one page exclusion into an empty
    job directory. *)
Lemma exclusions_round_trip_witness :
  NormalForm.UnicodeLaws BasicLatin.unicode_data
  /\ _load_raw_exclusions Missing = Ok no_exclusions
  /\ exists written,
       save_user_exclusions Missing [ustr "Bari"]
         (VList [pair_dict (ustr "Cerignola") 53]) (VList [])
       = Ok written
       /\ load_user_exclusions_full (Parsed written)
          = Ok (list_to_set
                  (List.map (fun x => Utils._norm (Some x))
                     (List.filter (fun x => truthy_str (PyStr.strip x))
                                  [ustr "Bari"])),
                wanted_pairs [pair_dict (ustr "Cerignola") 53],
                wanted_pairs []).
Proof.
  split; [exact BasicLatinFacts.laws|]. split; [reflexivity|].
  exact (StoreFacts.exclusions_round_trip (L := BasicLatinFacts.laws)
           Missing no_exclusions [ustr "Bari"]
           [pair_dict (ustr "Cerignola") 53] [] eq_refl).
Defined.

Import Geocode Toolbox.

(** "Parigi" is found under its exonym; the city has coordinates and is
    returned although a result of tier 9 comes first. *)
Lemma acceptable_candidate_is_never_rejected_witness :
  paris_fr ∈ fst (gather_hits paris_service (ustr "Parigi") (fresh_world []))
  /\ (_rank_tier paris_fr < 9)%Z
  /\ exists best,
       best ∈ fst (gather_hits paris_service (ustr "Parigi")
                     (fresh_world []))
       /\ (_rank_tier best <= _rank_tier paris_fr)%Z
       /\ fst (geocode_name_robust paris_service (ustr "Parigi")
                 (fresh_world []))
          = (Some (_normalize_hit_with_geom best (ustr "Parigi")), None).
Proof.
  assert (H : paris_fr ∈ fst (gather_hits paris_service (ustr "Parigi")
                                (fresh_world []))).
  { change (paris_fr ∈ [nowhere; paris_fr]). apply list_elem_of_further,
      list_elem_of_here. }
  assert (Ht : (_rank_tier paris_fr < 9)%Z) by (vm_compute; reflexivity).
  split; [exact H|]. split; [exact Ht|].
  exact (ResolverFacts.acceptable_candidate_is_never_rejected paris_service
           (ustr "Parigi") (fresh_world []) paris_fr H (or_introl Ht)).
Defined.

(** A second run over "Parigi" and "Atlantide" writes the same feature
    and the same reject row, and nothing else. *)
Lemma rerun_answers_from_the_cache_witness :
  fst (read_active_csv (fresh_world two_term_rows)) = Ok two_term_rows
  /\ fst (phase_geocode_grouped paris_service None
            (fresh_world two_term_rows)) = Ok tt
  /\ exists features rejects,
       phase_geocode_grouped paris_service None
         (snd (phase_geocode_grouped paris_service None
                 (fresh_world two_term_rows)))
       = (Ok tt,
          {| w_trace :=
               w_trace (snd (phase_geocode_grouped paris_service None
                               (fresh_world two_term_rows)))
               ++ EvGroupedWritten features
                  :: match rejects with
                     | [] => []
                     | _ => [EvRejectsWritten rejects]
                     end;
             w_cache_file :=
               w_cache_file (snd (phase_geocode_grouped paris_service None
                                    (fresh_world two_term_rows)));
             w_filtered_csv :=
               w_filtered_csv (snd (phase_geocode_grouped paris_service None
                                      (fresh_world two_term_rows)));
             w_base_csv :=
               w_base_csv (snd (phase_geocode_grouped paris_service None
                                  (fresh_world two_term_rows))) |}).
Proof.
  assert (H1 : fst (read_active_csv (fresh_world two_term_rows))
               = Ok two_term_rows) by reflexivity.
  assert (H2 : fst (phase_geocode_grouped paris_service None
                      (fresh_world two_term_rows)) = Ok tt)
    by (vm_compute; reflexivity).
  split; [exact H1|]. split; [exact H2|].
  destruct (RerunFacts.rerun_answers_from_the_cache paris_service
              two_term_rows (fresh_world two_term_rows) H1 H2)
    as (features & rejects & _ & Hrun).
  exists features, rejects. exact Hrun.
Defined.

(** The progress file over a run on two terms. *)
Lemma worker_progress_witness :
  fst (read_active_csv (fresh_world two_term_rows)) = Ok two_term_rows
  /\ cache_ok (default ∅ (w_cache_file (fresh_world two_term_rows)))
  /\ progress_log (snd (_geocode_worker paris_service
                          (fresh_world two_term_rows)))
     = [(Starting, 0, 0, None);
        (Running, 0, 2, Some (ustr "Parigi"));
        (Running, 1, 2, Some (ustr "Atlantide"));
        (Running, 2, 2, None);
        (Done, 1, 1, None)]%Z.
Proof.
  assert (H1 : fst (read_active_csv (fresh_world two_term_rows))
               = Ok two_term_rows) by reflexivity.
  assert (H2 : cache_ok
                 (default ∅ (w_cache_file (fresh_world two_term_rows)))).
  { intros k entry. simpl. by rewrite lookup_empty. }
  split; [exact H1|]. split; [exact H2|].
  rewrite (BatchFacts.worker_progress paris_service two_term_rows
             (fresh_world two_term_rows) H1 H2).
  reflexivity.
Defined.

(** The example of the documentation: ['51-104,115-136']. *)
Lemma merged_ranges_witness :
  truthy_str (ustr "51-104,115-136") = true
  /\ parse_include_ranges (ustr "51-104,115-136") 200
     = Some [(50, 103); (114, 135)]%Z
  /\ exists merged,
       parse_include_ranges (ustr "51-104,115-136") 200 = Some merged
       /\ StronglySorted apart merged.
Proof.
  split; [reflexivity|]. split; [vm_compute; reflexivity|].
  destruct (ToolboxFacts.merged_ranges (ustr "51-104,115-136") 200 eq_refl)
    as (merged & Hm & Hs & _).
  exists merged. split; [exact Hm|exact Hs].
Defined.

End CurationWitnesses.
